(** * whatsapp_clone.py: the rewrite rules of SmaliProcessor and XmlProcessor

    A shallow embedding of the text-rewriting core of [whatsapp_clone.py]:
    the regular expressions the two processors compile, the replacement
    templates they pass to [Pattern.sub], the ordered rule application of
    [process_file], and the per-file accounting of [process_all_files].

    Text is a list of characters.  The patterns of the program use only
    literal characters, concatenation, ordered alternation, the greedy
    optional group, capturing groups and the negative lookahead, so the
    matcher below is the backtracking matcher of Python's [re] restricted
    to that fragment: it enumerates the ways a pattern can match at the
    head of the text in the order in which the backtracking search tries
    them, and the match [re] reports is the first one.

    Two things are fixed by the embedding.  The names a job puts into a
    replacement template are read literally, as [re] does for a name
    without backslash and without a leading digit; the statements that
    range over all jobs say so with [plain_name].  And the worker pool of
    [process_all_files] is the in-order map over the files: each file is
    read and written by one call only, and [executor.map] returns the
    results in the order of the files. *)

From Stdlib Require Import Ascii String List Bool Arith Lia.
Import ListNotations.
Local Open Scope list_scope.

Set Implicit Arguments.

(** ** Text *)

Definition text := list ascii.

Definition txt (s : string) : text := list_ascii_of_string s.

Fixpoint starts_with (p s : text) : bool :=
  match p, s with
  | [], _ => true
  | _ :: _, [] => false
  | a :: p', b :: s' => Ascii.eqb a b && starts_with p' s'
  end.

(** Python's [needle in haystack] on strings. *)
Fixpoint occurs (p s : text) : bool :=
  starts_with p s ||
  match s with
  | [] => false
  | _ :: s' => occurs p s'
  end.

(** Python's [str.replace] for a single character. *)
Definition replace_char (a b : ascii) (s : text) : text :=
  map (fun c => if Ascii.eqb c a then b else c) s.

(** ** The regular-expression fragment *)

Module Regex.

Inductive regex : Type :=
| REps : regex
| RChr : ascii -> regex
| RCat : regex -> regex -> regex
| RAlt : regex -> regex -> regex
| ROpt : regex -> regex
| RGrp : nat -> regex -> regex
| RNot : regex -> regex.

(** Captured groups: the most recent binding of a group comes first. *)
Definition captures := list (nat * text).

Fixpoint group (i : nat) (g : captures) : option text :=
  match g with
  | [] => None
  | (j, v) :: g' => if Nat.eqb i j then Some v else group i g'
  end.

(** [run r s g] lists, in the order of the backtracking search, every way
    [r] matches a prefix of [s]: the text left after the match and the
    groups captured so far. *)
Fixpoint run (r : regex) (s : text) (g : captures) : list (text * captures) :=
  match r with
  | REps => [(s, g)]
  | RChr c =>
      match s with
      | x :: s' => if Ascii.eqb x c then [(s', g)] else []
      | [] => []
      end
  | RCat a b => flat_map (fun st => run b (fst st) (snd st)) (run a s g)
  | RAlt a b => run a s g ++ run b s g
  | ROpt a => run a s g ++ [(s, g)]
  | RGrp i a =>
      map (fun st => (fst st, (i, firstn (length s - length (fst st)) s) :: snd st))
          (run a s g)
  | RNot a =>
      match run a s g with
      | [] => [(s, g)]
      | _ :: _ => []
      end
  end.

(** [Pattern.match] at the head of [s]: the first way to match. *)
Definition rmatch (r : regex) (s : text) : option (text * captures) :=
  hd_error (run r s []).

(** [Pattern.groups]: the highest group number of the pattern. *)
Fixpoint groups (r : regex) : nat :=
  match r with
  | REps | RChr _ => 0
  | RCat a b | RAlt a b => Nat.max (groups a) (groups b)
  | ROpt a | RNot a => groups a
  | RGrp i a => Nat.max i (groups a)
  end.

(** The pattern matching exactly the text [s]: what [re.compile] makes of
    [re.escape(s)]. *)
Fixpoint lit (s : text) : regex :=
  match s with
  | [] => REps
  | c :: s' => RCat (RChr c) (lit s')
  end.

(** [a1|a2|...|an] for a non-empty list of literal alternatives. *)
Fixpoint alts (a : text) (l : list text) : regex :=
  match l with
  | [] => lit a
  | b :: l' => RAlt (lit a) (alts b l')
  end.

(** Replacement templates: literal characters and [\i] references. *)
Inductive titem : Type :=
| TChr : ascii -> titem
| TRef : nat -> titem.

Definition template := list titem.

Definition tlit (s : text) : template := map TChr s.

Definition expand_item (g : captures) (it : titem) : text :=
  match it with
  | TChr c => [c]
  | TRef i => match group i g with Some v => v | None => [] end
  end.

Definition expand (t : template) (g : captures) : text :=
  flat_map (expand_item g) t.

(** A template is accepted for a pattern when every reference names a
    group of the pattern; [re] raises "invalid group reference" otherwise,
    before it looks at the text. *)
Definition item_ok (n : nat) (it : titem) : bool :=
  match it with
  | TChr _ => true
  | TRef i => Nat.leb i n
  end.

Definition template_ok (r : regex) (t : template) : bool :=
  forallb (item_ok (groups r)) t.

(** The scan of [Pattern.sub]: leftmost matches, not overlapping.  [skip]
    counts the characters of the current match still to be passed over. *)
Fixpoint scan (r : regex) (t : template) (s : text) (skip : nat) : text :=
  match s with
  | [] =>
      match rmatch r [] with
      | Some (_, g) => expand t g
      | None => []
      end
  | c :: s' =>
      match skip with
      | S k => scan r t s' k
      | O =>
          match rmatch r s with
          | None => c :: scan r t s' 0
          | Some (rest, g) =>
              expand t g ++
              match length s - length rest with
              | O => c :: scan r t s' 0
              | S k => scan r t s' k
              end
          end
      end
  end.

(** [Pattern.sub(template, s)]; [None] stands for the raised [re.error]. *)
Definition sub (r : regex) (t : template) (s : text) : option text :=
  if template_ok r t then Some (scan r t s 0) else None.

End Regex.

(** ** Facts about matching and substitution *)

Module RegexFacts.
Import Regex.

Lemma starts_with_app (p r : text) : starts_with p (p ++ r) = true.
Proof.
  induction p as [|a p IH]; simpl; [reflexivity|].
  now rewrite Ascii.eqb_refl, IH.
Qed.

Lemma starts_with_split (p s : text) :
  starts_with p s = true -> s = p ++ skipn (length p) s.
Proof.
  revert s; induction p as [|a p IH]; intros [|b s]; simpl; try easy.
  intros H. apply andb_prop in H as [Hab Hps].
  apply Ascii.eqb_eq in Hab. subst b. f_equal. now apply IH.
Qed.

Lemma skipn_app_exact (A : Type) (p r : list A) : skipn (length p) (p ++ r) = r.
Proof. induction p; simpl; auto. Qed.

Lemma firstn_app_exact (A : Type) (p r : list A) : firstn (length p) (p ++ r) = p.
Proof. induction p; simpl; f_equal; auto. Qed.

Lemma run_lit (p s : text) (g : captures) :
  run (lit p) s g =
  if starts_with p s then [(skipn (length p) s, g)] else [].
Proof.
  revert s; induction p as [|a p IH]; intros s; simpl; [reflexivity|].
  destruct s as [|b s]; simpl; [reflexivity|].
  rewrite (Ascii.eqb_sym a b).
  destruct (Ascii.eqb b a); simpl; [|reflexivity].
  rewrite IH, app_nil_r. reflexivity.
Qed.

(** Whatever a pattern leaves over is a suffix of the text it was run on. *)
Lemma run_suffix (r : regex) :
  forall s g s' g', In (s', g') (run r s g) -> exists m, s = m ++ s'.
Proof.
  induction r as [|c|a IHa b IHb|a IHa b IHb|a IHa|i a IHa|a IHa];
    intros s g s' g' H; simpl in H.
  - destruct H as [H|[]]. inversion H; subst. now exists [].
  - destruct s as [|x s]; [easy|].
    destruct (Ascii.eqb x c); [|easy].
    destruct H as [H|[]]. inversion H; subst. now exists [x].
  - apply in_flat_map in H as [[s1 g1] [H1 H2]]. simpl in H2.
    apply IHa in H1 as [m1 ->]. apply IHb in H2 as [m2 ->].
    exists (m1 ++ m2). now rewrite app_assoc.
  - apply in_app_or in H as [H|H]; eauto.
  - apply in_app_or in H as [H|[H|[]]]; eauto.
    inversion H; subst. now exists [].
  - apply in_map_iff in H as [[s1 g1] [E H]]. simpl in E.
    inversion E; subst. eauto.
  - destruct (run a s g); [|easy].
    destruct H as [H|[]]. inversion H; subst. now exists [].
Qed.

Lemma rmatch_suffix (r : regex) (s rest : text) (g : captures) :
  rmatch r s = Some (rest, g) -> exists m, s = m ++ rest.
Proof.
  unfold rmatch. intros H.
  destruct (run r s []) as [|[s1 g1] l] eqn:E; [easy|].
  simpl in H. inversion H; subst.
  apply (run_suffix r s [] rest g). rewrite E. now left.
Qed.

(** *** The scan *)

Section Scan.
Variables (r : regex) (t : template).

Lemma scan_skip (m rest : text) :
  scan r t (m ++ rest) (length m) = scan r t rest 0.
Proof.
  induction m as [|c m IH]; simpl; [|exact IH].
  destruct rest; reflexivity.
Qed.

Lemma scan_nomatch (c : ascii) (s : text) :
  rmatch r (c :: s) = None -> scan r t (c :: s) 0 = c :: scan r t s 0.
Proof. intros H. simpl. now rewrite H. Qed.

Lemma scan_match (m rest : text) (g : captures) :
  m <> [] -> rmatch r (m ++ rest) = Some (rest, g) ->
  scan r t (m ++ rest) 0 = expand t g ++ scan r t rest 0.
Proof.
  intros Hm H. destruct m as [|c m]; [easy|].
  change ((c :: m) ++ rest) with (c :: (m ++ rest)) in *.
  cbn [scan]. rewrite H. f_equal.
  replace (length (c :: m ++ rest) - length rest) with (S (length m))
    by (cbn [length]; rewrite length_app; lia).
  apply scan_skip.
Qed.

(** Patterns that never match the empty text: all patterns of the program
    are of this kind. *)
Definition consuming : Prop :=
  forall s rest g, rmatch r s = Some (rest, g) -> length rest < length s.

Lemma consuming_nil : consuming -> rmatch r [] = None.
Proof.
  intros H. destruct (rmatch r []) as [[rest g]|] eqn:E; [|reflexivity].
  apply H in E. simpl in E. lia.
Qed.

Lemma scan_step (s : text) :
  consuming ->
  s <> [] ->
  match rmatch r s with
  | None => exists c s', s = c :: s' /\ scan r t s 0 = c :: scan r t s' 0
  | Some (rest, g) =>
      exists m, m <> [] /\ s = m ++ rest /\
                scan r t s 0 = expand t g ++ scan r t rest 0
  end.
Proof.
  intros Hc Hs. destruct (rmatch r s) as [[rest g]|] eqn:E.
  - destruct (rmatch_suffix _ _ E) as [m ->].
    exists m. apply Hc in E as Hl.
    assert (m <> []) by (intros ->; simpl in Hl; lia).
    repeat split; auto. now apply scan_match.
  - destruct s as [|c s]; [easy|]. exists c, s. split; auto.
    now apply scan_nomatch.
Qed.

(** No position of the text starts a match. *)
Fixpoint no_match (s : text) : bool :=
  match rmatch r s with
  | Some _ => false
  | None =>
      match s with
      | [] => true
      | _ :: s' => no_match s'
      end
  end.

Lemma scan_no_match (s : text) : no_match s = true -> scan r t s 0 = s.
Proof.
  induction s as [|c s IH]; simpl.
  - destruct (rmatch r []); easy.
  - destruct (rmatch r (c :: s)); [easy|]. intros H. f_equal. auto.
Qed.

(** A rule that replaces every match by the matched text changes nothing. *)
Lemma scan_self (s : text) :
  (forall m rest g, rmatch r (m ++ rest) = Some (rest, g) ->
                    m <> [] /\ expand t g = m) ->
  scan r t s 0 = s.
Proof.
  intros H.
  assert (Hc : consuming).
  { intros s0 rest g E. destruct (rmatch_suffix _ _ E) as [m ->].
    apply H in E as [Hm _]. rewrite length_app.
    destruct m; [easy|simpl; lia]. }
  remember (length s) as n eqn:Hn. revert s Hn.
  induction n as [n IH] using lt_wf_ind. intros s Hn.
  destruct s as [|c s]; [simpl; now rewrite consuming_nil|].
  pose proof (@scan_step (c :: s) Hc ltac:(easy)) as Hs.
  destruct (rmatch r (c :: s)) as [[rest g]|] eqn:E.
  - destruct Hs as [m [Hm [Es ->]]]. rewrite Es in E.
    apply H in E as [_ ->]. rewrite Es. f_equal.
    apply (IH (length rest)); [|reflexivity].
    rewrite Hn, Es, length_app. destruct m; [easy|simpl; lia].
  - destruct Hs as [c' [s' [Es ->]]]. inversion Es; subst. f_equal.
    apply (IH (length s')); [simpl; lia|reflexivity].
Qed.

(** Every suffix of the output either is the scan of some text, or starts
    inside the replacement written for some match. *)
Lemma scan_tails :
  consuming ->
  forall s a b, scan r t s 0 = a ++ b ->
    (exists s2, b = scan r t s2 0) \/
    (exists m rest g x y,
        m <> [] /\ rmatch r (m ++ rest) = Some (rest, g) /\
        expand t g = x ++ y /\ x <> [] /\ y <> [] /\
        b = y ++ scan r t rest 0).
Proof.
  intros Hc s. remember (length s) as n eqn:Hn. revert s Hn.
  induction n as [n IH] using lt_wf_ind. intros s Hn a b H.
  destruct a as [|c0 a]; [left; now exists s|].
  destruct s as [|c s].
  { simpl in H. now rewrite consuming_nil in H. }
  pose proof (@scan_step (c :: s) Hc ltac:(easy)) as Hs.
  destruct (rmatch r (c :: s)) as [[rest g]|] eqn:E.
  - destruct Hs as [m [Hm [Es Hscan]]]. rewrite Hscan in H.
    apply app_eq_app in H as [l [[H1 H2]|[H1 H2]]].
    + destruct l as [|y0 l].
      * left. exists rest. now rewrite H2.
      * right. exists m, rest, g, (c0 :: a), (y0 :: l).
        rewrite <- Es. repeat split; try easy.
    + apply (IH (length rest)) with (s := rest) (a := l); auto.
      rewrite Hn, Es, length_app. destruct m; [easy|simpl; lia].
  - destruct Hs as [c' [s' [Es Hscan]]]. inversion Es; subst c' s'.
    rewrite Hscan in H. simpl in H. inversion H; subst c0.
    apply (IH (length s)) with (s := s) (a := a); auto. rewrite Hn. simpl; lia.
Qed.

(** The text splits into a part copied as it is, no match starting at its
    first character, and a rest that is empty or starts with a match. *)
Lemma scan_copied :
  consuming ->
  forall s, exists u s3,
    s = u ++ s3 /\ scan r t s 0 = u ++ scan r t s3 0 /\
    (u <> [] -> rmatch r s = None) /\
    (s3 = [] \/ rmatch r s3 <> None).
Proof.
  intros Hc. induction s as [|c s IH].
  - exists [], []. repeat split; auto. easy.
  - destruct (rmatch r (c :: s)) as [[rest g]|] eqn:E.
    + exists [], (c :: s). repeat split; auto; [easy|].
      right. now rewrite E.
    + destruct IH as [u [s3 [Hs [Hscan [_ Hs3]]]]].
      exists (c :: u), s3. repeat split; auto.
      * simpl. now rewrite <- Hs.
      * rewrite scan_nomatch by exact E. simpl. now rewrite Hscan.
Qed.

(** A word that no match reaches into from the left is met by the scan
    at its first character. *)
Lemma scan_in_context (w : text) :
  consuming ->
  (forall x s rest g,
      x <> [] -> rmatch r (x ++ w ++ s) = Some (rest, g) ->
      exists y, rest = y ++ w ++ s) ->
  forall before rest,
  exists before', scan r t (before ++ w ++ rest) 0 = before' ++ scan r t (w ++ rest) 0.
Proof.
  intros Hc Hw before. remember (length before) as n eqn:Hn. revert before Hn.
  induction n as [n IH] using lt_wf_ind. intros before Hn rest.
  destruct before as [|c before]; [now exists []|].
  pose proof (@scan_step ((c :: before) ++ w ++ rest) Hc ltac:(easy)) as Hs.
  destruct (rmatch r ((c :: before) ++ w ++ rest)) as [[rest1 g]|] eqn:E.
  - destruct Hs as [m [Hm [Es Hscan]]].
    destruct (Hw (c :: before) rest rest1 g ltac:(easy) E) as [y Hy].
    assert (Hlen : length y < n).
    { pose proof (f_equal (@length _) Es) as Hl. rewrite Hy in Hl.
      rewrite !length_app in Hl. destruct m; [easy|].
      rewrite Hn. cbn [length] in *. lia. }
    destruct (IH (length y) Hlen y eq_refl rest) as [b' Hb'].
    exists (expand t g ++ b'). rewrite Hscan, Hy, Hb'. now rewrite app_assoc.
  - destruct Hs as [c' [s' [Es Hscan]]].
    cbn [app] in Es. injection Es as <- <-.
    destruct (IH (length before) ltac:(rewrite Hn; simpl; lia) before eq_refl rest)
      as [b' Hb'].
    exists (c :: b'). rewrite Hscan, Hb'. reflexivity.
Qed.

End Scan.

(** *** Rules that replace the occurrences of one text by another *)

(** Some proper, non-empty suffix of [a] starts [b]. *)
Fixpoint suffix_prefix (a b : text) : bool :=
  match a with
  | [] => false
  | _ :: a' =>
      (match a' with [] => false | _ :: _ => starts_with a' b end) ||
      suffix_prefix a' b
  end.

(** [old] and [new] cannot be told apart across a boundary: neither occurs
    in the other, and no end of one is a beginning of the other. *)
Definition no_overlap (old new : text) : bool :=
  negb (occurs old new) && negb (occurs new old) &&
  negb (suffix_prefix new old) && negb (suffix_prefix old new).

Lemma occurs_intro (p a b : text) : occurs p (a ++ p ++ b) = true.
Proof.
  induction a as [|c a IH].
  - simpl app. destruct (p ++ b) eqn:E; simpl; rewrite <- E;
      now rewrite starts_with_app.
  - simpl. now rewrite IH, orb_true_r.
Qed.

Lemma suffix_prefix_intro (x y b : text) :
  x <> [] -> y <> [] -> starts_with y b = true -> suffix_prefix (x ++ y) b = true.
Proof.
  intros Hx Hy H. induction x as [|c x IH]; [easy|].
  cbn [app suffix_prefix]. destruct x as [|c' x].
  - simpl app. destruct y; [easy|]. now rewrite H.
  - rewrite IH by easy. apply orb_true_r.
Qed.

Section Clean.
Variables (r : regex) (t : template) (old new : text).
Hypothesis Hmatch : forall s, rmatch r s <> None <-> starts_with old s = true.
Hypothesis Hexp : forall s rest g, rmatch r s = Some (rest, g) -> expand t g = new.
Hypothesis Hcons : consuming r.

Lemma old_not_nil : old <> [].
Proof.
  intros E. destruct (Hmatch []) as [_ H]. rewrite E in H.
  apply H; [reflexivity|]. now apply consuming_nil.
Qed.

Lemma old_prefix_matches (u s3 : text) (l : text) :
  u = old ++ l -> (u <> [] -> rmatch r (u ++ s3) = None) -> False.
Proof.
  intros -> H. pose proof old_not_nil as Hn.
  assert (E : rmatch r ((old ++ l) ++ s3) = None).
  { apply H. destruct old; easy. }
  revert E. apply Hmatch. rewrite <- app_assoc. apply starts_with_app.
Qed.

(** After the rule has run, no [old] is left anywhere in the text. *)
Theorem replaced_clean :
  no_overlap old new = true ->
  forall s a b, scan r t s 0 = a ++ b -> rmatch r b = None.
Proof.
  unfold no_overlap. intros Hno.
  repeat (apply andb_prop in Hno as [Hno ?]).
  rename Hno into C1, H1 into C2, H0 into C3, H into C4.
  apply negb_true_iff in C1, C2, C3, C4.
  intros s a b Hab.
  destruct (rmatch r b) as [[rest0 g0]|] eqn:Eb; [exfalso|reflexivity].
  assert (Hb : starts_with old b = true) by (apply Hmatch; now rewrite Eb).
  apply starts_with_split in Hb. remember (skipn (length old) b) as b' eqn:Hb'.
  clear Hb' Eb.
  destruct (@scan_tails r t Hcons _ _ _ Hab)
    as [[s2 Hs2]|[m [rest [g [x [y [Hm [Eg [Ex [Hx [Hy Hs2]]]]]]]]]]].
  - destruct (@scan_copied r t Hcons s2) as [u [s3 [Es2 [Hscan [Hu Hs3]]]]].
    rewrite Es2 in Hu.
    rewrite Hs2, Hscan in Hb.
    destruct Hs3 as [->|Hs3].
    + simpl in Hb. rewrite (consuming_nil Hcons), app_nil_r in Hb.
      apply (@old_prefix_matches u [] b'); auto.
    + destruct (rmatch r s3) as [[rest3 g3]|] eqn:E3; [|easy].
      assert (Hs3' : s3 <> []).
      { intros ->. now rewrite (consuming_nil Hcons) in E3. }
      pose proof (@scan_step r t s3 Hcons Hs3') as Hstep. rewrite E3 in Hstep.
      destruct Hstep as [m3 [_ [_ Hsc3]]].
      rewrite Hsc3, (Hexp _ E3) in Hb.
      symmetry in Hb. apply app_eq_app in Hb as [l [[H1 H2]|[H1 H2]]].
      * destruct l as [|c l].
        { rewrite app_nil_r in H1.
          apply (@old_prefix_matches u s3 []); auto. now rewrite app_nil_r. }
        apply app_eq_app in H2 as [l2 [[H3 H4]|[H3 H4]]].
        -- (* an end of [old] starts [new] *)
           assert (Hp : starts_with (c :: l) new = true).
           { rewrite H3. apply starts_with_app. }
           destruct u as [|c0 u].
           ++ simpl in H1. pose proof (occurs_intro (c :: l) [] l2) as Ho.
              change ([] ++ (c :: l) ++ l2) with ((c :: l) ++ l2) in Ho.
              rewrite <- H3, <- H1 in Ho. congruence.
           ++ rewrite H1 in C4.
              rewrite (@suffix_prefix_intro (c0 :: u) (c :: l) new) in C4;
                easy.
        -- (* [new] lies inside [old] *)
           rewrite H3 in H1. rewrite H1 in C2.
           now rewrite occurs_intro in C2.
      * apply (@old_prefix_matches u s3 l); auto.
  - rewrite (Hexp _ Eg) in Ex. rewrite Hs2 in Hb.
    symmetry in Hb. apply app_eq_app in Hb as [l [[H1 H2]|[H1 H2]]].
    + (* an end of [new] starts [old] *)
      assert (Hp : starts_with y old = true).
      { rewrite H1. apply starts_with_app. }
      rewrite Ex in C3.
      now rewrite (@suffix_prefix_intro x y old Hx Hy Hp) in C3.
    + (* [old] lies inside [new] *)
      rewrite Ex, H1 in C1. now rewrite occurs_intro in C1.
Qed.

End Clean.

(** *** Membership in the list of matches *)

Lemma in_run_cat (a b : regex) (s : text) (g : captures) (x : text * captures) :
  In x (run (RCat a b) s g) <->
  exists s1 g1, In (s1, g1) (run a s g) /\ In x (run b s1 g1).
Proof.
  cbn [run]. rewrite in_flat_map. split.
  - intros [[s1 g1] [H1 H2]]. now exists s1, g1.
  - intros [s1 [g1 [H1 H2]]]. now exists (s1, g1).
Qed.

Lemma in_run_lit (p s : text) (g : captures) (s' : text) (g' : captures) :
  In (s', g') (run (lit p) s g) <-> s = p ++ s' /\ g' = g.
Proof.
  rewrite run_lit. destruct (starts_with p s) eqn:E.
  - apply starts_with_split in E. split.
    + intros [H|[]]. inversion H; subst. now split.
    + intros [H ->]. left. f_equal. rewrite H. apply skipn_app_exact.
  - split; [easy|]. intros [H _]. subst s. now rewrite starts_with_app in E.
Qed.

Lemma in_run_alts (a : text) (l : list text) (s : text) (g : captures)
      (s' : text) (g' : captures) :
  In (s', g') (run (alts a l) s g) <->
  exists m, In m (a :: l) /\ s = m ++ s' /\ g' = g.
Proof.
  revert a. induction l as [|b l IH]; intros a.
  - cbn [alts]. rewrite in_run_lit. split.
    + intros [H1 H2]. exists a. simpl; auto.
    + intros [m [[<-|[]] H]]. exact H.
  - cbn [alts run]. rewrite in_app_iff, in_run_lit, IH. split.
    + intros [[H1 H2]|[m [Hm H]]].
      * exists a. simpl; auto.
      * exists m. split; [now right|exact H].
    + intros [m [[<-|Hm] H]]; [now left|right; now exists m].
Qed.

Lemma in_run_grp (i : nat) (a : regex) (s : text) (g : captures)
      (s' : text) (g' : captures) :
  In (s', g') (run (RGrp i a) s g) <->
  exists m g1, s = m ++ s' /\ In (s', g1) (run a s g) /\ g' = (i, m) :: g1.
Proof.
  cbn [run]. rewrite in_map_iff. split.
  - intros [[s1 g1] [E H]]. cbn [fst snd] in E. inversion E; subst.
    destruct (run_suffix _ _ _ _ _ H) as [m ->].
    exists m, g1. repeat split; auto.
    rewrite length_app.
    replace (length m + length s' - length s') with (length m) by lia.
    now rewrite firstn_app_exact.
  - intros [m [g1 [-> [H ->]]]]. exists (s', g1). split; auto.
    cbn [fst snd]. rewrite length_app.
    replace (length m + length s' - length s') with (length m) by lia.
    now rewrite firstn_app_exact.
Qed.

Lemma rmatch_in (r : regex) (s rest : text) (g : captures) :
  rmatch r s = Some (rest, g) -> In (rest, g) (run r s []).
Proof.
  unfold rmatch. destruct (run r s []) as [|x l]; [easy|].
  simpl. intros H. inversion H. now left.
Qed.

Lemma in_rmatch (r : regex) (s : text) (x : text * captures) :
  In x (run r s []) -> rmatch r s <> None.
Proof. unfold rmatch. destruct (run r s []); easy. Qed.

Lemma expand_tlit (s : text) (g : captures) : expand (tlit s) g = s.
Proof.
  unfold expand, tlit. induction s as [|c s IH]; simpl; [reflexivity|].
  now rewrite IH.
Qed.

Lemma expand_app (t1 t2 : template) (g : captures) :
  expand (t1 ++ t2) g = expand t1 g ++ expand t2 g.
Proof. unfold expand. apply flat_map_app. Qed.

End RegexFacts.

(** ** The program *)

Module Clone.
Import Regex.

Definition dquote : ascii := ascii_of_nat 34.
Definition dot : ascii := "."%char.
Definition slash : ascii := "/"%char.

(** [OFFICIAL_MODULES], in the order of the source's alternation. *)
Definition OFFICIAL_MODULES : list text :=
  map txt
    [ "aborthooks"; "adscreation"; "anr"; "audioRecording"; "breakpad";
      "calling"; "fieldstats"; "filter"; "infra"; "jid"; "media";
      "messagetranslation"; "nativelibloader"; "protocol"; "pytorch";
      "stickers"; "superpack"; "unity"; "util"; "voipcalling"; "wamsys";
      "executorch"; "gwpasan"; "voicetranscription"; "AppShell";
      "GifHelper"; "Mp4Ops"; "NativeMediaHandler"; "SmbAppShell";
      "SqliteShell"; "StickyHeadersRecyclerView"; "VideoFrameConverter";
      "ohai"; "WaOhaiClient"; "productinfra"; "music"; "api";
      "MusicApi" ]%string.

Definition official_modules_rx : regex :=
  match OFFICIAL_MODULES with
  | [] => REps
  | a :: l => alts a l
  end.

(** [WhatsAppCloneConfig].  An empty [custom_search_pattern] is Python's
    falsy default. *)
Record WhatsAppCloneConfig : Type := mkConfig {
  root_folder : string;
  current_folder_name : text;
  new_package_name : text;
  new_folder_name : text;
  new_package_name_path : text;
  custom_search_pattern : text;
  max_workers : nat
}.

(** ["Business" in self.config.current_folder_name] *)
Definition is_business (cfg : WhatsAppCloneConfig) : bool :=
  occurs (txt "Business") (current_folder_name cfg).

(** [bool(self.config.custom_search_pattern)] *)
Definition has_custom (cfg : WhatsAppCloneConfig) : bool :=
  match custom_search_pattern cfg with
  | [] => false
  | _ :: _ => true
  end.

(** [re.escape(token).replace('\\.', '(' + d + ')')], compiled: every dot of
    the token becomes a capturing group for the one character [d], the
    groups numbered from [n] on, every other character matches itself.
    ([re.escape] writes a dot as backslash-dot and produces that pair
    nowhere else, so the string replacement hits exactly the dots.) *)
Fixpoint custom_rx (d : regex) (n : nat) (token : text) : regex :=
  match token with
  | [] => REps
  | c :: token' =>
      if Ascii.eqb c dot
      then RCat (RGrp n d) (custom_rx d (S n) token')
      else RCat (RChr c) (custom_rx d n token')
  end.

(** [com(/)whatsapp] and [com(\.)whatsapp], with the optional or mandatory
    or forbidden [w4b] segment the source appends. *)
Definition com_whatsapp (d : ascii) (tail : regex) : regex :=
  RCat (lit (txt "com")) (RCat (RGrp 1 (RChr d)) (RCat (lit (txt "whatsapp")) tail)).

Definition w4b (d : ascii) : text := d :: txt "w4b".

(** [(\.)<name>(\.)(OFFICIAL_MODULES)], the first and second group
    matching [d1] and [d2]. *)
Definition official_rx (d1 : regex) (name : text) (d2 : regex) : regex :=
  RCat (RGrp 1 d1) (RCat (lit name) (RCat (RGrp 2 d2) (RGrp 3 official_modules_rx))).

Definition dot_or_slash : regex := RAlt (RChr dot) (RChr slash).

Record SmaliProcessor : Type := mkSmali {
  smali_config : WhatsAppCloneConfig;
  package_pattern1 : regex;
  package_pattern2 : regex;
  official_package_pattern : regex;
  official_packageP_pattern : regex
}.

(** [SmaliProcessor.__init__] *)
Definition SmaliProcessor_init (cfg : WhatsAppCloneConfig) : SmaliProcessor :=
  let p12 :=
    if has_custom cfg then
      (custom_rx (RChr slash) 1 (custom_search_pattern cfg),
       custom_rx (RChr dot) 1 (custom_search_pattern cfg))
    else if is_business cfg then
      (com_whatsapp slash (ROpt (RGrp 2 (lit (w4b slash)))),
       com_whatsapp dot (ROpt (RGrp 2 (lit (w4b dot)))))
    else
      (com_whatsapp slash REps, com_whatsapp dot REps) in
  {| smali_config := cfg;
     package_pattern1 := fst p12;
     package_pattern2 := snd p12;
     official_package_pattern :=
       official_rx (RChr dot) (new_package_name cfg) (RChr dot);
     official_packageP_pattern :=
       official_rx dot_or_slash (new_package_name_path cfg) dot_or_slash |}.

(** The f-string [f'com\\1{name}']: the name is taken literally, which is
    how [re] reads it when it holds no backslash and does not start with
    a digit (see [plain_name]). *)
Definition com_ref1 (name : text) : template :=
  tlit (txt "com") ++ TRef 1 :: tlit name.

(** [r'\1whatsapp.w4b\2\3'] and its siblings. *)
Definition restore (ns : text) : template :=
  TRef 1 :: tlit ns ++ [TRef 2; TRef 3].

Definition bind {A B : Type} (x : option A) (f : A -> option B) : option B :=
  match x with
  | Some a => f a
  | None => None
  end.

Notation "x <- e ;; k" := (bind e (fun x => k))
  (at level 61, e at next level, right associativity).

(** The rewriting of [SmaliProcessor.process_file], from the text read to
    the text written; [None] when a substitution raises. *)
Definition smali_main (p : SmaliProcessor) (content : text) : option text :=
  let cfg := smali_config p in
  if is_business cfg then
    let explicit_w4b_pattern1 := com_whatsapp slash (RGrp 2 (lit (w4b slash))) in
    let explicit_w4b_pattern2 := com_whatsapp dot (RGrp 2 (lit (w4b dot))) in
    content <- sub explicit_w4b_pattern1 (com_ref1 (new_package_name_path cfg)) content ;;
    content <- sub explicit_w4b_pattern2 (com_ref1 (new_package_name cfg)) content ;;
    let core_wa_pattern1 := com_whatsapp slash (RNot (lit (w4b slash))) in
    let core_wa_pattern2 := com_whatsapp dot (RNot (lit (w4b dot))) in
    content <- sub core_wa_pattern1 (com_ref1 (txt "whatsapp")) content ;;
    sub core_wa_pattern2 (com_ref1 (txt "whatsapp")) content
  else
    content <- sub (package_pattern1 p) (com_ref1 (new_package_name_path cfg)) content ;;
    sub (package_pattern2 p) (com_ref1 (new_package_name cfg)) content.

Definition smali_official (p : SmaliProcessor) (content : text) : option text :=
  if is_business (smali_config p) then
    content <- sub (official_package_pattern p) (restore (txt "whatsapp.w4b")) content ;;
    sub (official_packageP_pattern p) (restore (txt "whatsapp/w4b")) content
  else
    content <- sub (official_package_pattern p) (restore (txt "whatsapp")) content ;;
    sub (official_packageP_pattern p) (restore (txt "whatsapp")) content.

Definition smali_rewrite (p : SmaliProcessor) (content : text) : option text :=
  content <- smali_main p content ;;
  smali_official p content.

Record XmlProcessor : Type := mkXml {
  xml_config : WhatsAppCloneConfig;
  package_pattern : regex;
  sticker_pattern : regex;
  folder_pattern : regex;
  xml_official_package_pattern : regex
}.

Definition android_name : text := txt "android:name=" ++ [dquote].
Definition sticker_read : text := txt ".sticker.READ" ++ [dquote].

(** [XmlProcessor.__init__] *)
Definition XmlProcessor_init (cfg : WhatsAppCloneConfig) : XmlProcessor :=
  let pkg :=
    if has_custom cfg then lit (custom_search_pattern cfg)
    else if is_business cfg then
      RCat (lit (txt "com.whatsapp")) (ROpt (RGrp 1 (lit (w4b dot))))
    else lit (txt "com.whatsapp") in
  {| xml_config := cfg;
     package_pattern := pkg;
     sticker_pattern := RCat (lit android_name) (RCat pkg (lit sticker_read));
     folder_pattern := lit (current_folder_name cfg);
     xml_official_package_pattern :=
       official_rx (RChr dot) (new_package_name cfg) (RChr dot) |}.

Definition xml_official (p : XmlProcessor) (content : text) : option text :=
  if is_business (xml_config p) then
    sub (xml_official_package_pattern p) (restore (txt "whatsapp.w4b")) content
  else
    sub (xml_official_package_pattern p) (restore (txt "whatsapp")) content.

(** The rewriting of [XmlProcessor.process_file].  The package and folder
    names are copied into the replacements as they are, which is how [re]
    reads them when they hold no backslash (see [plain_name]). *)
Definition xml_rewrite (p : XmlProcessor) (content : text) : option text :=
  let cfg := xml_config p in
  content <- sub (package_pattern p) (tlit (txt "com." ++ new_package_name cfg)) content ;;
  content <- sub (sticker_pattern p)
               (tlit (android_name ++ txt "com." ++ new_package_name cfg ++ sticker_read))
               content ;;
  content <- sub (folder_pattern p) (tlit (new_folder_name cfg)) content ;;
  xml_official p content.

End Clone.

(** ** Reference behaviour used in the statements *)

Module Reference.

(** Python's [str.replace(old, new)] for a non-empty [old]: leftmost
    occurrences, not overlapping. *)
Fixpoint replace_scan (old new s : text) (skip : nat) : text :=
  match s with
  | [] => []
  | c :: s' =>
      match skip with
      | S k => replace_scan old new s' k
      | O =>
          if starts_with old s
          then new ++ replace_scan old new s' (length old - 1)
          else c :: replace_scan old new s' 0
      end
  end.

Definition str_replace (old new s : text) : text := replace_scan old new s 0.

(** Names that [re] reads literally inside a replacement template: no
    backslash, and no leading digit (which would extend the [\1] written
    in front of the name). *)
Definition is_digit (c : ascii) : bool :=
  let n := nat_of_ascii c in Nat.leb 48 n && Nat.leb n 57.

Definition plain_name (s : text) : bool :=
  negb (existsb (Ascii.eqb (ascii_of_nat 92)) s) &&
  match s with
  | [] => true
  | c :: _ => negb (is_digit c)
  end.

End Reference.

(** ** Facts about the patterns of the two processors *)

Module CloneFacts.
Import Regex RegexFacts Clone Reference.

Lemma starts_with_cat (a b s : text) :
  starts_with (a ++ b) s = starts_with a s && starts_with b (skipn (length a) s).
Proof.
  revert s; induction a as [|x a IH]; intros s; simpl; [reflexivity|].
  destruct s as [|y s]; simpl; [reflexivity|].
  rewrite IH. now rewrite andb_assoc.
Qed.

Lemma skipn_skipn (A : Type) (n m : nat) (l : list A) :
  skipn n (skipn m l) = skipn (m + n) l.
Proof.
  revert l; induction m as [|m IH]; intros l; simpl; [reflexivity|].
  destruct l; simpl; [now destruct n|]. apply IH.
Qed.

Lemma run_cat (a b : regex) (s : text) (g : captures) :
  run (RCat a b) s g = flat_map (fun st => run b (fst st) (snd st)) (run a s g).
Proof. reflexivity. Qed.

Lemma run_not (a : regex) (s : text) (g : captures) :
  run (RNot a) s g = match run a s g with [] => [(s, g)] | _ :: _ => [] end.
Proof. reflexivity. Qed.

Lemma run_opt (a : regex) (s : text) (g : captures) :
  run (ROpt a) s g = run a s g ++ [(s, g)].
Proof. reflexivity. Qed.

Lemma run_cat_lit (p : text) (b : regex) (s : text) (g : captures) :
  run (RCat (lit p) b) s g =
  if starts_with p s then run b (skipn (length p) s) g else [].
Proof.
  cbn [run]. rewrite run_lit. destruct (starts_with p s); simpl; [|reflexivity].
  apply app_nil_r.
Qed.

Lemma run_grp_chr (i : nat) (d : ascii) (s : text) (g : captures) :
  run (RGrp i (RChr d)) s g =
  if starts_with [d] s then [(skipn 1 s, (i, [d]) :: g)] else [].
Proof.
  destruct s as [|x s]; [reflexivity|].
  cbn [run starts_with]. rewrite (Ascii.eqb_sym d x), andb_true_r.
  destruct (Ascii.eqb x d) eqn:E; [|reflexivity].
  apply Ascii.eqb_eq in E. subst x. cbn [map fst snd skipn].
  replace (length (d :: s) - length s) with 1 by (cbn [length]; lia).
  reflexivity.
Qed.

Lemma run_grp_lit (i : nat) (p s : text) (g : captures) :
  run (RGrp i (lit p)) s g =
  if starts_with p s then [(skipn (length p) s, (i, p) :: g)] else [].
Proof.
  cbn [run]. rewrite run_lit.
  destruct (starts_with p s) eqn:E; [|reflexivity].
  cbn [map fst snd].
  assert (H : firstn (length s - length (skipn (length p) s)) s = p).
  { apply starts_with_split in E.
    remember (skipn (length p) s) as q eqn:Hq. clear Hq.
    rewrite E, length_app.
    replace (length p + length q - length q) with (length p) by lia.
    apply firstn_app_exact. }
  now rewrite H.
Qed.

Definition com_d_whatsapp (d : ascii) : text := txt "com" ++ d :: txt "whatsapp".

Lemma run_com_whatsapp (d : ascii) (tail : regex) (s : text) (g : captures) :
  run (com_whatsapp d tail) s g =
  if starts_with (com_d_whatsapp d) s
  then run tail (skipn 12 s) ((1, [d]) :: g)
  else [].
Proof.
  unfold com_whatsapp, com_d_whatsapp.
  rewrite run_cat_lit.
  change (txt "com" ++ d :: txt "whatsapp")
    with (txt "com" ++ [d] ++ txt "whatsapp").
  rewrite !starts_with_cat.
  destruct (starts_with (txt "com") s); cbn [andb]; [|reflexivity].
  rewrite run_cat, run_grp_chr.
  destruct (starts_with [d] (skipn (length (txt "com")) s)); cbn [andb];
    [|reflexivity].
  cbn [flat_map fst snd]. rewrite app_nil_r.
  change (skipn 1 (skipn (length (txt "com")) s))
    with (skipn (length [d]) (skipn (length (txt "com")) s)).
  rewrite run_cat_lit.
  destruct (starts_with (txt "whatsapp") _); [|reflexivity].
  rewrite !skipn_skipn. reflexivity.
Qed.

Lemma sub_some (r : regex) (t : template) (s : text) :
  template_ok r t = true -> sub r t s = Some (scan r t s 0).
Proof. unfold sub. now intros ->. Qed.

Lemma template_ok_tlit (r : regex) (s : text) : template_ok r (tlit s) = true.
Proof. unfold template_ok, tlit. induction s; simpl; auto. Qed.

Lemma template_ok_com_ref1 (r : regex) (name : text) :
  template_ok r (com_ref1 name) = Nat.leb 1 (groups r).
Proof.
  unfold template_ok, com_ref1. rewrite forallb_app. simpl forallb at 1.
  cbn [forallb item_ok]. fold (template_ok r (tlit name)).
  rewrite template_ok_tlit. now rewrite andb_true_r.
Qed.

Lemma expand_com_ref1 (name : text) (g : captures) :
  expand (com_ref1 name) g =
  txt "com" ++ match group 1 g with Some v => v | None => [] end ++ name.
Proof.
  unfold com_ref1. rewrite expand_app, expand_tlit.
  change (TRef 1 :: tlit name) with ([TRef 1] ++ tlit name).
  rewrite expand_app, expand_tlit. f_equal. f_equal.
  unfold expand. simpl. apply app_nil_r.
Qed.

(** A rule whose pattern matches exactly the texts starting with [old] and
    whose template then expands to [new] is [str.replace(old, new)]. *)
Lemma scan_is_replace (r : regex) (t : template) (old new : text) :
  old <> [] ->
  (forall s, starts_with old s = false -> rmatch r s = None) ->
  (forall rest, exists g, rmatch r (old ++ rest) = Some (rest, g) /\ expand t g = new) ->
  forall s k, scan r t s k = replace_scan old new s k.
Proof.
  intros Hold Hno Hyes.
  assert (Hnil : rmatch r [] = None).
  { apply Hno. destruct old; [easy|reflexivity]. }
  induction s as [|c s IH]; intros k.
  - simpl. now rewrite Hnil.
  - destruct k as [|k]; [|simpl; apply IH].
    cbn [scan replace_scan].
    destruct (starts_with old (c :: s)) eqn:E.
    + apply starts_with_split in E.
      destruct (Hyes (skipn (length old) (c :: s))) as [g [Hg Hx]].
      rewrite <- E in Hg. rewrite Hg, Hx. f_equal.
      assert (Hl : length (c :: s) - length (skipn (length old) (c :: s)) =
                   S (length old - 1)).
      { pose proof (f_equal (@length _) E) as Hl. rewrite length_app in Hl.
        destruct old; [easy|]. cbn [length] in *. lia. }
      rewrite Hl. apply IH.
    + rewrite (Hno _ E). f_equal. apply IH.
Qed.

Definition com_d_w4b (d : ascii) : text := com_d_whatsapp d ++ w4b d.

Lemma explicit_w4b_replace (d : ascii) (name s : text) :
  sub (com_whatsapp d (RGrp 2 (lit (w4b d)))) (com_ref1 name) s =
  Some (str_replace (com_d_w4b d) (txt "com" ++ d :: name) s).
Proof.
  unfold sub. rewrite template_ok_com_ref1. simpl Nat.leb. cbv iota.
  f_equal. unfold str_replace.
  apply scan_is_replace.
  - discriminate.
  - intros s0 H. unfold rmatch. rewrite run_com_whatsapp, run_grp_lit.
    unfold com_d_w4b in H. rewrite starts_with_cat in H.
    change (length (com_d_whatsapp d)) with 12 in H.
    destruct (starts_with (com_d_whatsapp d) s0); [|reflexivity].
    cbn [andb] in H. now rewrite H.
  - intros rest. unfold rmatch. rewrite run_com_whatsapp, run_grp_lit.
    unfold com_d_w4b. rewrite <- app_assoc.
    rewrite starts_with_app.
    change 12 with (length (com_d_whatsapp d)).
    rewrite skipn_app_exact, starts_with_app.
    change (length (w4b d)) with 4.
    eexists. split; [reflexivity|].
    rewrite expand_com_ref1. reflexivity.
Qed.

(** The second pass of the Business branch writes back what it matched. *)
Lemma core_wa_identity (d : ascii) (s : text) :
  sub (com_whatsapp d (RNot (lit (w4b d)))) (com_ref1 (txt "whatsapp")) s = Some s.
Proof.
  unfold sub. rewrite template_ok_com_ref1. simpl Nat.leb. cbv iota.
  f_equal. apply scan_self.
  intros m rest g H. unfold rmatch in H.
  rewrite run_com_whatsapp in H.
  destruct (starts_with (com_d_whatsapp d) (m ++ rest)) eqn:E; [|easy].
  apply starts_with_split in E.
  change (length (com_d_whatsapp d)) with 12 in E.
  remember (skipn 12 (m ++ rest)) as q eqn:Hq. clear Hq.
  rewrite run_not, run_lit in H.
  destruct (starts_with (w4b d) q); [easy|].
  cbn [hd_error] in H. injection H as H1 H2. subst g q.
  apply app_inv_tail in E. subst m. split; [discriminate|].
  rewrite expand_com_ref1. reflexivity.
Qed.

(** *** The protected-module rule *)

Definition accepts (ds : list ascii) (x : ascii) : bool := existsb (Ascii.eqb x) ds.

(** [D] matches exactly one character, one of [ds], and captures nothing. *)
Definition delim_rx (D : regex) (ds : list ascii) : Prop :=
  forall s g s' g',
    In (s', g') (run D s g) <-> exists x, accepts ds x = true /\ s = x :: s' /\ g' = g.

Lemma delim_rx_dot : delim_rx (RChr dot) [dot].
Proof.
  intros s g s' g'. cbn [run]. destruct s as [|x s].
  - split; [easy|]. now intros [x [_ [H _]]].
  - unfold accepts. cbn [existsb]. destruct (Ascii.eqb x dot) eqn:E.
    + split.
      * intros [H|[]]. inversion H; subst. exists x. now rewrite E.
      * intros [y [_ [H ->]]]. inversion H; subst. now left.
    + split; [easy|]. intros [y [Hy [H _]]]. inversion H; subst.
      now rewrite E in Hy.
Qed.

Lemma delim_rx_dot_or_slash : delim_rx dot_or_slash [dot; slash].
Proof.
  intros s g s' g'. unfold dot_or_slash. cbn [run]. destruct s as [|x s].
  - split; [easy|]. now intros [x [_ [H _]]].
  - unfold accepts. cbn [existsb]. rewrite in_app_iff.
    destruct (Ascii.eqb x dot) eqn:E1; destruct (Ascii.eqb x slash) eqn:E2;
      cbn [orb].
    + apply Ascii.eqb_eq in E1, E2. subst x. discriminate.
    + split.
      * intros [[H|[]]|[]]. inversion H; subst. exists x. now rewrite E1.
      * intros [y [_ [H ->]]]. inversion H; subst. left. now left.
    + split.
      * intros [[]|[H|[]]]. inversion H; subst. exists x. now rewrite E1, E2.
      * intros [y [_ [H ->]]]. inversion H; subst. right. now left.
    + split; [now intros [[]|[]]|]. intros [y [Hy [H _]]]. inversion H; subst.
      now rewrite E1, E2 in Hy.
Qed.

Lemma in_run_modules (s : text) (g : captures) (s' : text) (g' : captures) :
  In (s', g') (run official_modules_rx s g) <->
  exists m, In m OFFICIAL_MODULES /\ s = m ++ s' /\ g' = g.
Proof.
  assert (E : exists a l, OFFICIAL_MODULES = a :: l /\ official_modules_rx = alts a l)
    by (do 2 eexists; split; reflexivity).
  destruct E as [a [l [E1 E2]]]. rewrite E1, E2. apply in_run_alts.
Qed.

Lemma expand_restore (ns : text) (d1 d2 : ascii) (m : text) (g : captures) :
  expand (restore ns) ((3, m) :: (2, [d2]) :: (1, [d1]) :: g) = d1 :: ns ++ d2 :: m.
Proof.
  unfold restore.
  change (TRef 1 :: tlit ns ++ [TRef 2; TRef 3])
    with ([TRef 1] ++ tlit ns ++ [TRef 2; TRef 3]).
  rewrite !expand_app, expand_tlit. unfold expand. simpl.
  now rewrite app_nil_r.
Qed.

Lemma template_ok_restore (D1 D2 : regex) (name ns : text) :
  template_ok (official_rx D1 name D2) (restore ns) = true.
Proof.
  unfold template_ok, restore.
  assert (H : 3 <= groups (official_rx D1 name D2)) by (simpl; lia).
  cbn [forallb item_ok]. rewrite forallb_app.
  fold (template_ok (official_rx D1 name D2) (tlit ns)).
  rewrite template_ok_tlit. cbn [forallb item_ok].
  repeat rewrite (proj2 (Nat.leb_le _ _)) by lia. reflexivity.
Qed.

(** Texts without any of the delimiters [ds]. *)
Definition free (ds : list ascii) (w : text) : bool :=
  forallb (fun c => negb (accepts ds c)) w.

Lemma free_no_delim (ds : list ascii) (u v : text) (d : ascii) :
  accepts ds d = true -> free ds (u ++ d :: v) = false.
Proof.
  intros H. unfold free. rewrite forallb_app. cbn [forallb]. rewrite H.
  cbn [negb andb]. apply andb_false_r.
Qed.

Lemma prefix_cases (u v x y : text) :
  u ++ x = v ++ y -> starts_with u v = true \/ starts_with v u = true.
Proof.
  intros H. apply app_eq_app in H as [l [[H _]|[H _]]]; subst.
  - right. apply starts_with_app.
  - left. apply starts_with_app.
Qed.

Lemma free_prefix (ds : list ascii) (m z w v : text) (d : ascii) :
  free ds m = true -> accepts ds d = true ->
  m ++ z = w ++ d :: v -> starts_with m w = true.
Proof.
  intros Hm Hd H. apply app_eq_app in H as [l [[H1 H2]|[H1 H2]]].
  - destruct l as [|c l].
    + rewrite app_nil_r in H1. subst m.
      rewrite <- (app_nil_r w) at 2. apply starts_with_app.
    + inversion H2; subst c. subst m. now rewrite free_no_delim in Hm.
  - subst w. apply starts_with_app.
Qed.

Lemma delimiter_unique (ds : list ascii) (u v : text) (d2 : ascii) :
  free ds u = true -> free ds v = true ->
  forall x y d, accepts ds d = true ->
    x ++ d :: y = u ++ d2 :: v -> x = u /\ d = d2 /\ y = v.
Proof.
  intros Hu Hv. induction u as [|c u IH]; intros x y d Hd H.
  - destruct x as [|c' x]; simpl in H.
    + inversion H. auto.
    + inversion H; subst. now rewrite free_no_delim in Hv.
  - destruct x as [|c' x]; simpl in H.
    + inversion H; subst. simpl in Hu. now rewrite Hd in Hu.
    + inversion H; subst. simpl in Hu. apply andb_prop in Hu as [_ Hu].
      destruct (IH Hu x y d Hd H2) as [-> [-> ->]]. auto.
Qed.

Section Restore.
Variables (D : regex) (ds : list ascii) (name ns : text).
Hypothesis HD : delim_rx D ds.

Let R : regex := official_rx D name D.
Let t : template := restore ns.

Lemma in_run_official (s : text) (g0 : captures) (rest : text) (g : captures) :
  In (rest, g) (run R s g0) <->
  exists d1 d2 m,
    accepts ds d1 = true /\ accepts ds d2 = true /\ In m OFFICIAL_MODULES /\
    s = d1 :: name ++ d2 :: m ++ rest /\
    g = (3, m) :: (2, [d2]) :: (1, [d1]) :: g0.
Proof.
  unfold R, official_rx. rewrite in_run_cat. split.
  - intros [s1 [g1 [H1 H2]]].
    apply in_run_grp in H1 as [m1 [g1' [E1 [H1 ->]]]].
    apply HD in H1 as [d1 [Hd1 [E1' ->]]].
    apply in_run_cat in H2 as [s2 [g2 [H2 H3]]].
    apply in_run_lit in H2 as [E2 ->].
    apply in_run_cat in H3 as [s3 [g3 [H3 H4]]].
    apply in_run_grp in H3 as [m3 [g3' [E3 [H3 ->]]]].
    apply HD in H3 as [d2 [Hd2 [E3' ->]]].
    apply in_run_grp in H4 as [m4 [g4' [E4 [H4 ->]]]].
    apply in_run_modules in H4 as [m [Hm [E4' ->]]].
    assert (m1 = [d1]).
    { rewrite E1' in E1. change (d1 :: s1) with ([d1] ++ s1) in E1.
      now apply app_inv_tail in E1. }
    assert (m3 = [d2]).
    { rewrite E3' in E3. change (d2 :: s3) with ([d2] ++ s3) in E3.
      now apply app_inv_tail in E3. }
    assert (m4 = m).
    { rewrite E4' in E4. now apply app_inv_tail in E4. }
    subst. exists d1, d2, m. repeat split; auto.
  - intros [d1 [d2 [m [Hd1 [Hd2 [Hm [-> ->]]]]]]].
    exists (name ++ d2 :: m ++ rest), ((1, [d1]) :: g0). split.
    + apply in_run_grp. exists [d1], g0. repeat split; auto.
      apply HD. now exists d1.
    + apply in_run_cat. exists (d2 :: m ++ rest), ((1, [d1]) :: g0). split.
      * apply in_run_lit. now split.
      * apply in_run_cat. exists (m ++ rest), ((2, [d2]) :: (1, [d1]) :: g0). split.
        -- apply in_run_grp. exists [d2], ((1, [d1]) :: g0). repeat split; auto.
           apply HD. now exists d2.
        -- apply in_run_grp. exists m, ((2, [d2]) :: (1, [d1]) :: g0).
           repeat split; auto. apply in_run_modules. now exists m.
Qed.

Lemma official_match_inv (s rest : text) (g : captures) :
  rmatch R s = Some (rest, g) ->
  exists d1 d2 m,
    accepts ds d1 = true /\ accepts ds d2 = true /\ In m OFFICIAL_MODULES /\
    s = d1 :: name ++ d2 :: m ++ rest /\
    expand t g = d1 :: ns ++ d2 :: m.
Proof.
  intros H. apply rmatch_in, in_run_official in H
    as [d1 [d2 [m [H1 [H2 [H3 [H4 ->]]]]]]].
  exists d1, d2, m. repeat split; auto. apply expand_restore.
Qed.

Lemma official_match_intro (d1 d2 : ascii) (m rest : text) :
  accepts ds d1 = true -> accepts ds d2 = true -> In m OFFICIAL_MODULES ->
  rmatch R (d1 :: name ++ d2 :: m ++ rest) <> None.
Proof.
  intros H1 H2 H3.
  apply in_rmatch with (x := (rest, (3, m) :: (2, [d2]) :: (1, [d1]) :: [])).
  apply in_run_official. now exists d1, d2, m.
Qed.

Lemma official_consuming : consuming R.
Proof.
  intros s rest g H. apply official_match_inv in H
    as [d1 [d2 [m [_ [_ [_ [-> _]]]]]]].
  simpl. rewrite !length_app. simpl. rewrite length_app. lia.
Qed.

(** The rule copies what holds no delimiter. *)
Lemma scan_copy_free (w : text) :
  free ds w = true ->
  forall s o, scan R t s 0 = w ++ o -> exists s', s = w ++ s' /\ o = scan R t s' 0.
Proof.
  induction w as [|x w IH]; intros Hw s o H.
  - exists s. now split.
  - simpl in Hw. apply andb_prop in Hw as [Hx Hw].
    destruct s as [|c s].
    { simpl in H. now rewrite (consuming_nil official_consuming) in H. }
    pose proof (@scan_step R t (c :: s) official_consuming ltac:(easy)) as Hs.
    destruct (rmatch R (c :: s)) as [[rest g]|] eqn:E.
    + destruct Hs as [m [_ [_ Hscan]]].
      apply official_match_inv in E as [d1 [d2 [m' [Hd1 [_ [_ [_ Hx']]]]]]].
      rewrite Hscan, Hx' in H. simpl in H. inversion H; subst x.
      now rewrite Hd1 in Hx.
    + destruct Hs as [c' [s' [Es Hscan]]]. inversion Es; subst c' s'.
      rewrite Hscan in H. simpl in H. inversion H; subst c.
      destruct (IH Hw s o H2) as [s' [-> ->]]. now exists s'.
Qed.

(** The side conditions under which the rule leaves nothing to restore:
    no delimiter inside the two names or a module name, neither name a
    prefix of the other, and no module name a prefix of either. *)
Definition safe : bool :=
  free ds name && free ds ns && forallb (free ds) OFFICIAL_MODULES &&
  negb (starts_with name ns) && negb (starts_with ns name) &&
  forallb (fun m => negb (starts_with m ns) && negb (starts_with m name))
          OFFICIAL_MODULES.

Theorem restore_clean :
  safe = true ->
  forall s a b, scan R t s 0 = a ++ b -> rmatch R b = None.
Proof.
  unfold safe. intros Hsafe.
  repeat (apply andb_prop in Hsafe as [Hsafe ?]).
  rename Hsafe into Hname, H3 into Hns, H2 into Hmods, H1 into Hpre1,
    H0 into Hpre2, H into Hmpre.
  apply negb_true_iff in Hpre1, Hpre2.
  rewrite forallb_forall in Hmods, Hmpre.
  intros s a b Hab.
  destruct (rmatch R b) as [[rest0 g0]|] eqn:Eb; [exfalso|reflexivity].
  apply official_match_inv in Eb as [d [d' [m' [Hd [Hd' [Hm' [Eb _]]]]]]].
  pose proof (Hmods _ Hm') as Hfree'.
  pose proof (Hmpre _ Hm') as Hm'pre. apply andb_prop in Hm'pre as [Hm'ns _].
  apply negb_true_iff in Hm'ns.
  destruct (@scan_tails R t official_consuming _ _ _ Hab)
    as [[s2 Hb]|[m [rest [g [x [y [Hm [Eg [Ex [Hx [Hy Hb]]]]]]]]]]].
  - (* [b] is the scan of some text [s2] *)
    destruct s2 as [|c s2].
    { simpl in Hb. rewrite (consuming_nil official_consuming) in Hb.
      now rewrite Hb in Eb. }
    pose proof (@scan_step R t (c :: s2) official_consuming ltac:(easy)) as Hs.
    destruct (rmatch R (c :: s2)) as [[rest g]|] eqn:E.
    + destruct Hs as [m [_ [_ Hscan]]].
      apply official_match_inv in E as [d1 [d2 [mm [_ [_ [_ [_ Hx]]]]]]].
      rewrite Hb, Hscan, Hx in Eb. simpl in Eb.
      injection Eb as _ Eb. rewrite <- app_assoc in Eb.
      apply prefix_cases in Eb as [Eb|Eb]; congruence.
    + destruct Hs as [c' [s' [Es Hscan]]]. injection Es as <- <-.
      rewrite Hb, Hscan in Eb. injection Eb as -> Eb.
      destruct (scan_copy_free name Hname _ _ Eb) as [s4 [-> H4]].
      destruct s4 as [|c4 s4].
      { simpl in H4. now rewrite (consuming_nil official_consuming) in H4. }
      pose proof (@scan_step R t (c4 :: s4) official_consuming ltac:(easy)) as Hs4.
      destruct (rmatch R (c4 :: s4)) as [[rest4 g4]|] eqn:E4.
      * destruct Hs4 as [m4 [_ [_ Hscan4]]].
        apply official_match_inv in E4 as [d1 [d2 [mm [_ [Hd2 [_ [_ Hx]]]]]]].
        rewrite Hscan4, Hx in H4. simpl in H4. injection H4 as _ H4.
        rewrite <- app_assoc in H4. simpl in H4.
        apply (@free_prefix ds _ _ _ _ _ Hfree' Hd2) in H4. congruence.
      * destruct Hs4 as [c' [s' [Es4 Hscan4]]]. injection Es4 as <- <-.
        rewrite Hscan4 in H4. injection H4 as <- H4. symmetry in H4.
        destruct (scan_copy_free m' Hfree' _ _ H4) as [s6 [-> _]].
        now apply (@official_match_intro d d' m' s6 Hd Hd' Hm') in E.
  - (* [b] starts inside a replacement *)
    apply official_match_inv in Eg as [d1 [d2 [mm [_ [Hd2 [Hmm [_ Hexp]]]]]]].
    rewrite Hexp in Ex.
    destruct x as [|x0 x]; [easy|]. destruct y as [|y0 y]; [easy|].
    simpl in Ex. injection Ex as _ Ex.
    rewrite Hb in Eb. simpl in Eb. injection Eb as -> Eb.
    symmetry in Ex.
    destruct (@delimiter_unique ds ns mm d2 Hns (Hmods _ Hmm) _ _ _ Hd Ex)
      as [-> [-> ->]].
    apply (@free_prefix ds _ _ _ _ _ (Hmods _ Hmm) Hd') in Eb.
    pose proof (Hmpre _ Hmm) as Hp. apply andb_prop in Hp as [_ Hp].
    apply negb_true_iff in Hp. congruence.
Qed.

End Restore.

(** *** An occurrence in the middle of a text *)

Section InContext.
Variables (D : regex) (ds : list ascii) (name ns : text).
Hypothesis HD : delim_rx D ds.

Let seps : list ascii := [dot; slash].
Hypothesis Hsub : forall c, accepts ds c = true -> accepts seps c = true.
Hypothesis Hsafe : safe seps name ns = true.

Let R : regex := official_rx D name D.
Let t : template := restore ns.

Lemma free_rule (w : text) : free seps w = true -> free ds w = true.
Proof.
  unfold free. rewrite !forallb_forall. intros H c Hc.
  specialize (H c Hc). apply negb_true_iff in H. apply negb_true_iff.
  destruct (accepts ds c) eqn:E; [|reflexivity].
  apply Hsub in E. congruence.
Qed.

Lemma safe_parts :
  free seps name = true /\ free seps ns = true /\
  (forall m, In m OFFICIAL_MODULES -> free seps m = true) /\
  starts_with name ns = false /\ starts_with ns name = false /\
  (forall m, In m OFFICIAL_MODULES ->
             starts_with m ns = false /\ starts_with m name = false).
Proof.
  pose proof Hsafe as H. unfold safe in H.
  apply andb_prop in H as [H Hall]. apply andb_prop in H as [H Hp2].
  apply andb_prop in H as [H Hp1]. apply andb_prop in H as [H Hmods].
  apply andb_prop in H as [Hname Hns].
  apply negb_true_iff in Hp1, Hp2. rewrite forallb_forall in Hmods, Hall.
  repeat split; auto.
  - specialize (Hall m H). apply andb_prop in Hall as [Hall _].
    now apply negb_true_iff in Hall.
  - specialize (Hall m H). apply andb_prop in Hall as [_ Hall].
    now apply negb_true_iff in Hall.
Qed.

Lemma unaccepted_head (c : ascii) (s : text) :
  accepts ds c = false -> rmatch R (c :: s) = None.
Proof.
  intros Hc. destruct (rmatch R (c :: s)) as [[rest g]|] eqn:E; [|reflexivity].
  apply (official_match_inv name ns HD) in E
    as [d1 [d2 [m [Hd1 [_ [_ [E _]]]]]]].
  injection E as -> _. congruence.
Qed.

(** The rule copies a text without delimiters that stands in front. *)
Lemma scan_free_prefix (w s : text) :
  free ds w = true -> scan R t (w ++ s) 0 = w ++ scan R t s 0.
Proof.
  induction w as [|c w IH]; intros Hw; [reflexivity|].
  simpl in Hw. apply andb_prop in Hw as [Hc Hw]. apply negb_true_iff in Hc.
  cbn [app]. rewrite scan_nomatch by now apply unaccepted_head.
  now rewrite IH.
Qed.

(** No match that starts earlier reaches a delimiter after which no
    module name can be read. *)
Lemma no_straddle (w0 : ascii) (w1 : text) :
  accepts seps w0 = true ->
  (forall m z s, In m OFFICIAL_MODULES -> m ++ z <> w1 ++ s) ->
  forall x s rest g,
    x <> [] -> rmatch R (x ++ (w0 :: w1) ++ s) = Some (rest, g) ->
    exists y, rest = y ++ (w0 :: w1) ++ s.
Proof.
  intros Hw0 Hw1 x s rest g Hx E.
  destruct safe_parts as [Hname [_ [Hmods _]]].
  apply (official_match_inv name ns HD) in E
    as [d1 [d2 [m [_ [_ [Hm [E _]]]]]]].
  assert (EM : d1 :: name ++ d2 :: m ++ rest = (d1 :: name ++ d2 :: m) ++ rest).
  { cbn [app]. now rewrite <- app_assoc. }
  rewrite EM in E. clear EM.
  apply app_eq_app in E as [l [[H1 H2]|[H1 H2]]].
  - now exists l.
  - destruct l as [|c l].
    + exists []. cbn [app] in *. congruence.
    + exfalso. cbn [app] in H2. injection H2 as <- H2.
      destruct x as [|d x]; [easy|]. cbn [app] in H1. injection H1 as _ H1.
      symmetry in H1.
      destruct (@delimiter_unique seps name m d2 Hname (Hmods _ Hm) _ _ _ Hw0 H1)
        as [_ [_ ->]].
      symmetry in H2. now apply (Hw1 m rest s Hm).
Qed.

Lemma module_not_before_name (m z s : text) (d : ascii) (u : text) (w : text) :
  In m OFFICIAL_MODULES -> accepts seps d = true ->
  starts_with m w = false -> m ++ z <> (w ++ d :: u) ++ s.
Proof.
  intros Hm Hd Hp E. destruct safe_parts as [_ [_ [Hmods _]]].
  rewrite <- app_assoc in E. cbn [app] in E.
  apply (@free_prefix seps _ _ _ _ _ (Hmods _ Hm) Hd) in E. congruence.
Qed.

Section Occurrence.
Variables (d1 d2 : ascii) (m : text).
Hypothesis Hd1 : accepts seps d1 = true.
Hypothesis Hd2 : accepts seps d2 = true.
Hypothesis Hm : In m OFFICIAL_MODULES.

Let renamed : text := d1 :: name ++ d2 :: m.
Let original : text := d1 :: ns ++ d2 :: m.

(** At the head of a text the rule restores an occurrence whose two
    delimiters it accepts. *)
Lemma restore_at_head (s : text) :
  accepts ds d1 = true -> accepts ds d2 = true ->
  exists s', scan R t (renamed ++ s) 0 = original ++ s'.
Proof.
  intros Ha1 Ha2. destruct safe_parts as [_ [_ [Hmods _]]].
  unfold renamed, original.
  assert (Hne : rmatch R ((d1 :: name ++ d2 :: m) ++ s) <> None).
  { cbn [app]. rewrite <- app_assoc. cbn [app].
    now apply (@official_match_intro D ds name HD d1 d2 m s). }
  pose proof (@scan_step R t ((d1 :: name ++ d2 :: m) ++ s)
                (official_consuming name ns HD) ltac:(easy)) as Hs.
  destruct (rmatch R ((d1 :: name ++ d2 :: m) ++ s)) as [[rest g]|] eqn:E; [|easy].
  destruct Hs as [m0 [_ [_ Hscan]]].
  apply (official_match_inv name ns HD) in E
    as [e1 [e2 [m' [_ [_ [Hm' [E Hexp]]]]]]].
  cbn [app] in E. rewrite <- app_assoc in E. cbn [app] in E.
  injection E as <- E. apply app_inv_head in E. injection E as <- E.
  rewrite Hscan. unfold t at 1. rewrite Hexp.
  apply app_eq_app in E as [l [[H1 H2]|[H1 H2]]].
  - exists (scan R t s 0). rewrite H2.
    assert (Hl : free ds l = true).
    { apply free_rule. pose proof (Hmods _ Hm) as Hf. rewrite H1 in Hf.
      unfold free in Hf. rewrite forallb_app in Hf.
      now apply andb_prop in Hf as [_ Hf]. }
    rewrite (scan_free_prefix _ _ Hl), H1. cbn [app]. f_equal.
    rewrite <- !app_assoc. cbn [app]. now rewrite <- !app_assoc.
  - exists (l ++ scan R t rest 0). rewrite H1. cbn [app]. f_equal.
    rewrite <- !app_assoc. cbn [app]. now rewrite <- !app_assoc.
Qed.

Lemma module_then_name (s : text) : rmatch R (d2 :: m ++ s) = None.
Proof.
  destruct safe_parts as [_ [_ [Hmods [_ [_ Hpre]]]]].
  destruct (rmatch R (d2 :: m ++ s)) as [[rest g]|] eqn:E; [|reflexivity].
  apply (official_match_inv name ns HD) in E
    as [e1 [e2 [m' [_ [He2 [_ [E _]]]]]]].
  injection E as _ E.
  apply (@free_prefix seps _ _ _ _ _ (Hmods _ Hm) (Hsub _ He2)) in E.
  destruct (Hpre _ Hm) as [_ Hp]. congruence.
Qed.

Lemma copy_tail (w s : text) :
  free seps w = true ->
  scan R t (w ++ d2 :: m ++ s) 0 = w ++ d2 :: m ++ scan R t s 0.
Proof.
  intros Hw. destruct safe_parts as [_ [_ [Hmods _]]].
  rewrite (scan_free_prefix _ _ (free_rule _ Hw)).
  rewrite scan_nomatch by apply module_then_name.
  now rewrite (scan_free_prefix _ _ (free_rule _ (Hmods _ Hm))).
Qed.

(** The rule leaves an occurrence alone when it does not accept one of
    its delimiters. *)
Lemma keep_renamed_at_head (s : text) :
  accepts ds d1 && accepts ds d2 = false ->
  exists s', scan R t (renamed ++ s) 0 = renamed ++ s'.
Proof.
  intros Hno. destruct safe_parts as [Hname _].
  unfold renamed. exists (scan R t s 0).
  cbn [app]. rewrite <- app_assoc. cbn [app].
  rewrite scan_nomatch.
  - rewrite (copy_tail _ s Hname). cbn [app]. now rewrite <- !app_assoc.
  - destruct (rmatch R (d1 :: name ++ d2 :: m ++ s)) as [[rest g]|] eqn:E;
      [|reflexivity].
    apply (official_match_inv name ns HD) in E
      as [e1 [e2 [m' [He1 [He2 [_ [E _]]]]]]].
    injection E as <- E. apply app_inv_head in E. injection E as <- _.
    now rewrite He1, He2 in Hno.
Qed.

(** The rule leaves a restored occurrence alone. *)
Lemma keep_original_at_head (s : text) :
  exists s', scan R t (original ++ s) 0 = original ++ s'.
Proof.
  destruct safe_parts as [_ [Hns [_ [Hp1 [Hp2 _]]]]].
  unfold original. exists (scan R t s 0).
  cbn [app]. rewrite <- app_assoc. cbn [app].
  rewrite scan_nomatch.
  - rewrite (copy_tail _ s Hns). cbn [app]. now rewrite <- !app_assoc.
  - destruct (rmatch R (d1 :: ns ++ d2 :: m ++ s)) as [[rest g]|] eqn:E;
      [|reflexivity].
    apply (official_match_inv name ns HD) in E
      as [e1 [e2 [m' [_ [_ [_ [E _]]]]]]].
    injection E as _ E. apply prefix_cases in E as [E|E]; congruence.
Qed.

Lemma renamed_in_context (before s : text) :
  exists before',
    scan R t (before ++ renamed ++ s) 0 = before' ++ scan R t (renamed ++ s) 0.
Proof.
  destruct safe_parts as [_ [_ [_ [_ [_ Hpre]]]]].
  apply scan_in_context; [apply (official_consuming name ns HD)|].
  apply no_straddle; [exact Hd1|].
  intros m' z s' Hm'. apply module_not_before_name; auto.
  now destruct (Hpre _ Hm').
Qed.

Lemma original_in_context (before s : text) :
  exists before',
    scan R t (before ++ original ++ s) 0 = before' ++ scan R t (original ++ s) 0.
Proof.
  destruct safe_parts as [_ [_ [_ [_ [_ Hpre]]]]].
  apply scan_in_context; [apply (official_consuming name ns HD)|].
  apply no_straddle; [exact Hd1|].
  intros m' z s' Hm'. apply module_not_before_name; auto.
  now destruct (Hpre _ Hm').
Qed.

End Occurrence.

End InContext.

End CloneFacts.

(** ** Jobs used as concrete inputs *)

Module Jobs.
Import Clone.

(** A configuration as [setup_from_args] leaves it: the slash form of the
    package name is derived from the dotted one. *)
Definition job (folder package name search : string) : WhatsAppCloneConfig :=
  {| root_folder := "/decompiled";
     current_folder_name := txt folder;
     new_package_name := txt package;
     new_folder_name := txt name;
     new_package_name_path := replace_char dot slash (txt package);
     custom_search_pattern := txt search;
     max_workers := 4 |}.

Definition primary_myapp : WhatsAppCloneConfig := job "WhatsApp" "myapp" "MyApp" "".
Definition business_myapp : WhatsAppCloneConfig :=
  job "WhatsApp Business" "myapp" "MyApp" "".

End Jobs.

(** ** The Business branch of the smali rewrite *)

Module BusinessSmali.
Import Regex RegexFacts Clone Reference CloneFacts Jobs.

(** C1, as the code has it: under the Business label one application of
    the smali rewrite replaces exactly the occurrences of
    [com/whatsapp/w4b] by [com/<path>] and then those of
    [com.whatsapp.w4b] by [com.<package>]; the second pass writes every
    bare [com/whatsapp] or [com.whatsapp] back as it found it, so a bare
    occurrence is never moved to the new namespace.  The protected-module
    rules then run on the result. *)
Theorem business_smali_rewrites_w4b_only (cfg : WhatsAppCloneConfig) (content : text) :
  is_business cfg = true ->
  plain_name (new_package_name cfg) = true ->
  plain_name (new_package_name_path cfg) = true ->
  smali_rewrite (SmaliProcessor_init cfg) content =
  smali_official (SmaliProcessor_init cfg)
    (str_replace (txt "com.whatsapp.w4b") (txt "com." ++ new_package_name cfg)
       (str_replace (txt "com/whatsapp/w4b") (txt "com/" ++ new_package_name_path cfg)
          content)).
Proof.
  intros Hb _ _. unfold smali_rewrite, smali_main.
  cbn [smali_config SmaliProcessor_init]. rewrite Hb.
  rewrite (explicit_w4b_replace slash). cbn [bind].
  rewrite (explicit_w4b_replace dot). cbn [bind].
  rewrite (core_wa_identity slash). cbn [bind].
  rewrite (core_wa_identity dot). cbn [bind].
  reflexivity.
Qed.

Lemma business_smali_rewrites_w4b_only_witness :
  smali_rewrite (SmaliProcessor_init business_myapp) (txt "Lcom/whatsapp/w4b/Main;") =
  smali_official (SmaliProcessor_init business_myapp)
    (str_replace (txt "com.whatsapp.w4b") (txt "com." ++ new_package_name business_myapp)
       (str_replace (txt "com/whatsapp/w4b")
          (txt "com/" ++ new_package_name_path business_myapp)
          (txt "Lcom/whatsapp/w4b/Main;"))).
Proof.
  apply (@business_smali_rewrites_w4b_only business_myapp); reflexivity.
Defined.

(** C1 as stated fails: with the package [myapp] the bare occurrence stays
    [com.whatsapp] and the suffixed one becomes [com.myapp], where the claim
    expects [com.myapp] for the bare one and a suffixed form of the new
    namespace for the other. *)
Lemma business_smali_bare_not_renamed :
  smali_rewrite (SmaliProcessor_init business_myapp)
    (txt "com.whatsapp com.whatsapp.w4b") = Some (txt "com.whatsapp com.myapp") /\
  smali_rewrite (SmaliProcessor_init business_myapp)
    (txt "com.whatsapp com.whatsapp.w4b") <> Some (txt "com.myapp com.myapp.w4b").
Proof. split; [vm_compute; reflexivity | vm_compute; discriminate]. Qed.

End BusinessSmali.

(** ** Protected modules under the Primary label *)

Module ProtectedModules.
Import Regex RegexFacts Clone Reference CloneFacts Jobs.

Definition text_eqb (a b : text) : bool := starts_with a b && starts_with b a.

Lemma text_eqb_eq (a b : text) : text_eqb a b = true -> a = b.
Proof.
  unfold text_eqb. intros H. apply andb_prop in H as [H1 H2].
  apply starts_with_split in H1, H2.
  assert (Hl : length (skipn (length a) b) = 0).
  { pose proof (f_equal (@length _) H1) as L1.
    pose proof (f_equal (@length _) H2) as L2.
    rewrite length_app in L1, L2. lia. }
  apply length_zero_iff_nil in Hl. rewrite Hl, app_nil_r in H1. congruence.
Qed.

Lemma accepts_in (ds : list ascii) (d : ascii) : In d ds -> accepts ds d = true.
Proof.
  intros H. unfold accepts. apply existsb_exists. exists d. split; auto.
  apply Ascii.eqb_refl.
Qed.

(** After the last rule of the Primary branch the text is the output of
    the slash-or-dot restoration rule. *)
Lemma primary_rewrite_is_last_scan (cfg : WhatsAppCloneConfig) (content out : text) :
  is_business cfg = false ->
  smali_rewrite (SmaliProcessor_init cfg) content = Some out ->
  exists x,
    out = scan (official_rx dot_or_slash (new_package_name_path cfg) dot_or_slash)
               (restore (txt "whatsapp")) x 0.
Proof.
  intros Hb. unfold smali_rewrite, smali_official.
  cbn [smali_config SmaliProcessor_init official_package_pattern
       official_packageP_pattern]. rewrite Hb.
  destruct (smali_main _ content) as [c1|]; [|easy]. cbn [bind].
  destruct (sub _ _ c1) as [c2|]; [|easy]. cbn [bind].
  unfold sub. destruct (template_ok _ _); [|easy].
  intros H. injection H as <-. now exists c2.
Qed.

Lemma accepts_dot_sub (c : ascii) :
  accepts [dot] c = true -> accepts [dot; slash] c = true.
Proof. unfold accepts. cbn [existsb]. now destruct (Ascii.eqb c dot). Qed.

(** Under the Primary label, with one name for the package and its path
    (a package without dots), the two protected-module rules together
    restore an occurrence wherever it stands in the text. *)
Lemma official_restores_in_context (cfg : WhatsAppCloneConfig) (name : text) :
  is_business cfg = false ->
  new_package_name cfg = name -> new_package_name_path cfg = name ->
  safe [dot; slash] name (txt "whatsapp") = true ->
  forall before rest d1 d2 m,
    In d1 [dot; slash] -> In d2 [dot; slash] -> In m OFFICIAL_MODULES ->
    exists before' rest',
      smali_official (SmaliProcessor_init cfg)
        (before ++ (d1 :: name ++ d2 :: m) ++ rest) =
      Some (before' ++ (d1 :: txt "whatsapp" ++ d2 :: m) ++ rest').
Proof.
  intros Hb Hpkg Hpath Hsafe before rest d1 d2 m H1 H2 Hm.
  apply accepts_in in H1, H2.
  unfold smali_official.
  cbn [smali_config SmaliProcessor_init official_package_pattern
       official_packageP_pattern]. rewrite Hb, Hpkg, Hpath.
  rewrite sub_some by apply template_ok_restore. cbn [bind].
  rewrite sub_some by apply template_ok_restore.
  set (t := restore (txt "whatsapp")).
  set (R1 := official_rx (RChr dot) name (RChr dot)).
  set (R2 := official_rx dot_or_slash name dot_or_slash).
  destruct (@renamed_in_context (RChr dot) [dot] name (txt "whatsapp")
              delim_rx_dot Hsafe d1 d2 m H1 H2 before rest) as [b1 Hb1].
  fold R1 t in Hb1. rewrite Hb1.
  destruct (accepts [dot] d1 && accepts [dot] d2) eqn:Edots.
  - apply andb_prop in Edots as [E1 E2].
    destruct (@restore_at_head (RChr dot) [dot] name (txt "whatsapp")
                delim_rx_dot accepts_dot_sub Hsafe d1 d2 m Hm rest E1 E2)
      as [s1 Hs1].
    fold R1 t in Hs1. rewrite Hs1.
    destruct (@original_in_context dot_or_slash [dot; slash] name (txt "whatsapp")
                delim_rx_dot_or_slash Hsafe d1 d2 m H1 H2 b1 s1) as [b2 Hb2].
    fold R2 t in Hb2. rewrite Hb2.
    destruct (@keep_original_at_head dot_or_slash [dot; slash] name (txt "whatsapp")
                delim_rx_dot_or_slash (fun c H => H) Hsafe d1 d2 m Hm s1)
      as [s2 Hs2].
    fold R2 t in Hs2. rewrite Hs2. now exists b2, s2.
  - destruct (@keep_renamed_at_head (RChr dot) [dot] name (txt "whatsapp")
                delim_rx_dot accepts_dot_sub Hsafe d1 d2 m Hm rest Edots)
      as [s1 Hs1].
    fold R1 t in Hs1. rewrite Hs1.
    destruct (@renamed_in_context dot_or_slash [dot; slash] name (txt "whatsapp")
                delim_rx_dot_or_slash Hsafe d1 d2 m H1 H2 b1 s1) as [b2 Hb2].
    fold R2 t in Hb2. rewrite Hb2.
    destruct (@restore_at_head dot_or_slash [dot; slash] name (txt "whatsapp")
                delim_rx_dot_or_slash (fun c H => H) Hsafe d1 d2 m Hm s1 H1 H2)
      as [s2 Hs2].
    fold R2 t in Hs2. rewrite Hs2. now exists b2, s2.
Qed.

Definition restored_exactly (p : SmaliProcessor) (name : text) (d1 d2 : ascii)
           (m : text) : bool :=
  match smali_official p (d1 :: name ++ d2 :: m) with
  | Some out => text_eqb out (d1 :: txt "whatsapp" ++ d2 :: m)
  | None => false
  end.

Lemma restored_exactly_all :
  forallb (fun d1 =>
    forallb (fun d2 =>
      forallb (restored_exactly (SmaliProcessor_init primary_myapp) (txt "myapp") d1 d2)
              OFFICIAL_MODULES)
      [dot; slash])
    [dot; slash] = true.
Proof. vm_compute. reflexivity. Qed.

(** C2: for the Primary job with package [myapp], the buffer
    [com/whatsapp/util/Foo] first becomes [com/myapp/util/Foo] and the
    protected-module rules bring it back to [com/whatsapp/util/Foo];
    a text that is just [<delimiter>myapp<delimiter><module>] is restored
    to the original namespace; wherever such an occurrence stands in the
    text handed to the protected-module rules, the original namespace
    stands in the text they return; and the text written for any buffer
    holds no [<delimiter>myapp<delimiter><module>] at all. *)
Theorem protected_module_restored :
  let p := SmaliProcessor_init primary_myapp in
  smali_main p (txt "com/whatsapp/util/Foo") = Some (txt "com/myapp/util/Foo") /\
  smali_rewrite p (txt "com/whatsapp/util/Foo") = Some (txt "com/whatsapp/util/Foo") /\
  (forall d1 d2 m,
      In d1 [dot; slash] -> In d2 [dot; slash] -> In m OFFICIAL_MODULES ->
      smali_official p (d1 :: txt "myapp" ++ d2 :: m) =
      Some (d1 :: txt "whatsapp" ++ d2 :: m)) /\
  (forall before rest d1 d2 m,
      In d1 [dot; slash] -> In d2 [dot; slash] -> In m OFFICIAL_MODULES ->
      exists before' rest',
        smali_official p (before ++ (d1 :: txt "myapp" ++ d2 :: m) ++ rest) =
        Some (before' ++ (d1 :: txt "whatsapp" ++ d2 :: m) ++ rest')) /\
  (forall content out d1 d2 m before rest,
      smali_rewrite p content = Some out ->
      In d1 [dot; slash] -> In d2 [dot; slash] -> In m OFFICIAL_MODULES ->
      out <> before ++ d1 :: txt "myapp" ++ d2 :: m ++ rest).
Proof.
  intros p. split; [vm_compute; reflexivity|].
  split; [vm_compute; reflexivity|]. split; [|split].
  - intros d1 d2 m H1 H2 Hm.
    pose proof restored_exactly_all as H.
    rewrite forallb_forall in H. specialize (H d1 H1).
    rewrite forallb_forall in H. specialize (H d2 H2).
    rewrite forallb_forall in H. specialize (H m Hm).
    unfold restored_exactly in H. fold p in H.
    destruct (smali_official p (d1 :: txt "myapp" ++ d2 :: m)) as [out|]; [|easy].
    apply text_eqb_eq in H. now subst out.
  - apply (@official_restores_in_context primary_myapp (txt "myapp"));
      vm_compute; reflexivity.
  - intros content out d1 d2 m before rest Hout H1 H2 Hm E.
    apply primary_rewrite_is_last_scan in Hout as [x Hx]; [|reflexivity].
    rewrite E in Hx. symmetry in Hx.
    apply (@restore_clean dot_or_slash [dot; slash] (txt "myapp") (txt "whatsapp")
             delim_rx_dot_or_slash) in Hx; [|vm_compute; reflexivity].
    revert Hx.
    apply (@official_match_intro dot_or_slash [dot; slash] (txt "myapp")
             delim_rx_dot_or_slash d1 d2 m rest);
      auto using accepts_in.
Qed.

Lemma protected_module_restored_witness :
  smali_official (SmaliProcessor_init primary_myapp) (txt "/myapp/util") =
    Some (txt "/whatsapp/util") /\
  (exists before' rest',
      smali_official (SmaliProcessor_init primary_myapp)
        (txt "Lcom" ++ (slash :: txt "myapp" ++ slash :: txt "util") ++ txt "/Foo;") =
      Some (before' ++ (slash :: txt "whatsapp" ++ slash :: txt "util") ++ rest')) /\
  txt "com/whatsapp/util/Foo" <>
    txt "com" ++ slash :: txt "myapp" ++ slash :: txt "util" ++ txt "/Foo".
Proof.
  destruct protected_module_restored as [_ [Hrun [Hrestore [Hcontext Hnever]]]].
  split; [|split].
  - apply (Hrestore slash slash (txt "util")); vm_compute; tauto.
  - apply (Hcontext (txt "Lcom") (txt "/Foo;") slash slash (txt "util"));
      vm_compute; tauto.
  - apply (Hnever (txt "com/whatsapp/util/Foo") _ slash slash (txt "util")
                  (txt "com") (txt "/Foo") Hrun); vm_compute; tauto.
Defined.

End ProtectedModules.

(** ** Custom search tokens *)

Module CustomToken.
Import Regex RegexFacts Clone Reference CloneFacts Jobs.

(** The groups a match of [custom_rx (RChr d) n token] captures: one per
    dot of the token, each holding the one character [d]. *)
Fixpoint custom_caps (d : ascii) (n : nat) (token : text) (g : captures) : captures :=
  match token with
  | [] => g
  | c :: token' =>
      if Ascii.eqb c dot
      then custom_caps d (S n) token' ((n, [d]) :: g)
      else custom_caps d n token' g
  end.

Lemma replace_char_length (a b : ascii) (s : text) :
  length (replace_char a b s) = length s.
Proof. apply length_map. Qed.

Lemma run_custom (d : ascii) (token : text) :
  forall n s g,
    run (custom_rx (RChr d) n token) s g =
    if starts_with (replace_char dot d token) s
    then [(skipn (length token) s, custom_caps d n token g)]
    else [].
Proof.
  induction token as [|c token IH]; intros n s g; [reflexivity|].
  cbn [custom_rx custom_caps replace_char map length].
  fold (replace_char dot d token).
  destruct (Ascii.eqb c dot) eqn:E.
  - rewrite run_cat, run_grp_chr.
    change (d :: replace_char dot d token) with ([d] ++ replace_char dot d token).
    rewrite starts_with_cat.
    destruct (starts_with [d] s); cbn [andb]; [|reflexivity].
    cbn [flat_map fst snd]. rewrite app_nil_r, IH.
    change (length [d]) with 1. now rewrite skipn_skipn.
  - rewrite run_cat. destruct s as [|x s]; [reflexivity|].
    cbn [run starts_with skipn]. rewrite (Ascii.eqb_sym c x).
    destruct (Ascii.eqb x c); cbn [andb flat_map fst snd]; [|reflexivity].
    now rewrite app_nil_r, IH.
Qed.

Lemma replace_char_same (a : ascii) (s : text) : replace_char a a s = s.
Proof.
  unfold replace_char. induction s as [|c s IH]; simpl; [reflexivity|].
  destruct (Ascii.eqb c a) eqn:E; [apply Ascii.eqb_eq in E; subst|];
    now rewrite IH.
Qed.

Lemma rmatch_custom (d : ascii) (token s rest : text) :
  (exists g, rmatch (custom_rx (RChr d) 1 token) s = Some (rest, g)) <->
  s = replace_char dot d token ++ rest.
Proof.
  unfold rmatch. rewrite run_custom.
  destruct (starts_with (replace_char dot d token) s) eqn:E.
  - apply starts_with_split in E. rewrite replace_char_length in E. split.
    + intros [g H]. cbn [hd_error] in H. injection H as H _. now rewrite H in E.
    + intros H. eexists. cbn [hd_error]. do 2 f_equal.
      rewrite H. rewrite <- (replace_char_length dot d token).
      apply skipn_app_exact.
  - split; [now intros [g H]|]. intros H. subst s.
    now rewrite starts_with_app in E.
Qed.

Lemma rmatch_lit (p s rest : text) :
  (exists g, rmatch (lit p) s = Some (rest, g)) <-> s = p ++ rest.
Proof.
  unfold rmatch. rewrite run_lit. destruct (starts_with p s) eqn:E.
  - apply starts_with_split in E. split.
    + intros [g H]. cbn [hd_error] in H. injection H as H _. now rewrite H in E.
    + intros H. eexists. cbn [hd_error]. do 2 f_equal.
      rewrite H. apply skipn_app_exact.
  - split; [now intros [g H]|]. intros H. subst s.
    now rewrite starts_with_app in E.
Qed.

(** C3, as the code has it: with a custom search token, the two patterns of
    the smali processor match exactly the token with every dot written as
    a slash and exactly the token as written; the pattern of the xml
    processor matches exactly the token as written, whatever the label. *)
Theorem custom_token_patterns (cfg : WhatsAppCloneConfig) (s rest : text) :
  custom_search_pattern cfg <> [] ->
  ((exists g, rmatch (package_pattern1 (SmaliProcessor_init cfg)) s = Some (rest, g)) <->
   s = replace_char dot slash (custom_search_pattern cfg) ++ rest) /\
  ((exists g, rmatch (package_pattern2 (SmaliProcessor_init cfg)) s = Some (rest, g)) <->
   s = custom_search_pattern cfg ++ rest) /\
  ((exists g, rmatch (package_pattern (XmlProcessor_init cfg)) s = Some (rest, g)) <->
   s = custom_search_pattern cfg ++ rest) /\
  (is_business cfg = false ->
   forall content,
     smali_main (SmaliProcessor_init cfg) content =
     (content <- sub (package_pattern1 (SmaliProcessor_init cfg))
                     (com_ref1 (new_package_name_path cfg)) content ;;
      sub (package_pattern2 (SmaliProcessor_init cfg))
          (com_ref1 (new_package_name cfg)) content)).
Proof.
  intros Htok.
  assert (Hc : has_custom cfg = true).
  { unfold has_custom. destruct (custom_search_pattern cfg); easy. }
  split; [|split; [|split]].
  - unfold SmaliProcessor_init. cbn [package_pattern1]. rewrite Hc.
    apply rmatch_custom.
  - unfold SmaliProcessor_init. cbn [package_pattern2]. rewrite Hc.
    cbn [snd]. rewrite rmatch_custom. now rewrite replace_char_same.
  - unfold XmlProcessor_init. cbn [package_pattern]. rewrite Hc.
    apply rmatch_lit.
  - intros Hb content. unfold smali_main.
    change (smali_config (SmaliProcessor_init cfg)) with cfg.
    now rewrite Hb.
Qed.

Definition primary_custom : WhatsAppCloneConfig := job "WhatsApp" "myapp" "MyApp" "org.foo.bar".
Definition business_custom : WhatsAppCloneConfig :=
  job "WhatsApp Business" "myapp" "MyApp" "org.foo.bar".

Lemma custom_token_patterns_witness :
  ((exists g, rmatch (package_pattern1 (SmaliProcessor_init primary_custom))
                (txt "org/foo/bar;") = Some (txt ";", g)) <->
   txt "org/foo/bar;" = replace_char dot slash (custom_search_pattern primary_custom) ++ txt ";") /\
  ((exists g, rmatch (package_pattern2 (SmaliProcessor_init primary_custom))
                (txt "org/foo/bar;") = Some (txt ";", g)) <->
   txt "org/foo/bar;" = custom_search_pattern primary_custom ++ txt ";") /\
  ((exists g, rmatch (package_pattern (XmlProcessor_init primary_custom))
                (txt "org/foo/bar;") = Some (txt ";", g)) <->
   txt "org/foo/bar;" = custom_search_pattern primary_custom ++ txt ";").
Proof.
  destruct (@custom_token_patterns primary_custom (txt "org/foo/bar;") (txt ";"))
    as [H1 [H2 [H3 _]]]; [discriminate|].
  exact (conj H1 (conj H2 H3)).
Defined.

(** C3 as stated fails: the xml rewrite leaves the slash-delimited token
    alone, and under the Business label the smali rewrite leaves the
    custom token alone in both forms. *)
Lemma custom_token_not_everywhere :
  xml_rewrite (XmlProcessor_init primary_custom) (txt "org/foo/bar org.foo.bar") =
    Some (txt "org/foo/bar com.myapp") /\
  smali_rewrite (SmaliProcessor_init business_custom) (txt "org/foo/bar org.foo.bar") =
    Some (txt "org/foo/bar org.foo.bar").
Proof. split; vm_compute; reflexivity. Qed.

End CustomToken.

(** ** The literal [com] of the replacement *)

Module LeadingCom.
Import Regex RegexFacts Clone Reference CloneFacts Jobs CustomToken.

Lemma groups_custom (d : regex) (token : text) :
  In dot token -> forall n, n <= groups (custom_rx d n token).
Proof.
  induction token as [|c token IH]; intros H n; [easy|].
  cbn [custom_rx]. destruct (Ascii.eqb c dot) eqn:E; cbn [groups]; [lia|].
  destruct H as [H|H]; [subst c; now rewrite Ascii.eqb_refl in E|].
  specialize (IH H n). lia.
Qed.

Lemma group_custom_caps_below (d : ascii) (token : text) :
  forall n g i, i < n -> group i (custom_caps d n token g) = group i g.
Proof.
  induction token as [|c token IH]; intros n g i Hi; [reflexivity|].
  cbn [custom_caps]. destruct (Ascii.eqb c dot).
  - rewrite IH by lia. cbn [group].
    destruct (Nat.eqb i n) eqn:E; [apply Nat.eqb_eq in E; lia|reflexivity].
  - now apply IH.
Qed.

Lemma group_custom_caps_first (d : ascii) (token : text) :
  In dot token -> forall n g, group n (custom_caps d n token g) = Some [d].
Proof.
  induction token as [|c token IH]; intros H n g; [easy|].
  cbn [custom_caps]. destruct (Ascii.eqb c dot) eqn:E.
  - rewrite group_custom_caps_below by lia. cbn [group].
    now rewrite Nat.eqb_refl.
  - destruct H as [H|H]; [subst c; now rewrite Ascii.eqb_refl in E|].
    now apply IH.
Qed.

(** What [XmlProcessor.process_file] does after its first substitution. *)
Definition xml_after_package (p : XmlProcessor) (content : text) : option text :=
  let cfg := xml_config p in
  content <- sub (sticker_pattern p)
               (tlit (android_name ++ txt "com." ++ new_package_name cfg ++ sticker_read))
               content ;;
  content <- sub (folder_pattern p) (tlit (new_folder_name cfg)) content ;;
  xml_official p content.

(** Where the custom token is used, the replacement starts with the
    literal [com] and the leading segment of the token is not kept: under
    the Primary label, for a token with at least one dot, the first smali
    rule replaces the token's slash form at the head of a text by
    [com/<path>] and hands the result to the second rule; under either
    label, for any non-empty token, the first xml rule replaces the token
    by [com.<package>]. *)
Lemma custom_token_replaced_by_com (cfg : WhatsAppCloneConfig) (rest : text) :
  plain_name (new_package_name cfg) = true ->
  plain_name (new_package_name_path cfg) = true ->
  let p := SmaliProcessor_init cfg in
  let x := XmlProcessor_init cfg in
  (is_business cfg = false ->
   In dot (custom_search_pattern cfg) ->
   exists rest',
      sub (package_pattern1 p) (com_ref1 (new_package_name_path cfg)) rest = Some rest' /\
      smali_main p (replace_char dot slash (custom_search_pattern cfg) ++ rest) =
      sub (package_pattern2 p) (com_ref1 (new_package_name cfg))
          (txt "com/" ++ new_package_name_path cfg ++ rest')) /\
  (custom_search_pattern cfg <> [] ->
   exists rest',
      sub (package_pattern x) (tlit (txt "com." ++ new_package_name cfg)) rest = Some rest' /\
      xml_rewrite x (custom_search_pattern cfg ++ rest) =
      xml_after_package x (txt "com." ++ new_package_name cfg ++ rest')).
Proof.
  intros _ _ p x.
  assert (Hhas : custom_search_pattern cfg <> [] -> has_custom cfg = true).
  { unfold has_custom. destruct (custom_search_pattern cfg); easy. }
  split.
  - intros Hb Hdot.
    assert (Htok : custom_search_pattern cfg <> []).
    { intros E. now rewrite E in Hdot. }
    pose proof (Hhas Htok) as Hc.
    unfold smali_main. subst p.
    cbn [smali_config SmaliProcessor_init package_pattern1 package_pattern2].
    rewrite Hb, Hc. cbn [fst snd].
    set (r := custom_rx (RChr slash) 1 (custom_search_pattern cfg)).
    set (t := com_ref1 (new_package_name_path cfg)).
    assert (Hok : template_ok r t = true).
    { unfold t. rewrite template_ok_com_ref1. apply Nat.leb_le.
      now apply groups_custom. }
    exists (scan r t rest 0). unfold sub. rewrite Hok. split; [reflexivity|].
    cbn [bind]. f_equal.
    rewrite scan_match with (g := custom_caps slash 1 (custom_search_pattern cfg) []).
    + unfold t. rewrite expand_com_ref1, group_custom_caps_first by assumption.
      now rewrite <- !app_assoc.
    + destruct (custom_search_pattern cfg); easy.
    + unfold rmatch, r. rewrite run_custom, starts_with_app. cbn [hd_error].
      rewrite <- (replace_char_length dot slash (custom_search_pattern cfg)).
      now rewrite skipn_app_exact.
  - intros Htok. pose proof (Hhas Htok) as Hc.
    unfold xml_rewrite, xml_after_package. subst x.
    cbn [xml_config XmlProcessor_init package_pattern]. rewrite Hc.
    exists (scan (lit (custom_search_pattern cfg))
                 (tlit (txt "com." ++ new_package_name cfg)) rest 0).
    unfold sub. rewrite template_ok_tlit.
    split; [reflexivity|]. cbn [bind].
    rewrite scan_match with (g := []).
    + rewrite expand_tlit. now rewrite <- !app_assoc.
    + assumption.
    + unfold rmatch. rewrite run_lit, starts_with_app. cbn [hd_error].
      now rewrite skipn_app_exact.
Qed.

Definition primary_org_foo : WhatsAppCloneConfig := job "WhatsApp" "myapp" "MyApp" "org.foo".

Lemma custom_token_replaced_by_com_example :
  smali_main (SmaliProcessor_init primary_org_foo) (txt "org/foo/Bar") =
    Some (txt "com/myapp/Bar") /\
  xml_rewrite (XmlProcessor_init primary_org_foo) (txt "org.foo.Bar") =
    Some (txt "com.myapp.Bar").
Proof. split; vm_compute; reflexivity. Qed.

(** C9: the code breaks the claim for some custom tokens.  A token
    without a dot gives a smali pattern without groups; the replacement
    template still refers to [\1], [re] refuses it, and the file is not
    rewritten at all.  And under the Business label the smali rewrite
    never looks at the custom patterns that [__init__] has built: the
    token's slash form is left as it is. *)
Theorem custom_token_not_always_replaced :
  smali_rewrite (SmaliProcessor_init (job "WhatsApp" "myapp" "MyApp" "orgfoo"))
    (txt "orgfoo") = None /\
  smali_rewrite (SmaliProcessor_init (job "WhatsApp Business" "myapp" "MyApp" "org.foo"))
    (txt "org/foo") = Some (txt "org/foo").
Proof. split; vm_compute; reflexivity. Qed.

End LeadingCom.

(** ** The Business label in xml files *)

Module BusinessXml.
Import Regex RegexFacts Clone Reference CloneFacts Jobs.

(** [com\.whatsapp(\.w4b)?] *)
Definition xml_business_rx : regex :=
  RCat (lit (txt "com.whatsapp")) (ROpt (RGrp 1 (lit (w4b dot)))).

Lemma run_xml_business (s : text) (g : captures) :
  run xml_business_rx s g =
  if starts_with (txt "com.whatsapp") s
  then (if starts_with (w4b dot) (skipn 12 s)
        then [(skipn 4 (skipn 12 s), (1, w4b dot) :: g)]
        else []) ++ [(skipn 12 s, g)]
  else [].
Proof.
  unfold xml_business_rx. rewrite run_cat_lit.
  destruct (starts_with (txt "com.whatsapp") s); [|reflexivity].
  change (length (txt "com.whatsapp")) with 12.
  now rewrite run_opt, run_grp_lit.
Qed.

Lemma xml_business_suffixed (rest : text) :
  rmatch xml_business_rx (txt "com.whatsapp.w4b" ++ rest) = Some (rest, [(1, w4b dot)]).
Proof.
  unfold rmatch. rewrite run_xml_business.
  change (txt "com.whatsapp.w4b" ++ rest)
    with (txt "com.whatsapp" ++ (w4b dot ++ rest)).
  rewrite starts_with_app.
  change 12 with (length (txt "com.whatsapp")). rewrite skipn_app_exact.
  rewrite starts_with_app.
  change 4 with (length (w4b dot)). now rewrite skipn_app_exact.
Qed.

Lemma xml_business_bare (rest : text) :
  starts_with (w4b dot) rest = false ->
  rmatch xml_business_rx (txt "com.whatsapp" ++ rest) = Some (rest, []).
Proof.
  intros H. unfold rmatch. rewrite run_xml_business, starts_with_app.
  change 12 with (length (txt "com.whatsapp")). rewrite skipn_app_exact.
  now rewrite H.
Qed.

Lemma starts_with_skip_tail (c0 : ascii) (q x s : text) :
  forallb (fun c => negb (Ascii.eqb c c0)) q = true ->
  starts_with q (x ++ c0 :: s) = starts_with q x.
Proof.
  revert q. induction x as [|a x IH]; intros q Hq.
  - destruct q as [|b q]; [reflexivity|]. cbn [forallb] in Hq.
    apply andb_prop in Hq as [Hb _]. apply negb_true_iff in Hb.
    cbn. now rewrite Hb.
  - destruct q as [|b q]; [reflexivity|]. cbn [forallb] in Hq.
    apply andb_prop in Hq as [_ Hq]. cbn [app starts_with]. now rewrite IH.
Qed.

Lemma starts_with_head_unique (c0 b : ascii) (p x s : text) :
  forallb (fun c => negb (Ascii.eqb c c0)) p = true ->
  x <> [] ->
  starts_with (b :: p) (x ++ c0 :: s) = starts_with (b :: p) x.
Proof.
  intros Hp Hx. destruct x as [|a x]; [easy|].
  cbn [app starts_with]. now rewrite starts_with_skip_tail.
Qed.

(** What the pattern finds at a place in front of an occurrence of
    [com...] depends only on the text up to that occurrence. *)
Lemma xml_business_before (x s : text) :
  x <> [] ->
  (rmatch xml_business_rx (x ++ "c"%char :: s) = None /\
   forall s', rmatch xml_business_rx (x ++ "c"%char :: s') = None) \/
  (exists y g,
      forall s', rmatch xml_business_rx (x ++ "c"%char :: s') =
                 Some (y ++ "c"%char :: s', g)).
Proof.
  intros Hx.
  assert (Hm : forall s', rmatch xml_business_rx (x ++ "c"%char :: s') =
            if starts_with (txt "com.whatsapp") x
            then if starts_with (w4b dot) (skipn 12 x)
                 then Some (skipn 4 (skipn 12 x) ++ "c"%char :: s', [(1, w4b dot)])
                 else Some (skipn 12 x ++ "c"%char :: s', [])
            else None).
  { intros s'. unfold rmatch. rewrite run_xml_business.
    change (txt "com.whatsapp") with ("c"%char :: txt "om.whatsapp").
    rewrite starts_with_head_unique by (auto; reflexivity).
    change ("c"%char :: txt "om.whatsapp") with (txt "com.whatsapp").
    destruct (starts_with (txt "com.whatsapp") x) eqn:E; [|reflexivity].
    apply starts_with_split in E.
    change (length (txt "com.whatsapp")) with 12 in E.
    remember (skipn 12 x) as x' eqn:Hx'. clear Hx'.
    subst x. rewrite <- !app_assoc.
    change 12 with (length (txt "com.whatsapp")). rewrite !skipn_app_exact.
    rewrite starts_with_skip_tail by reflexivity.
    destruct (starts_with (w4b dot) x') eqn:E2; [|reflexivity].
    apply starts_with_split in E2. change (length (w4b dot)) with 4 in E2.
    remember (skipn 4 x') as x'' eqn:Hx''. clear Hx''.
    subst x'. rewrite <- !app_assoc.
    change 4 with (length (w4b dot)). now rewrite !skipn_app_exact. }
  destruct (starts_with (txt "com.whatsapp") x).
  - right. destruct (starts_with (w4b dot) (skipn 12 x)); eauto.
  - left. split; [apply Hm|exact Hm].
Qed.

Lemma xml_business_consuming : consuming xml_business_rx.
Proof.
  intros s rest g H. unfold rmatch in H. rewrite run_xml_business in H.
  destruct (starts_with (txt "com.whatsapp") s) eqn:E; [|easy].
  apply starts_with_split in E. change (length (txt "com.whatsapp")) with 12 in E.
  remember (skipn 12 s) as q eqn:Hq. clear Hq.
  assert (Hl : length s = 12 + length q).
  { rewrite E at 1. now rewrite length_app. }
  destruct (starts_with (w4b dot) q); cbn [app hd_error] in H.
  - assert (Hr : skipn 4 q = rest) by congruence.
    rewrite <- Hr, length_skipn. lia.
  - assert (Hr : q = rest) by congruence. rewrite <- Hr. lia.
Qed.

(** Two texts that are told apart only behind a common prefix are
    rewritten alike in front, when no match that starts in the prefix
    depends on what follows it. *)
Lemma scan_two_contexts (r : regex) (t : template) (s1 s2 : text) :
  consuming r ->
  (forall x, x <> [] ->
     (rmatch r (x ++ s1) = None /\ rmatch r (x ++ s2) = None) \/
     (exists y g, rmatch r (x ++ s1) = Some (y ++ s1, g) /\
                  rmatch r (x ++ s2) = Some (y ++ s2, g))) ->
  forall before, exists before',
    scan r t (before ++ s1) 0 = before' ++ scan r t s1 0 /\
    scan r t (before ++ s2) 0 = before' ++ scan r t s2 0.
Proof.
  intros Hc Hx before. remember (length before) as n eqn:Hn. revert before Hn.
  induction n as [n IH] using lt_wf_ind. intros before Hn.
  destruct before as [|c before]; [now exists []|].
  destruct (Hx (c :: before) ltac:(easy)) as [[E1 E2]|[y [g [E1 E2]]]].
  - cbn [app] in *. rewrite !scan_nomatch by assumption.
    destruct (IH (length before) ltac:(rewrite Hn; simpl; lia) before eq_refl)
      as [b' [H1 H2]].
    exists (c :: b'). cbn [app]. now rewrite H1, H2.
  - assert (Hy : length y < n).
    { apply Hc in E1. rewrite !length_app in E1. rewrite Hn. lia. }
    destruct (IH (length y) Hy y eq_refl) as [b' [H1 H2]].
    pose proof (@scan_step r t ((c :: before) ++ s1) Hc ltac:(easy)) as S1.
    pose proof (@scan_step r t ((c :: before) ++ s2) Hc ltac:(easy)) as S2.
    rewrite E1 in S1. rewrite E2 in S2.
    destruct S1 as [m1 [_ [_ S1]]]. destruct S2 as [m2 [_ [_ S2]]].
    exists (expand t g ++ b').
    rewrite S1, S2, H1, H2. now rewrite !app_assoc.
Qed.


(** C8, as the code has it: under the Business label and without a custom
    token, the package rule of the xml rewrite writes [com.<package>] for
    [com.whatsapp] and for [com.whatsapp.w4b] alike, wherever the
    occurrence stands in a text; so the xml rewrite as a whole returns the
    same text for two buffers that differ only in which of the two forms
    stands at one place, whereas the smali rewrite keeps the bare form and
    renames the suffixed one.  What the later rules make of the collapsed
    form is therefore the same for both forms as well. *)
Theorem business_xml_collapses (cfg : WhatsAppCloneConfig) :
  is_business cfg = true ->
  custom_search_pattern cfg = [] ->
  plain_name (new_package_name cfg) = true ->
  plain_name (new_package_name_path cfg) = true ->
  plain_name (new_folder_name cfg) = true ->
  let new := txt "com." ++ new_package_name cfg in
  let rule := sub (package_pattern (XmlProcessor_init cfg)) (tlit new) in
  (forall before rest,
      starts_with (txt ".w4b") rest = false ->
      exists before' rest',
        rule (before ++ txt "com.whatsapp" ++ rest) = Some (before' ++ new ++ rest') /\
        rule (before ++ txt "com.whatsapp.w4b" ++ rest) = Some (before' ++ new ++ rest')) /\
  (forall before rest,
      starts_with (txt ".w4b") rest = false ->
      xml_rewrite (XmlProcessor_init cfg) (before ++ txt "com.whatsapp" ++ rest) =
      xml_rewrite (XmlProcessor_init cfg) (before ++ txt "com.whatsapp.w4b" ++ rest) /\
      xml_rewrite (XmlProcessor_init cfg) (before ++ txt "com.whatsapp" ++ rest) <> None) /\
  smali_main (SmaliProcessor_init cfg) (txt "com.whatsapp com.whatsapp.w4b") =
    Some (txt "com.whatsapp " ++ new) /\
  xml_rewrite (XmlProcessor_init business_myapp) (txt "com.whatsapp com.whatsapp.w4b") =
    Some (txt "com.myapp com.myapp") /\
  smali_rewrite (SmaliProcessor_init business_myapp) (txt "com.whatsapp com.whatsapp.w4b") =
    Some (txt "com.whatsapp com.myapp").
Proof.
  intros Hb Hc _ _ _ new rule.
  assert (Hrule : forall s, rule s = Some (scan xml_business_rx (tlit new) s 0)).
  { intros s. unfold rule, sub, XmlProcessor_init, has_custom.
    cbn [package_pattern]. rewrite Hc, Hb. fold xml_business_rx.
    now rewrite template_ok_tlit. }
  assert (Hsuf : forall rest,
             scan xml_business_rx (tlit new) (txt "com.whatsapp.w4b" ++ rest) 0 =
             new ++ scan xml_business_rx (tlit new) rest 0).
  { intros rest. rewrite scan_match with (g := [(1, w4b dot)]).
    - now rewrite expand_tlit.
    - discriminate.
    - apply xml_business_suffixed. }
  assert (Hbare : forall rest, starts_with (txt ".w4b") rest = false ->
             scan xml_business_rx (tlit new) (txt "com.whatsapp" ++ rest) 0 =
             new ++ scan xml_business_rx (tlit new) rest 0).
  { intros rest H. rewrite scan_match with (g := []).
    - now rewrite expand_tlit.
    - discriminate.
    - now apply xml_business_bare. }
  assert (Hctx : forall before rest,
             starts_with (txt ".w4b") rest = false ->
             exists before',
               scan xml_business_rx (tlit new) (before ++ txt "com.whatsapp" ++ rest) 0 =
               before' ++ new ++ scan xml_business_rx (tlit new) rest 0 /\
               scan xml_business_rx (tlit new) (before ++ txt "com.whatsapp.w4b" ++ rest) 0 =
               before' ++ new ++ scan xml_business_rx (tlit new) rest 0).
  { intros before rest Hrest.
    destruct (@scan_two_contexts xml_business_rx (tlit new)
                (txt "com.whatsapp" ++ rest) (txt "com.whatsapp.w4b" ++ rest)
                xml_business_consuming) with (before := before)
      as [before' [H1 H2]].
    - intros x Hx.
      change (txt "com.whatsapp" ++ rest)
        with ("c"%char :: txt "om.whatsapp" ++ rest).
      change (txt "com.whatsapp.w4b" ++ rest)
        with ("c"%char :: txt "om.whatsapp.w4b" ++ rest).
      destruct (@xml_business_before x (txt "om.whatsapp" ++ rest) Hx)
        as [[_ Hn]|[y [g Hy]]].
      + left. split; apply Hn.
      + right. exists y, g. split; apply Hy.
    - exists before'. rewrite H1, H2, Hsuf, Hbare by assumption. now split. }
  split; [|split; [|split; [|split]]].
  - intros before rest Hrest.
    destruct (Hctx before rest Hrest) as [before' [H1 H2]].
    exists before', (scan xml_business_rx (tlit new) rest 0).
    now rewrite !Hrule, H1, H2.
  - intros before rest Hrest.
    destruct (Hctx before rest Hrest) as [before' [H1 H2]].
    unfold xml_rewrite, xml_official. cbn [xml_config XmlProcessor_init
      package_pattern sticker_pattern folder_pattern xml_official_package_pattern].
    fold rule. rewrite !Hrule, H1, H2. split; [reflexivity|].
    cbn [bind]. rewrite Hb.
    repeat (rewrite sub_some by apply template_ok_tlit; cbn [bind]).
    rewrite sub_some by apply template_ok_restore. discriminate.
  - unfold smali_main. cbn [smali_config SmaliProcessor_init]. rewrite Hb.
    rewrite (explicit_w4b_replace slash). cbn [bind].
    rewrite (explicit_w4b_replace dot). cbn [bind].
    rewrite (core_wa_identity slash). cbn [bind].
    rewrite (core_wa_identity dot).
    transitivity (Some (txt "com.whatsapp " ++ new ++ [])); [reflexivity|].
    now rewrite app_nil_r.
  - vm_compute. reflexivity.
  - vm_compute. reflexivity.
Qed.

Lemma business_xml_collapses_witness :
  xml_rewrite (XmlProcessor_init business_myapp)
    (txt "<a b=" ++ txt "com.whatsapp" ++ txt ".Main>") =
  xml_rewrite (XmlProcessor_init business_myapp)
    (txt "<a b=" ++ txt "com.whatsapp.w4b" ++ txt ".Main>").
Proof.
  destruct (@business_xml_collapses business_myapp eq_refl eq_refl eq_refl
              eq_refl eq_refl) as [_ [H _]].
  apply (H (txt "<a b=") (txt ".Main>")). reflexivity.
Defined.

(** C8 as stated fails in front of a protected module: there the xml
    rewrite writes [com.whatsapp.w4b.<module>] for both forms, not
    [com.<package>]. *)
Lemma business_xml_module_not_renamed :
  xml_rewrite (XmlProcessor_init business_myapp)
    (txt "com.whatsapp.util com.whatsapp.w4b.util") =
  Some (txt "com.whatsapp.w4b.util com.whatsapp.w4b.util").
Proof. vm_compute. reflexivity. Qed.

End BusinessXml.

(** ** Files, [process_file] and [process_all_files] *)

Module Runner.
Import Regex Clone.

(** What [except Exception as e] can catch in [process_file]. *)
Inductive error : Type :=
| FileNotFoundError
| PermissionError
| ReError.

(** A file as [open] sees it; its content is the text that
    [read()] returns with [errors='ignore'], so decoding never raises. *)
Record file : Type := mkFile {
  readable : bool;
  writable : bool;
  data : text
}.

Definition filesystem : Type := string -> option file.

Definition write (fs : filesystem) (path : string) (f : file) : filesystem :=
  fun q => if String.eqb q path then Some f else fs q.

(** [open(path, 'r').read()] *)
Definition read_text (fs : filesystem) (path : string) : error + text :=
  match fs path with
  | None => inl FileNotFoundError
  | Some f => if readable f then inr (data f) else inl PermissionError
  end.

(** [open(path, 'w').write(content)] *)
Definition write_text (fs : filesystem) (path : string) (content : text)
  : error + filesystem :=
  match fs path with
  | None => inr (write fs path (mkFile true true content))
  | Some f =>
      if writable f
      then inr (write fs path (mkFile (readable f) (writable f) content))
      else inl PermissionError
  end.

(** The two subclasses of [FileProcessor] differ in the rewriting they
    apply between reading and writing. *)
Class FileProcessor (P : Type) : Type := {
  rewrite : P -> text -> option text
}.

#[export] Instance SmaliFileProcessor : FileProcessor SmaliProcessor :=
  {| rewrite := smali_rewrite |}.

#[export] Instance XmlFileProcessor : FileProcessor XmlProcessor :=
  {| rewrite := xml_rewrite |}.

(** The outcome of one file: the returned flag, the file system left
    behind and the error that was logged, if any. *)
Record outcome : Type := mkOutcome {
  ok : bool;
  after : filesystem;
  logged : list (string * error)
}.

Definition failed (fs : filesystem) (path : string) (e : error) : outcome :=
  mkOutcome false fs [(path, e)].

(** [process_file]: read, rewrite, write back; any exception is caught,
    logged with the path, and turned into [False]. *)
Definition process_file {P : Type} `{FileProcessor P} (p : P)
           (fs : filesystem) (path : string) : outcome :=
  match read_text fs path with
  | inl e => failed fs path e
  | inr content =>
      match rewrite p content with
      | None => failed fs path ReError
      | Some content' =>
          match write_text fs path content' with
          | inl e => failed fs path e
          | inr fs' => mkOutcome true fs' []
          end
      end
  end.

(** [executor.map(self.process_file, files)], the results in the order of
    [files]; the files are taken one after the other. *)
Fixpoint map_files {P : Type} `{FileProcessor P} (p : P) (fs : filesystem)
         (files : list string) : list bool * filesystem * list (string * error) :=
  match files with
  | [] => ([], fs, [])
  | path :: files' =>
      let o := process_file p fs path in
      let '(results, fs', log) := map_files p (after o) files' in
      (ok o :: results, fs', logged o ++ log)
  end.

Record batch : Type := mkBatch {
  total_files : nat;
  success_count : nat;
  files_after : filesystem;
  errors : list (string * error)
}.

(** [process_all_files], given the list [get_files()] returned. *)
Definition process_all_files {P : Type} `{FileProcessor P} (p : P)
           (fs : filesystem) (files : list string) : batch :=
  match files with
  | [] => mkBatch 0 0 fs []
  | _ :: _ =>
      let '(results, fs', log) := map_files p fs files in
      mkBatch (length files) (length (filter (fun b => b) results)) fs' log
  end.

(** [validate_config] and [run]. *)
Inductive rejection : Type :=
| FolderDoesNotExist
| EmptyPackageOrFolderName.

Definition is_empty (s : text) : bool :=
  match s with [] => true | _ :: _ => false end.

Definition validate_config (isdir : string -> bool) (cfg : WhatsAppCloneConfig)
  : option rejection :=
  if negb (isdir (root_folder cfg)) then Some FolderDoesNotExist
  else if is_empty (new_package_name cfg) || is_empty (new_folder_name cfg)
       then Some EmptyPackageOrFolderName
       else None.

Inductive run_result : Type :=
| Rejected : rejection -> run_result
| Completed : batch -> batch -> run_result.

Definition run (isdir : string -> bool) (cfg : WhatsAppCloneConfig)
           (fs : filesystem) (smali_files xml_files : list string) : run_result :=
  match validate_config isdir cfg with
  | Some r => Rejected r
  | None =>
      let smali := process_all_files (SmaliProcessor_init cfg) fs smali_files in
      let xml := process_all_files (XmlProcessor_init cfg) (files_after smali) xml_files in
      Completed smali xml
  end.

End Runner.

(** ** Facts about the runner *)

Module RunnerFacts.
Import Regex RegexFacts Clone Reference CloneFacts Jobs Runner.

(** A file [process_file] can both read and write back. *)
Definition accessible (fs : filesystem) (path : string) : bool :=
  match fs path with
  | Some f => readable f && writable f
  | None => false
  end.

Section OneProcessor.
Context {P : Type} `{FileProcessor P} (p : P).

Lemma process_file_accessible (fs : filesystem) (path q : string) :
  accessible (after (process_file p fs path)) q = accessible fs q.
Proof.
  unfold process_file, read_text, write_text, accessible.
  destruct (fs path) as [f|] eqn:E; [|reflexivity].
  destruct (readable f) eqn:Er; [|reflexivity].
  destruct (rewrite p (data f)); [|reflexivity].
  destruct (writable f) eqn:Ew; [|reflexivity].
  cbn [after]. unfold write. destruct (String.eqb q path) eqn:Eq; [|reflexivity].
  apply String.eqb_eq in Eq. subst q. rewrite E. cbn [readable writable].
  now rewrite Er, Ew.
Qed.

Lemma process_file_logs (fs : filesystem) (path : string) :
  if ok (process_file p fs path)
  then logged (process_file p fs path) = []
  else exists e, logged (process_file p fs path) = [(path, e)].
Proof.
  unfold process_file, read_text, write_text, failed.
  destruct (fs path) as [f|]; [|cbn; eauto].
  destruct (readable f); [|cbn; eauto].
  destruct (rewrite p (data f)); [|cbn; eauto].
  destruct (writable f); cbn; eauto.
Qed.

Lemma process_file_ok_accessible (fs : filesystem) (path : string) :
  ok (process_file p fs path) = true -> accessible fs path = true.
Proof.
  unfold process_file, read_text, write_text, accessible.
  destruct (fs path) as [f|]; [|easy].
  destruct (readable f); [|easy].
  destruct (rewrite p (data f)); [|easy].
  destruct (writable f); easy.
Qed.

(** Every file is either counted or logged, whatever happens to it. *)
Lemma map_files_account (files : list string) :
  forall fs,
    let '(results, fs', log) := map_files p fs files in
    length results = length files /\
    length (filter (fun b : bool => b) results) + length log = length files /\
    (forall q, accessible fs' q = accessible fs q) /\
    (forall path, In path files -> accessible fs path = false ->
                  exists e, In (path, e) log).
Proof.
  induction files as [|path files IH]; intros fs.
  - cbn. split; [reflexivity|]. split; [reflexivity|].
    split; [reflexivity|]. now intros q [].
  - cbn [map_files]. specialize (IH (after (process_file p fs path))).
    destruct (map_files p (after (process_file p fs path)) files)
      as [[results fs'] log].
    destruct IH as [Hlen [Hsum [Hacc Hlog]]].
    pose proof (process_file_logs fs path) as Hl.
    split; [cbn [length]; now rewrite Hlen|]. split; [|split].
    + cbn [filter]. rewrite length_app.
      destruct (ok (process_file p fs path)).
      * rewrite Hl. cbn [length]. lia.
      * destruct Hl as [e ->]. cbn [length]. lia.
    + intros q. rewrite Hacc. apply process_file_accessible.
    + intros q [->|Hq] Hno.
      * destruct (ok (process_file p fs q)) eqn:E.
        { apply process_file_ok_accessible in E. congruence. }
        destruct Hl as [e Hl]. exists e. rewrite Hl. now left.
      * destruct (Hlog q Hq) as [e He].
        { now rewrite process_file_accessible. }
        exists e. apply in_or_app. now right.
Qed.

Lemma process_all_files_account (fs : filesystem) (files : list string) :
  let b := process_all_files p fs files in
  total_files b = length files /\
  success_count b + length (errors b) = length files /\
  (forall path, In path files -> accessible fs path = false ->
                exists e, In (path, e) (errors b)).
Proof.
  destruct files as [|q files].
  - cbn. split; [reflexivity|]. split; [reflexivity|]. now intros q [].
  - unfold process_all_files.
    pose proof (map_files_account (q :: files) fs) as Hs.
    destruct (map_files p fs (q :: files)) as [[results fs'] log].
    destruct Hs as [_ [Hsum [_ Hlog]]].
    cbn [total_files success_count errors]. auto.
Qed.

Hypothesis rewrite_total : forall content, rewrite p content <> None.

Lemma process_file_ok (fs : filesystem) (path : string) :
  ok (process_file p fs path) = accessible fs path.
Proof.
  unfold process_file, read_text, write_text, accessible.
  destruct (fs path) as [f|]; [|reflexivity].
  destruct (readable f); [|reflexivity].
  destruct (rewrite p (data f)) eqn:E; [|now apply rewrite_total in E].
  destruct (writable f); reflexivity.
Qed.

Lemma map_files_spec (files : list string) :
  forall fs,
    let '(results, fs', log) := map_files p fs files in
    results = map (accessible fs) files /\
    (forall q, accessible fs' q = accessible fs q) /\
    (forall path, In path files -> accessible fs path = false ->
                  exists e, In (path, e) log).
Proof.
  induction files as [|path files IH]; intros fs.
  - cbn. split; [reflexivity|]. split; [reflexivity|]. now intros q [].
  - cbn [map_files]. specialize (IH (after (process_file p fs path))).
    destruct (map_files p (after (process_file p fs path)) files)
      as [[results fs'] log].
    destruct IH as [Hres [Hacc Hlog]]. repeat split.
    + cbn [map]. rewrite process_file_ok. f_equal. rewrite Hres.
      apply map_ext. intros q. apply process_file_accessible.
    + intros q. rewrite Hacc. apply process_file_accessible.
    + intros q [->|Hq] Hno.
      * pose proof (process_file_logs fs q) as Hl.
        rewrite process_file_ok, Hno in Hl. destruct Hl as [e Hl].
        exists e. rewrite Hl. now left.
      * destruct (Hlog q Hq) as [e He].
        { now rewrite process_file_accessible. }
        exists e. apply in_or_app. now right.
Qed.

Lemma count_accessible (fs : filesystem) (files : list string) :
  length (filter (fun b : bool => b) (map (accessible fs) files)) =
  length (filter (accessible fs) files).
Proof.
  induction files as [|q files IH]; [reflexivity|].
  cbn [map filter]. destruct (accessible fs q); cbn [length]; now rewrite IH.
Qed.

Lemma process_all_files_spec (fs : filesystem) (files : list string) :
  let b := process_all_files p fs files in
  total_files b = length files /\
  success_count b = length (filter (accessible fs) files) /\
  (forall path, In path files -> accessible fs path = false ->
                exists e, In (path, e) (errors b)).
Proof.
  destruct files as [|q files].
  - cbn. split; [reflexivity|]. split; [reflexivity|]. now intros q [].
  - unfold process_all_files.
    pose proof (map_files_spec (q :: files) fs) as Hs.
    destruct (map_files p fs (q :: files)) as [[results fs'] log].
    destruct Hs as [Hres [_ Hlog]].
    cbn [total_files success_count errors]. repeat split; auto.
    rewrite Hres. apply count_accessible.
Qed.

End OneProcessor.

Lemma filter_all (A : Type) (f : A -> bool) (l : list A) :
  forallb f l = true -> filter f l = l.
Proof.
  induction l as [|a l IH]; [reflexivity|]. cbn.
  intros H. apply andb_prop in H as [Ha Hl]. rewrite Ha. f_equal. auto.
Qed.

End RunnerFacts.

(** ** Per-file failures *)

Module FaultIsolation.
Import Regex RegexFacts Clone Reference CloneFacts Jobs Runner RunnerFacts.


Lemma primary_myapp_total (content : text) :
  rewrite (SmaliProcessor_init primary_myapp) content <> None.
Proof.
  cbn [rewrite SmaliFileProcessor].
  unfold smali_rewrite, smali_main, smali_official.
  cbn [smali_config SmaliProcessor_init package_pattern1 package_pattern2
       official_package_pattern official_packageP_pattern].
  change (is_business primary_myapp) with false.
  change (has_custom primary_myapp) with false. cbn [fst snd].
  repeat (rewrite sub_some by reflexivity; cbn [bind]).
  discriminate.
Qed.

Definition ten_files : list string :=
  [ "a/1.smali"; "a/2.smali"; "a/3.smali"; "a/4.smali"; "a/5.smali";
    "a/6.smali"; "a/7.smali"; "a/8.smali"; "a/9.smali"; "a/10.smali" ]%string.

(** Ten files; the fifth cannot be read. *)
Definition ten_fs : filesystem :=
  fun path =>
    if String.eqb path "a/5.smali"
    then Some (mkFile false true (txt "Lcom/whatsapp/Main;"))
    else if existsb (String.eqb path) ten_files
         then Some (mkFile true true (txt "Lcom/whatsapp/Main;"))
         else None.


End FaultIsolation.

(** ** An empty package name *)

Module EmptyPackage.
Import Regex RegexFacts Clone Reference CloneFacts Jobs Runner.

(** C4, as the code has it: an empty package name is turned down by
    [validate_config], so [run] returns before a processor is built or a
    file is touched; building the processors never fails, and for an empty
    name it yields the rule that matches two dots followed by a module. *)
Theorem empty_package_rejected_by_validation
        (isdir : string -> bool) (cfg : WhatsAppCloneConfig) (fs : filesystem)
        (smali_files xml_files : list string) :
  new_package_name cfg = [] ->
  (exists r, run isdir cfg fs smali_files xml_files = Rejected r) /\
  (forall m rest, In m OFFICIAL_MODULES ->
     rmatch (official_package_pattern (SmaliProcessor_init cfg))
            (dot :: dot :: m ++ rest) <> None /\
     rmatch (xml_official_package_pattern (XmlProcessor_init cfg))
            (dot :: dot :: m ++ rest) <> None).
Proof.
  intros Hp. split.
  - unfold run, validate_config. rewrite Hp.
    destruct (isdir (root_folder cfg)); cbn; eauto.
  - intros m rest Hm.
    cbn [official_package_pattern SmaliProcessor_init
         xml_official_package_pattern XmlProcessor_init].
    rewrite Hp.
    split; apply (@official_match_intro (RChr dot) [dot] [] delim_rx_dot dot dot m rest);
      auto.
Qed.

Definition no_package : WhatsAppCloneConfig := job "WhatsApp" "" "MyApp" "".

Lemma empty_package_rejected_by_validation_witness :
  exists r, run (fun _ => true) no_package (fun _ => None) [] [] = Rejected r.
Proof.
  apply (@empty_package_rejected_by_validation (fun _ => true) no_package
           (fun _ => None) [] []).
  reflexivity.
Defined.

(** C4 as stated fails: with an empty package name the processor is built
    and its rules rewrite a text. *)
Lemma empty_package_builds_rules :
  smali_rewrite (SmaliProcessor_init no_package) (txt "com/whatsapp/x ..util") =
    Some (txt "com//x .whatsapp.util") /\
  xml_rewrite (XmlProcessor_init no_package) (txt "com.whatsapp ..util") =
    Some (txt "com. .whatsapp.util").
Proof. split; vm_compute; reflexivity. Qed.

End EmptyPackage.

(** ** The sticker-permission rule *)

Module StickerRule.
Import Regex RegexFacts Clone Reference CloneFacts Jobs BusinessXml.

(** [XmlProcessor.process_file] with the sticker substitution left out. *)
Definition xml_rewrite_without_sticker (p : XmlProcessor) (content : text) : option text :=
  let cfg := xml_config p in
  content <- sub (package_pattern p) (tlit (txt "com." ++ new_package_name cfg)) content ;;
  content <- sub (folder_pattern p) (tlit (new_folder_name cfg)) content ;;
  xml_official p content.

(** The token the package rule searches for, the bare one by default. *)
Definition source_token (cfg : WhatsAppCloneConfig) : text :=
  if has_custom cfg then custom_search_pattern cfg else txt "com.whatsapp".

Lemma no_match_intro (r : regex) (s : text) :
  (forall a b, s = a ++ b -> rmatch r b = None) -> no_match r s = true.
Proof.
  induction s as [|c s IH]; intros H.
  - simpl. now rewrite (H [] []).
  - simpl. rewrite (H [] (c :: s)) by reflexivity. apply IH.
    intros a b ->. now apply (H (c :: a) b).
Qed.

Lemma sticker_needs_package (pkg : regex) (s : text) :
  rmatch (RCat (lit android_name) (RCat pkg (lit sticker_read))) s <> None ->
  exists rest, s = android_name ++ rest /\ rmatch pkg rest <> None.
Proof.
  unfold rmatch at 1. intros H.
  destruct (run _ s []) as [|x l] eqn:E; [easy|].
  assert (Hin : In x (run (RCat (lit android_name) (RCat pkg (lit sticker_read))) s []))
    by (rewrite E; now left).
  apply in_run_cat in Hin as [s1 [g1 [H1 H2]]].
  apply in_run_lit in H1 as [-> ->].
  apply in_run_cat in H2 as [s2 [g2 [H2 _]]].
  exists s1. split; [reflexivity|]. now apply in_rmatch in H2.
Qed.

Lemma source_token_matches (cfg : WhatsAppCloneConfig) (s : text) :
  rmatch (package_pattern (XmlProcessor_init cfg)) s <> None <->
  starts_with (source_token cfg) s = true.
Proof.
  unfold XmlProcessor_init, source_token. cbn [package_pattern].
  destruct (has_custom cfg).
  - unfold rmatch. rewrite run_lit. now destruct (starts_with _ s).
  - destruct (is_business cfg).
    + fold xml_business_rx. unfold rmatch. rewrite run_xml_business.
      destruct (starts_with (txt "com.whatsapp") s); [|easy].
      destruct (starts_with (w4b dot) (skipn 12 s)); easy.
    + unfold rmatch. rewrite run_lit. now destruct (starts_with _ s).
Qed.

Lemma consuming_lit (p : text) : p <> [] -> consuming (lit p).
Proof.
  intros Hp s rest g H. unfold rmatch in H. rewrite run_lit in H.
  destruct (starts_with p s) eqn:E; [|easy].
  apply starts_with_split in E. cbn [hd_error] in H. injection H as H _.
  rewrite H in E. rewrite E, length_app. destruct p; [easy|simpl; lia].
Qed.

Lemma package_pattern_consuming (cfg : WhatsAppCloneConfig) :
  consuming (package_pattern (XmlProcessor_init cfg)).
Proof.
  unfold XmlProcessor_init, has_custom. cbn [package_pattern].
  destruct (custom_search_pattern cfg) as [|c tok] eqn:E.
  - destruct (is_business cfg).
    + fold xml_business_rx. intros s rest g H. unfold rmatch in H.
      rewrite run_xml_business in H.
      destruct (starts_with (txt "com.whatsapp") s) eqn:Es; [|easy].
      apply starts_with_split in Es. change (length (txt "com.whatsapp")) with 12 in Es.
      pose proof (f_equal (@length _) Es) as Hl. rewrite length_app in Hl.
      change (length (txt "com.whatsapp")) with 12 in Hl.
      remember (skipn 12 s) as q eqn:Hq. clear Hq.
      destruct (starts_with (w4b dot) q); cbn [app hd_error] in H.
      * assert (Hr : skipn 4 q = rest) by congruence.
        rewrite <- Hr, length_skipn. lia.
      * assert (Hr : q = rest) by congruence. rewrite <- Hr. lia.
    + now apply consuming_lit.
  - now apply consuming_lit.
Qed.

(** C10, as the code has it: when the searched token and [com.<package>]
    do not overlap (neither occurs in the other, and no end of one is a
    beginning of the other), the package substitution leaves no occurrence
    of the token, the sticker pattern finds nothing, and the xml rewrite is
    the same with and without the sticker substitution. *)
Theorem sticker_rule_redundant (cfg : WhatsAppCloneConfig) (content : text) :
  plain_name (new_package_name cfg) = true ->
  plain_name (new_folder_name cfg) = true ->
  no_overlap (source_token cfg) (txt "com." ++ new_package_name cfg) = true ->
  xml_rewrite (XmlProcessor_init cfg) content =
  xml_rewrite_without_sticker (XmlProcessor_init cfg) content.
Proof.
  intros _ _ Hno. unfold xml_rewrite, xml_rewrite_without_sticker.
  change (xml_config (XmlProcessor_init cfg)) with cfg.
  set (p := XmlProcessor_init cfg).
  set (new := txt "com." ++ new_package_name cfg).
  assert (Hst : forall tt,
             scan (sticker_pattern p) tt
                  (scan (package_pattern p) (tlit new) content 0) 0 =
             scan (package_pattern p) (tlit new) content 0).
  { intros tt. apply scan_no_match, no_match_intro. intros a b Hab.
    destruct (rmatch (sticker_pattern p) b) eqn:E; [exfalso|reflexivity].
    assert (Hne : rmatch (sticker_pattern p) b <> None) by now rewrite E.
    apply sticker_needs_package in Hne as [rest [-> Hrest]].
    apply Hrest. rewrite app_assoc in Hab.
    apply (@replaced_clean (package_pattern p) (tlit new) (source_token cfg) new
             (source_token_matches cfg)) in Hab; auto.
    - intros s rest0 g _. apply expand_tlit.
    - apply package_pattern_consuming. }
  repeat (rewrite sub_some by apply template_ok_tlit; cbn [bind]).
  now rewrite Hst.
Qed.

Lemma sticker_rule_redundant_witness :
  xml_rewrite (XmlProcessor_init primary_myapp)
    (android_name ++ txt "com.whatsapp" ++ sticker_read) =
  xml_rewrite_without_sticker (XmlProcessor_init primary_myapp)
    (android_name ++ txt "com.whatsapp" ++ sticker_read).
Proof.
  apply (@sticker_rule_redundant primary_myapp); reflexivity.
Defined.

Definition primary_whats : WhatsAppCloneConfig := job "WhatsApp" "whats" "Whats" "".

(** C10 as stated fails: [com.whats] does not contain [com.whatsapp], yet
    the sticker substitution changes the result. *)
Lemma sticker_rule_not_redundant :
  occurs (source_token primary_whats) (txt "com." ++ new_package_name primary_whats) = false /\
  xml_rewrite (XmlProcessor_init primary_whats)
    (android_name ++ txt "com.whatsappapp" ++ sticker_read) =
    Some (android_name ++ txt "com.whats" ++ sticker_read) /\
  xml_rewrite_without_sticker (XmlProcessor_init primary_whats)
    (android_name ++ txt "com.whatsappapp" ++ sticker_read) =
    Some (android_name ++ txt "com.whatsapp" ++ sticker_read).
Proof. repeat split; vm_compute; reflexivity. Qed.

End StickerRule.

(** ** Applying a rule set twice *)

Module Idempotence.
Import Regex RegexFacts Clone Reference CloneFacts Jobs.

Lemma sub_quiet (r : regex) (t : template) (s : text) :
  template_ok r t = true -> no_match r s = true -> sub r t s = Some s.
Proof.
  intros Hok Hq. rewrite sub_some by assumption. f_equal.
  now apply scan_no_match.
Qed.

(** The job of the tool's own usage example:
    [--whatsapp-type 1 --mode 2 --package mywhatsapp --name MyWhatsApp]. *)
Definition primary_mywhatsapp : WhatsAppCloneConfig :=
  job "WhatsApp" "mywhatsapp" "MyWhatsApp" "".


End Idempotence.

(** ** Delimiters *)

Module Delimiters.
Import Regex Clone Jobs.

(** The job [--whatsapp-type 2 --mode 2 --package w4b --name W4B]. *)
Definition business_w4b : WhatsAppCloneConfig := job "WhatsApp Business" "w4b" "W4B" "".

(** C7 at the failing input: under the Business label the last rule accepts
    dots as delimiters but writes [whatsapp/w4b] with a slash, so a
    reference written with dots comes out with a slash in it, while the
    same reference written with slashes is rewritten with slashes. *)
Theorem business_restore_writes_slash :
  sub (official_packageP_pattern (SmaliProcessor_init business_w4b))
      (restore (txt "whatsapp/w4b")) (txt ".w4b.util") =
    Some (txt ".whatsapp/w4b.util") /\
  smali_rewrite (SmaliProcessor_init business_w4b) (txt "com.whatsapp.w4b.util.X") =
    Some (txt "com.whatsapp.whatsapp/w4b.util.X") /\
  smali_rewrite (SmaliProcessor_init business_w4b) (txt "Lcom/whatsapp/w4b/util/X;") =
    Some (txt "Lcom/whatsapp/w4b/util/X;").
Proof. repeat split; vm_compute; reflexivity. Qed.

End Delimiters.

(** ** The main substitution under the Primary label *)

Module PrimarySmali.
Import Regex RegexFacts Clone Reference CloneFacts Jobs CustomToken LeadingCom StickerRule.

Lemma run_eps (s : text) (g : captures) : run REps s g = [(s, g)].
Proof. reflexivity. Qed.

(** [com(/)whatsapp] with [com\1<name>] is a literal replacement. *)
Lemma default_rule_replace (d : ascii) (name s : text) :
  sub (com_whatsapp d REps) (com_ref1 name) s =
  Some (str_replace (com_d_whatsapp d) (txt "com" ++ d :: name) s).
Proof.
  rewrite sub_some by (rewrite template_ok_com_ref1; reflexivity).
  f_equal. unfold str_replace. apply scan_is_replace.
  - discriminate.
  - intros s0 H. unfold rmatch. rewrite run_com_whatsapp. now rewrite H.
  - intros rest. unfold rmatch. rewrite run_com_whatsapp, starts_with_app.
    change 12 with (length (com_d_whatsapp d)). rewrite skipn_app_exact.
    rewrite run_eps. eexists. split; [reflexivity|].
    rewrite expand_com_ref1. reflexivity.
Qed.

(** So is the rule made from a custom token that has a dot. *)
Lemma custom_rule_replace (d : ascii) (token name s : text) :
  In dot token ->
  sub (custom_rx (RChr d) 1 token) (com_ref1 name) s =
  Some (str_replace (replace_char dot d token) (txt "com" ++ d :: name) s).
Proof.
  intros Hdot.
  rewrite sub_some
    by (rewrite template_ok_com_ref1; apply Nat.leb_le; now apply groups_custom).
  f_equal. unfold str_replace. apply scan_is_replace.
  - destruct token; [easy|discriminate].
  - intros s0 H. unfold rmatch. rewrite run_custom. now rewrite H.
  - intros rest. unfold rmatch. rewrite run_custom, starts_with_app.
    rewrite <- (replace_char_length dot d token), skipn_app_exact.
    eexists. split; [reflexivity|].
    rewrite expand_com_ref1, group_custom_caps_first by assumption.
    reflexivity.
Qed.

Lemma primary_main_replace (cfg : WhatsAppCloneConfig) (content : text) :
  is_business cfg = false ->
  (has_custom cfg = true -> In dot (custom_search_pattern cfg)) ->
  smali_main (SmaliProcessor_init cfg) content =
  Some (str_replace (source_token cfg) (txt "com." ++ new_package_name cfg)
          (str_replace (replace_char dot slash (source_token cfg))
             (txt "com/" ++ new_package_name_path cfg) content)).
Proof.
  intros Hb Hdot. unfold smali_main, source_token.
  cbn [smali_config SmaliProcessor_init package_pattern1 package_pattern2].
  rewrite Hb. destruct (has_custom cfg) eqn:Hc; cbn [fst snd].
  - specialize (Hdot eq_refl).
    rewrite (custom_rule_replace slash) by assumption. cbn [bind].
    rewrite (custom_rule_replace dot) by assumption.
    now rewrite replace_char_same.
  - rewrite (default_rule_replace slash). cbn [bind].
    now rewrite (default_rule_replace dot).
Qed.

(** X1: under the Primary label the main substitution of the smali
    rewrite is two literal replacements, first of the slash form of the
    searched token by [com/<path>], then of the token as written by
    [com.<package>]; the token is [com.whatsapp] or the custom one, which
    must hold a dot. *)
Theorem primary_main_is_two_replacements (cfg : WhatsAppCloneConfig) (content : text) :
  is_business cfg = false ->
  (has_custom cfg = true -> In dot (custom_search_pattern cfg)) ->
  plain_name (new_package_name cfg) = true ->
  plain_name (new_package_name_path cfg) = true ->
  smali_main (SmaliProcessor_init cfg) content =
  Some (str_replace (source_token cfg) (txt "com." ++ new_package_name cfg)
          (str_replace (replace_char dot slash (source_token cfg))
             (txt "com/" ++ new_package_name_path cfg) content)).
Proof. intros Hb Hdot _ _. now apply primary_main_replace. Qed.

Lemma primary_main_is_two_replacements_witness :
  smali_main (SmaliProcessor_init primary_myapp) (txt "Lcom/whatsapp/Main; com.whatsapp.X") =
  Some (txt "Lcom/myapp/Main; com.myapp.X").
Proof.
  rewrite (@primary_main_is_two_replacements primary_myapp);
    [reflexivity|reflexivity|discriminate|reflexivity|reflexivity].
Defined.

Lemma groups_custom_none (d : regex) (token : text) :
  ~ In dot token -> groups d = 0 -> forall n, groups (custom_rx d n token) = 0.
Proof.
  intros Hno Hd. induction token as [|c token IH]; intros n; [reflexivity|].
  cbn [custom_rx]. destruct (Ascii.eqb c dot) eqn:E.
  - apply Ascii.eqb_eq in E. subst c. exfalso. apply Hno. now left.
  - cbn [groups]. apply IH. intros H. apply Hno. now right.
Qed.

Lemma business_main_total (cfg : WhatsAppCloneConfig) (content : text) :
  is_business cfg = true ->
  exists out, smali_main (SmaliProcessor_init cfg) content = Some out.
Proof.
  intros Hb. unfold smali_main. cbn [smali_config SmaliProcessor_init]. rewrite Hb.
  rewrite (explicit_w4b_replace slash). cbn [bind].
  rewrite (explicit_w4b_replace dot). cbn [bind].
  rewrite (core_wa_identity slash). cbn [bind].
  rewrite (core_wa_identity dot). eauto.
Qed.

Lemma smali_official_total (cfg : WhatsAppCloneConfig) (content : text) :
  exists out, smali_official (SmaliProcessor_init cfg) content = Some out.
Proof.
  unfold smali_official.
  cbn [smali_config SmaliProcessor_init official_package_pattern
       official_packageP_pattern].
  destruct (is_business cfg);
    rewrite sub_some by apply template_ok_restore; cbn [bind];
    rewrite sub_some by apply template_ok_restore; eauto.
Qed.

Lemma xml_rewrite_total (cfg : WhatsAppCloneConfig) (content : text) :
  exists out, xml_rewrite (XmlProcessor_init cfg) content = Some out.
Proof.
  unfold xml_rewrite, xml_official.
  repeat (rewrite sub_some by apply template_ok_tlit; cbn [bind]).
  cbn [xml_config XmlProcessor_init xml_official_package_pattern].
  destruct (is_business cfg); rewrite sub_some by apply template_ok_restore; eauto.
Qed.

Lemma primary_main_raises (cfg : WhatsAppCloneConfig) (content : text) :
  is_business cfg = false -> has_custom cfg = true ->
  ~ In dot (custom_search_pattern cfg) ->
  smali_main (SmaliProcessor_init cfg) content = None.
Proof.
  intros Hb Hc Hno. unfold smali_main.
  cbn [smali_config SmaliProcessor_init package_pattern1 package_pattern2].
  rewrite Hb, Hc. cbn [fst snd]. unfold sub at 1.
  rewrite template_ok_com_ref1, groups_custom_none by easy. reflexivity.
Qed.

(** X2: for a job whose names [re] reads literally, the smali rewrite
    raises on exactly one kind of job, the Primary label with a custom
    token that holds no dot, and then for every text; the xml rewrite
    never raises. *)
Theorem rewrite_raises_only_without_dot (cfg : WhatsAppCloneConfig) (content : text) :
  plain_name (new_package_name cfg) = true ->
  plain_name (new_package_name_path cfg) = true ->
  plain_name (new_folder_name cfg) = true ->
  (smali_rewrite (SmaliProcessor_init cfg) content = None <->
   is_business cfg = false /\ has_custom cfg = true /\
   ~ In dot (custom_search_pattern cfg)) /\
  xml_rewrite (XmlProcessor_init cfg) content <> None.
Proof.
  intros _ _ _. split.
  - unfold smali_rewrite. split.
    + intros H. destruct (is_business cfg) eqn:Hb.
      * destruct (business_main_total cfg content Hb) as [c1 E]. rewrite E in H.
        cbn [bind] in H. destruct (smali_official_total cfg c1) as [c2 E2].
        congruence.
      * split; [reflexivity|].
        destruct (has_custom cfg) eqn:Hc;
          destruct (in_dec ascii_dec dot (custom_search_pattern cfg)) as [Hin|Hno];
          auto; exfalso;
          rewrite primary_main_replace in H
            by (try assumption; intros; try assumption; congruence);
          cbn [bind] in H;
          match type of H with
          | smali_official _ ?c = None =>
              destruct (smali_official_total cfg c) as [c2 E2]; congruence
          end.
    + intros [Hb [Hc Hno]]. now rewrite primary_main_raises.
  - destruct (xml_rewrite_total cfg content) as [out ->]. discriminate.
Qed.

Lemma rewrite_raises_only_without_dot_witness :
  smali_rewrite (SmaliProcessor_init (job "WhatsApp" "myapp" "MyApp" "orgfoo"))
    (txt "Lorgfoo/Bar;") = None /\
  xml_rewrite (XmlProcessor_init (job "WhatsApp" "myapp" "MyApp" "orgfoo"))
    (txt "orgfoo") <> None.
Proof.
  split.
  - apply (proj1 (@rewrite_raises_only_without_dot
                    (job "WhatsApp" "myapp" "MyApp" "orgfoo") (txt "Lorgfoo/Bar;")
                    eq_refl eq_refl eq_refl)).
    repeat split; try reflexivity.
    simpl. intuition discriminate.
  - apply (proj2 (@rewrite_raises_only_without_dot
                    (job "WhatsApp" "myapp" "MyApp" "orgfoo") (txt "orgfoo")
                    eq_refl eq_refl eq_refl)).
Defined.

End PrimarySmali.

(** ** What the rewritten text no longer holds *)

Module Leftovers.
Import Regex RegexFacts Clone Reference CloneFacts Jobs StickerRule
       ProtectedModules Idempotence.

Lemma occurs_split (p s : text) :
  occurs p s = true -> exists a b, s = a ++ p ++ b.
Proof.
  induction s as [|c s IH]; cbn [occurs].
  - rewrite orb_false_r. intros H. apply starts_with_split in H.
    exists [], (skipn (length p) []). exact H.
  - intros H. apply orb_prop in H as [H|H].
    + apply starts_with_split in H. exists [], (skipn (length p) (c :: s)).
      exact H.
    + destruct (IH H) as [a [b ->]]. now exists (c :: a), b.
Qed.

(** The xml rewrite under the Primary label ends with the dot rule. *)
Lemma primary_xml_is_last_scan (cfg : WhatsAppCloneConfig) (content out : text) :
  is_business cfg = false ->
  xml_rewrite (XmlProcessor_init cfg) content = Some out ->
  exists x,
    out = scan (official_rx (RChr dot) (new_package_name cfg) (RChr dot))
               (restore (txt "whatsapp")) x 0.
Proof.
  intros Hb. unfold xml_rewrite, xml_official.
  cbn [xml_config XmlProcessor_init xml_official_package_pattern]. rewrite Hb.
  repeat (rewrite sub_some by apply template_ok_tlit; cbn [bind]).
  rewrite sub_some by apply template_ok_restore.
  intros H. injection H as <-. eauto.
Qed.

(** X3: under the Primary label, when the new name holds no delimiter and
    is told apart from [whatsapp] and from the module names ([safe]), the
    text the smali rewrite writes holds no
    [<delimiter><path><delimiter><module>] for any of the two delimiters,
    and the text the xml rewrite writes holds no [.<package>.<module>]:
    every protected module is back in the original namespace. *)
Theorem protected_modules_never_renamed (cfg : WhatsAppCloneConfig) :
  is_business cfg = false ->
  (safe [dot; slash] (new_package_name_path cfg) (txt "whatsapp") = true ->
   forall content out d1 d2 m before rest,
     smali_rewrite (SmaliProcessor_init cfg) content = Some out ->
     In d1 [dot; slash] -> In d2 [dot; slash] -> In m OFFICIAL_MODULES ->
     out <> before ++ d1 :: new_package_name_path cfg ++ d2 :: m ++ rest) /\
  (safe [dot] (new_package_name cfg) (txt "whatsapp") = true ->
   forall content out m before rest,
     xml_rewrite (XmlProcessor_init cfg) content = Some out ->
     In m OFFICIAL_MODULES ->
     out <> before ++ dot :: new_package_name cfg ++ dot :: m ++ rest).
Proof.
  intros Hb. split.
  - intros Hsafe content out d1 d2 m before rest Hout H1 H2 Hm E.
    apply primary_rewrite_is_last_scan in Hout as [x Hx]; [|assumption].
    rewrite E in Hx. symmetry in Hx.
    apply (@restore_clean dot_or_slash [dot; slash] (new_package_name_path cfg)
             (txt "whatsapp") delim_rx_dot_or_slash Hsafe) in Hx.
    revert Hx.
    apply (@official_match_intro dot_or_slash [dot; slash]
             (new_package_name_path cfg) delim_rx_dot_or_slash d1 d2 m rest);
      auto using accepts_in.
  - intros Hsafe content out m before rest Hout Hm E.
    apply primary_xml_is_last_scan in Hout as [x Hx]; [|assumption].
    rewrite E in Hx. symmetry in Hx.
    apply (@restore_clean (RChr dot) [dot] (new_package_name cfg)
             (txt "whatsapp") delim_rx_dot Hsafe) in Hx.
    revert Hx.
    apply (@official_match_intro (RChr dot) [dot] (new_package_name cfg)
             delim_rx_dot dot dot m rest); auto.
Qed.

Lemma protected_modules_never_renamed_witness :
  txt "com/whatsapp/util/Foo" <>
    txt "com" ++ slash :: new_package_name_path primary_myapp ++ slash :: txt "util" ++ txt "/Foo".
Proof.
  destruct (@protected_modules_never_renamed primary_myapp eq_refl) as [H _].
  apply (H eq_refl (txt "com/whatsapp/util/Foo") _ slash slash (txt "util")
           (txt "com") (txt "/Foo")); vm_compute; tauto.
Defined.

(** X4: under the same conditions, with one name for the package and its
    path, running the two protected-module rules of the smali rewrite on
    their own output changes nothing; the same holds for the rule of the
    xml rewrite. *)
Theorem protected_module_rules_idempotent (cfg : WhatsAppCloneConfig)
        (content out : text) :
  is_business cfg = false ->
  (new_package_name cfg = new_package_name_path cfg ->
   safe [dot; slash] (new_package_name_path cfg) (txt "whatsapp") = true ->
   smali_official (SmaliProcessor_init cfg) content = Some out ->
   smali_official (SmaliProcessor_init cfg) out = Some out) /\
  (safe [dot] (new_package_name cfg) (txt "whatsapp") = true ->
   xml_official (XmlProcessor_init cfg) content = Some out ->
   xml_official (XmlProcessor_init cfg) out = Some out).
Proof.
  intros Hb. split.
  - intros Hname Hsafe. unfold smali_official.
    cbn [smali_config SmaliProcessor_init official_package_pattern
         official_packageP_pattern]. rewrite Hb, Hname.
    set (name := new_package_name_path cfg) in *.
    rewrite sub_some by apply template_ok_restore. cbn [bind].
    rewrite sub_some by apply template_ok_restore.
    intros H. injection H as H.
    assert (H2 : no_match (official_rx dot_or_slash name dot_or_slash) out = true).
    { apply no_match_intro. intros a b Hab. rewrite <- H in Hab.
      now apply (@restore_clean dot_or_slash [dot; slash] name (txt "whatsapp")
                   delim_rx_dot_or_slash Hsafe) in Hab. }
    assert (H1 : no_match (official_rx (RChr dot) name (RChr dot)) out = true).
    { apply no_match_intro. intros a b Hab.
      destruct (rmatch (official_rx (RChr dot) name (RChr dot)) b)
        as [[rest g]|] eqn:E; [exfalso|reflexivity].
      apply (official_match_inv name (txt "whatsapp") delim_rx_dot) in E
        as [d1 [d2 [m [Hd1 [Hd2 [Hm [E _]]]]]]].
      rewrite <- H in Hab. rewrite E in Hab.
      apply (@restore_clean dot_or_slash [dot; slash] name (txt "whatsapp")
               delim_rx_dot_or_slash Hsafe) in Hab.
      revert Hab.
      apply (@official_match_intro dot_or_slash [dot; slash] name
               delim_rx_dot_or_slash d1 d2 m rest);
        auto using accepts_dot_sub. }
    rewrite sub_quiet by (auto using template_ok_restore). cbn [bind].
    now rewrite sub_quiet by (auto using template_ok_restore).
  - intros Hsafe. unfold xml_official.
    cbn [xml_config XmlProcessor_init xml_official_package_pattern]. rewrite Hb.
    rewrite sub_some by apply template_ok_restore.
    intros H. injection H as H.
    apply sub_quiet; [apply template_ok_restore|].
    apply no_match_intro. intros a b Hab. rewrite <- H in Hab.
    now apply (@restore_clean (RChr dot) [dot] (new_package_name cfg)
                 (txt "whatsapp") delim_rx_dot Hsafe) in Hab.
Qed.

Lemma protected_module_rules_idempotent_witness :
  smali_official (SmaliProcessor_init primary_myapp) (txt "com/whatsapp/util/Foo") =
    Some (txt "com/whatsapp/util/Foo") /\
  xml_official (XmlProcessor_init primary_myapp) (txt "com.whatsapp.util") =
    Some (txt "com.whatsapp.util").
Proof.
  split.
  - apply (proj1 (@protected_module_rules_idempotent primary_myapp
                    (txt "com/myapp/util/Foo") (txt "com/whatsapp/util/Foo") eq_refl));
      reflexivity.
  - apply (proj2 (@protected_module_rules_idempotent primary_myapp
                    (txt "com.myapp.util") (txt "com.whatsapp.util")
                    eq_refl)); reflexivity.
Defined.

(** X5: when the searched token and [com.<package>] do not overlap, the
    package rule of the xml rewrite leaves no occurrence of the token in
    the text, and running it again changes nothing. *)
Theorem package_rule_complete (cfg : WhatsAppCloneConfig) (content out : text) :
  no_overlap (source_token cfg) (txt "com." ++ new_package_name cfg) = true ->
  plain_name (new_package_name cfg) = true ->
  sub (package_pattern (XmlProcessor_init cfg))
      (tlit (txt "com." ++ new_package_name cfg)) content = Some out ->
  occurs (source_token cfg) out = false /\
  sub (package_pattern (XmlProcessor_init cfg))
      (tlit (txt "com." ++ new_package_name cfg)) out = Some out.
Proof.
  intros Hno _. rewrite sub_some by apply template_ok_tlit.
  intros H. injection H as H.
  set (p := XmlProcessor_init cfg) in *.
  set (new := txt "com." ++ new_package_name cfg) in *.
  assert (Hclean : forall a b, out = a ++ b -> rmatch (package_pattern p) b = None).
  { intros a b Hab. rewrite <- H in Hab.
    apply (@replaced_clean (package_pattern p) (tlit new) (source_token cfg) new
             (source_token_matches cfg)) in Hab; auto.
    - intros s rest0 g _. apply expand_tlit.
    - apply package_pattern_consuming. }
  split.
  - destruct (occurs (source_token cfg) out) eqn:E; [exfalso|reflexivity].
    apply occurs_split in E as [a [b E]].
    apply Hclean in E. revert E. apply source_token_matches, starts_with_app.
  - apply sub_quiet; [apply template_ok_tlit|]. now apply no_match_intro.
Qed.

Lemma package_rule_complete_witness :
  occurs (source_token primary_myapp) (txt "<manifest package=com.myapp>") = false /\
  sub (package_pattern (XmlProcessor_init primary_myapp))
      (tlit (txt "com." ++ new_package_name primary_myapp))
      (txt "<manifest package=com.myapp>") = Some (txt "<manifest package=com.myapp>").
Proof.
  apply (@package_rule_complete primary_myapp (txt "<manifest package=com.whatsapp>"));
    reflexivity.
Defined.

End Leftovers.

(** ** Jobs from the command line *)

Module CommandLine.
Import Regex RegexFacts Clone Reference CloneFacts Jobs Runner CustomToken
       BusinessXml.

(** [WhatsAppCloneConfig.__init__] *)
Definition WhatsAppCloneConfig_init : WhatsAppCloneConfig :=
  {| root_folder := "";
     current_folder_name := [];
     new_package_name := [];
     new_folder_name := [];
     new_package_name_path := [];
     custom_search_pattern := [];
     max_workers := 8 |}.

(** [setup_from_args].  A missing option ([None]) and an empty one are
    both the empty text: the function only tests them with [not].
    [None] is [sys.exit(1)]. *)
Definition setup_from_args (config : WhatsAppCloneConfig)
           (whatsapp_type mode : nat) (package name search_pattern : text)
  : option WhatsAppCloneConfig :=
  let current := if Nat.eqb whatsapp_type 1 then txt "WhatsApp" else txt "WhatsApp Business" in
  let default_pkg := if Nat.eqb whatsapp_type 1 then txt "whatsapp" else txt "whatsapp.w4b" in
  let named (pkg folder search : text) :=
    {| root_folder := root_folder config;
       current_folder_name := current;
       new_package_name := pkg;
       new_folder_name := folder;
       new_package_name_path := replace_char dot slash pkg;
       custom_search_pattern := search;
       max_workers := max_workers config |} in
  match mode with
  | 1 =>
      Some (named default_pkg
                  (if Nat.eqb whatsapp_type 1 then txt "WhatsApp" else txt "WhatsApp Business")
                  (custom_search_pattern config))
  | 2 =>
      if is_empty package || is_empty name then None
      else Some (named package name (custom_search_pattern config))
  | 3 =>
      if is_empty package || is_empty name || is_empty search_pattern then None
      else Some (named package name search_pattern)
  | _ =>
      Some (named (new_package_name config) (new_folder_name config)
                  (custom_search_pattern config))
  end.

(** X6: a job that [setup_from_args] builds in one of its three modes is
    never turned down by [validate_config] for an empty name, only for a
    root folder that is no directory; its label is Business for every
    type but 1 (type 3 included), and its path is its package name with
    the dots turned into slashes. *)
Theorem command_line_job_has_names
        (config cfg : WhatsAppCloneConfig) (whatsapp_type mode : nat)
        (package name search_pattern : text) (isdir : string -> bool) :
  In mode [1; 2; 3] ->
  setup_from_args config whatsapp_type mode package name search_pattern = Some cfg ->
  validate_config isdir cfg =
    (if isdir (root_folder config) then None else Some FolderDoesNotExist) /\
  is_business cfg = negb (Nat.eqb whatsapp_type 1) /\
  new_package_name_path cfg = replace_char dot slash (new_package_name cfg).
Proof.
  intros Hmode H. unfold setup_from_args in H.
  destruct Hmode as [<-|[<-|[<-|[]]]].
  - injection H as <-. unfold validate_config. cbn [root_folder new_package_name
      new_folder_name new_package_name_path].
    destruct (Nat.eqb whatsapp_type 1); destruct (isdir (root_folder config));
      repeat split; reflexivity.
  - destruct package as [|c package]; [easy|]. destruct name as [|c' name]; [easy|].
    cbn in H. injection H as <-. unfold validate_config. cbn [root_folder
      new_package_name new_folder_name new_package_name_path].
    destruct (Nat.eqb whatsapp_type 1); destruct (isdir (root_folder config));
      repeat split; reflexivity.
  - destruct package as [|c package]; [easy|]. destruct name as [|c' name]; [easy|].
    destruct search_pattern as [|c'' search_pattern]; [easy|].
    cbn in H. injection H as <-. unfold validate_config. cbn [root_folder
      new_package_name new_folder_name new_package_name_path].
    destruct (Nat.eqb whatsapp_type 1); destruct (isdir (root_folder config));
      repeat split; reflexivity.
Qed.

Lemma command_line_job_has_names_witness :
  validate_config (fun _ => true)
    (job "WhatsApp Business" "mywhatsapp" "MyWhatsApp" "") = None.
Proof.
  apply (@command_line_job_has_names
           {| root_folder := "/decompiled"; current_folder_name := [];
              new_package_name := []; new_folder_name := [];
              new_package_name_path := []; custom_search_pattern := [];
              max_workers := 4 |}
           (job "WhatsApp Business" "mywhatsapp" "MyWhatsApp" "")
           3 2 (txt "mywhatsapp") (txt "MyWhatsApp") [] (fun _ => true)).
  - simpl. tauto.
  - reflexivity.
Defined.

(** *** Rules that write back what they match *)

Lemma default_rule_identity (d : ascii) (s : text) :
  sub (com_whatsapp d REps) (com_ref1 (txt "whatsapp")) s = Some s.
Proof.
  rewrite sub_some by (rewrite template_ok_com_ref1; reflexivity).
  f_equal. apply scan_self. intros m rest g H. unfold rmatch in H.
  rewrite run_com_whatsapp in H.
  destruct (starts_with (com_d_whatsapp d) (m ++ rest)) eqn:E; [|easy].
  apply starts_with_split in E. change (length (com_d_whatsapp d)) with 12 in E.
  remember (skipn 12 (m ++ rest)) as q eqn:Hq. clear Hq.
  cbn [run hd_error] in H. injection H as H1 H2. subst g q.
  apply app_inv_tail in E. subst m. split; [discriminate|].
  rewrite expand_com_ref1. reflexivity.
Qed.

Lemma explicit_rule_identity (d : ascii) (s : text) :
  sub (com_whatsapp d (RGrp 2 (lit (w4b d))))
      (com_ref1 (txt "whatsapp" ++ w4b d)) s = Some s.
Proof.
  rewrite sub_some by (rewrite template_ok_com_ref1; reflexivity).
  f_equal. apply scan_self. intros m rest g H. unfold rmatch in H.
  rewrite run_com_whatsapp in H.
  destruct (starts_with (com_d_whatsapp d) (m ++ rest)) eqn:E; [|easy].
  apply starts_with_split in E. change (length (com_d_whatsapp d)) with 12 in E.
  remember (skipn 12 (m ++ rest)) as q eqn:Hq. clear Hq.
  rewrite run_grp_lit in H.
  destruct (starts_with (w4b d) q) eqn:E2; [|easy].
  apply starts_with_split in E2. cbn [hd_error] in H.
  assert (Hr : skipn (length (w4b d)) q = rest) by congruence.
  injection H as _ Hg.
  rewrite Hr in E2. rewrite E2 in E. subst g.
  rewrite app_assoc in E. apply app_inv_tail in E. subst m.
  split; [discriminate|]. rewrite expand_com_ref1. reflexivity.
Qed.

Lemma official_rule_identity (D : regex) (ds : list ascii) (name s : text) :
  delim_rx D ds ->
  sub (official_rx D name D) (restore name) s = Some s.
Proof.
  intros HD. rewrite sub_some by apply template_ok_restore.
  f_equal. apply scan_self. intros m rest g H.
  apply (official_match_inv name name HD) in H
    as [d1 [d2 [m' [_ [_ [_ [E Hexp]]]]]]].
  assert (EM : d1 :: name ++ d2 :: m' ++ rest = (d1 :: name ++ d2 :: m') ++ rest).
  { cbn [app]. now rewrite <- app_assoc. }
  rewrite EM in E. apply app_inv_tail in E. subst m.
  split; [discriminate|exact Hexp].
Qed.

Lemma literal_rule_identity (p s : text) :
  p <> [] -> sub (lit p) (tlit p) s = Some s.
Proof.
  intros Hp. rewrite sub_some by apply template_ok_tlit.
  f_equal. apply scan_self. intros m rest g H.
  assert (E : m ++ rest = p ++ rest) by (apply rmatch_lit; eauto).
  apply app_inv_tail in E. subst m. split; [assumption|apply expand_tlit].
Qed.

Lemma sticker_rule_identity (p s : text) :
  sub (RCat (lit android_name) (RCat (lit p) (lit sticker_read)))
      (tlit (android_name ++ p ++ sticker_read)) s = Some s.
Proof.
  rewrite sub_some by apply template_ok_tlit.
  f_equal. apply scan_self. intros m rest g H.
  apply rmatch_in, in_run_cat in H as [s1 [g1 [H1 H2]]].
  apply in_run_lit in H1 as [E1 ->].
  apply in_run_cat in H2 as [s2 [g2 [H2 H3]]].
  apply in_run_lit in H2 as [E2 ->].
  apply in_run_lit in H3 as [E3 ->].
  rewrite E2, E3 in E1. rewrite !app_assoc in E1. apply app_inv_tail in E1.
  subst m. rewrite <- !app_assoc. split; [discriminate|apply expand_tlit].
Qed.

(** X7: the automatic mode of the command line renames nothing in smali
    files: the job [setup_from_args] builds in mode 1 carries the original
    names, every rule writes back what it matches, and the smali rewrite
    returns every text as it is, under either label; for type 1 so does
    the xml rewrite. *)
Theorem automatic_mode_rewrites_nothing
        (config cfg : WhatsAppCloneConfig) (whatsapp_type : nat)
        (package name search_pattern content : text) :
  custom_search_pattern config = [] ->
  setup_from_args config whatsapp_type 1 package name search_pattern = Some cfg ->
  smali_rewrite (SmaliProcessor_init cfg) content = Some content /\
  (whatsapp_type = 1 -> xml_rewrite (XmlProcessor_init cfg) content = Some content).
Proof.
  intros Hc H. cbn in H. rewrite Hc in H. injection H as <-.
  destruct (Nat.eqb whatsapp_type 1) eqn:Et; split.
  - unfold smali_rewrite, smali_main, smali_official.
    cbn [smali_config SmaliProcessor_init package_pattern1 package_pattern2
         official_package_pattern official_packageP_pattern new_package_name
         new_package_name_path fst snd].
    change (is_business _) with false. change (has_custom _) with false.
    cbn [fst snd].
    rewrite (default_rule_identity slash). cbn [bind].
    rewrite (default_rule_identity dot). cbn [bind].
    rewrite (official_rule_identity _ _ delim_rx_dot). cbn [bind].
    apply (official_rule_identity _ _ delim_rx_dot_or_slash).
  - intros _. unfold xml_rewrite, xml_official.
    cbn [xml_config XmlProcessor_init package_pattern sticker_pattern
         folder_pattern xml_official_package_pattern new_package_name
         new_folder_name current_folder_name].
    change (is_business _) with false. change (has_custom _) with false.
    rewrite (literal_rule_identity (p := txt "com.whatsapp")) by discriminate.
    cbn [bind]. rewrite (sticker_rule_identity (txt "com.whatsapp")). cbn [bind].
    rewrite (literal_rule_identity (p := txt "WhatsApp")) by discriminate.
    cbn [bind]. apply (official_rule_identity _ _ delim_rx_dot).
  - unfold smali_rewrite, smali_main, smali_official.
    cbn [smali_config SmaliProcessor_init official_package_pattern
         official_packageP_pattern new_package_name new_package_name_path].
    change (is_business _) with true.
    rewrite (explicit_rule_identity slash). cbn [bind].
    rewrite (explicit_rule_identity dot). cbn [bind].
    rewrite (core_wa_identity slash). cbn [bind].
    rewrite (core_wa_identity dot). cbn [bind].
    rewrite (official_rule_identity _ _ delim_rx_dot). cbn [bind].
    apply (official_rule_identity _ _ delim_rx_dot_or_slash).
  - intros ->. discriminate.
Qed.

Lemma automatic_mode_rewrites_nothing_witness :
  smali_rewrite (SmaliProcessor_init (job "WhatsApp" "whatsapp" "WhatsApp" ""))
    (txt "Lcom/whatsapp/util/Foo; com.whatsapp.Main") =
  Some (txt "Lcom/whatsapp/util/Foo; com.whatsapp.Main").
Proof.
  apply (@automatic_mode_rewrites_nothing
           {| root_folder := "/decompiled"; current_folder_name := [];
              new_package_name := []; new_folder_name := [];
              new_package_name_path := []; custom_search_pattern := [];
              max_workers := 4 |}
           (job "WhatsApp" "whatsapp" "WhatsApp" "") 1 [] [] []);
    reflexivity.
Defined.

End CommandLine.

(** ** What a run leaves on disk *)

Module Disk.
Import Regex RegexFacts Clone Reference CloneFacts Jobs Runner RunnerFacts
       PrimarySmali.

(** The file [process_file] leaves where it found [o]: rewritten when it
    could be read, rewritten and written back, untouched otherwise. *)
Definition processed {P : Type} `{FileProcessor P} (p : P) (o : option file)
  : option file :=
  match o with
  | None => None
  | Some f =>
      if readable f && writable f then
        match rewrite p (data f) with
        | Some content => Some (mkFile (readable f) (writable f) content)
        | None => Some f
        end
      else Some f
  end.

Section OneProcessor.
Context {P : Type} `{FileProcessor P} (p : P).

Lemma process_file_after (fs : filesystem) (path q : string) :
  after (process_file p fs path) q =
  if String.eqb q path then processed p (fs path) else fs q.
Proof.
  unfold process_file, read_text, write_text, processed.
  destruct (String.eqb q path) eqn:Eq.
  - apply String.eqb_eq in Eq. subst q.
    destruct (fs path) as [f|] eqn:E; [|exact E].
    destruct (readable f) eqn:Er; [|exact E].
    destruct (rewrite p (data f)) as [content|].
    + destruct (writable f) eqn:Ew; cbn [andb after failed].
      * unfold write. now rewrite String.eqb_refl.
      * exact E.
    + destruct (writable f); exact E.
  - destruct (fs path) as [f|]; [|reflexivity].
    destruct (readable f); [|reflexivity].
    destruct (rewrite p (data f)); [|reflexivity].
    destruct (writable f); [|reflexivity].
    cbn [after]. unfold write. now rewrite Eq.
Qed.

Lemma map_files_after (files : list string) :
  NoDup files ->
  forall fs q,
    snd (fst (map_files p fs files)) q =
    if existsb (String.eqb q) files then processed p (fs q) else fs q.
Proof.
  induction files as [|path files IH]; intros Hnd fs q; [reflexivity|].
  apply NoDup_cons_iff in Hnd as [Hnot Hnd].
  cbn [map_files existsb].
  specialize (IH Hnd (after (process_file p fs path)) q).
  destruct (map_files p (after (process_file p fs path)) files)
    as [[results fs'] log].
  cbn [fst snd] in *. rewrite IH, process_file_after.
  destruct (String.eqb q path) eqn:Eq; cbn [orb]; [|reflexivity].
  apply String.eqb_eq in Eq. subst q.
  destruct (existsb (String.eqb path) files) eqn:Ex; [|reflexivity].
  apply existsb_exists in Ex as [x [Hx Ex]]. apply String.eqb_eq in Ex.
  now subst x.
Qed.

Lemma process_all_files_accessible (fs : filesystem) (files : list string) (q : string) :
  accessible (files_after (process_all_files p fs files)) q = accessible fs q.
Proof.
  destruct files as [|path files]; [reflexivity|].
  unfold process_all_files.
  pose proof (map_files_account p (path :: files) fs) as Hs.
  destruct (map_files p fs (path :: files)) as [[results fs'] log].
  destruct Hs as [_ [_ [Hacc _]]]. cbn [files_after]. apply Hacc.
Qed.

End OneProcessor.

Lemma process_all_files_after
      (P : Type) (FP : FileProcessor P) (p : P)
      (fs : filesystem) (files : list string) (q : string) :
  NoDup files ->
  files_after (process_all_files p fs files) q =
  if existsb (String.eqb q) files then processed p (fs q) else fs q.
Proof.
  intros Hnd. destruct files as [|path files]; [reflexivity|].
  unfold process_all_files.
  pose proof (map_files_after p Hnd fs q) as Hq.
  destruct (map_files p fs (path :: files)) as [[results fs'] log].
  exact Hq.
Qed.

Lemma smali_rewrite_total (cfg : WhatsAppCloneConfig) (content : text) :
  is_business cfg = true \/ has_custom cfg = false \/
  In dot (custom_search_pattern cfg) ->
  smali_rewrite (SmaliProcessor_init cfg) content <> None.
Proof.
  intros Hjob. unfold smali_rewrite.
  assert (Hmain : exists c1, smali_main (SmaliProcessor_init cfg) content = Some c1).
  { destruct (is_business cfg) eqn:Hb; [now apply business_main_total|].
    rewrite primary_main_replace; [eauto|exact Hb|].
    intros Hc. destruct Hjob as [Hj|[Hj|Hj]]; [discriminate|congruence|exact Hj]. }
  destruct Hmain as [c1 ->]. cbn [bind].
  destruct (smali_official_total cfg c1) as [c2 ->]. discriminate.
Qed.

Lemma xml_rewrite_never_raises (cfg : WhatsAppCloneConfig) (content : text) :
  xml_rewrite (XmlProcessor_init cfg) content <> None.
Proof. destruct (xml_rewrite_total cfg content) as [out ->]. discriminate. Qed.

(** X8: when no path is listed twice, [process_all_files] leaves every
    listed file that it could read and write back with its content
    rewritten once and its permissions as they were, leaves every other
    listed file as it was, and touches no file outside the list. *)
Theorem only_listed_files_are_rewritten
        (P : Type) (FP : FileProcessor P) (p : P)
        (fs : filesystem) (files : list string) (q : string) :
  NoDup files ->
  files_after (process_all_files p fs files) q =
  if existsb (String.eqb q) files then processed p (fs q) else fs q.
Proof. apply process_all_files_after. Qed.

Definition three_files : list string :=
  [ "smali/A.smali"; "smali/B.smali"; "smali/C.smali" ]%string.

(** Three files; the second is read-only. *)
Definition three_fs : filesystem :=
  fun path =>
    if String.eqb path "smali/B.smali"
    then Some (mkFile true false (txt "Lcom/whatsapp/Main;"))
    else if existsb (String.eqb path) three_files
         then Some (mkFile true true (txt "Lcom/whatsapp/Main;"))
         else None.

Lemma only_listed_files_are_rewritten_witness :
  option_map data
    (files_after (process_all_files (SmaliProcessor_init primary_myapp)
                    three_fs three_files) "smali/A.smali"%string) =
  Some (txt "Lcom/myapp/Main;") /\
  option_map data
    (files_after (process_all_files (SmaliProcessor_init primary_myapp)
                    three_fs three_files) "smali/B.smali"%string) =
  Some (txt "Lcom/whatsapp/Main;").
Proof.
  assert (Hnd : NoDup three_files).
  { repeat constructor; simpl; intuition discriminate. }
  split.
  - rewrite (@only_listed_files_are_rewritten _ _ (SmaliProcessor_init primary_myapp)
               three_fs three_files "smali/A.smali"%string Hnd).
    reflexivity.
  - rewrite (@only_listed_files_are_rewritten _ _ (SmaliProcessor_init primary_myapp)
               three_fs three_files "smali/B.smali"%string Hnd).
    reflexivity.
Defined.

(** X9: a job that passes [validate_config] and whose names [re] reads
    literally is run over both lists; the files found are the lengths of
    the lists; the xml rewrite cannot raise, so the xml files that succeed
    are exactly those that could be read and written when the run began,
    whatever the smali pass did; and the same holds for the smali files
    unless the job is a Primary one with a custom token without a dot. *)
Theorem run_accounts_for_both_lists
        (isdir : string -> bool) (cfg : WhatsAppCloneConfig) (fs : filesystem)
        (smali_files xml_files : list string) :
  validate_config isdir cfg = None ->
  plain_name (new_package_name cfg) = true ->
  plain_name (new_package_name_path cfg) = true ->
  plain_name (new_folder_name cfg) = true ->
  exists smali xml,
    run isdir cfg fs smali_files xml_files = Completed smali xml /\
    total_files smali = length smali_files /\
    total_files xml = length xml_files /\
    success_count xml = length (filter (accessible fs) xml_files) /\
    (is_business cfg = true \/ has_custom cfg = false \/
     In dot (custom_search_pattern cfg) ->
     success_count smali = length (filter (accessible fs) smali_files)).
Proof.
  intros Hv _ _ _. unfold run. rewrite Hv. do 2 eexists. split; [reflexivity|].
  set (smali := process_all_files (SmaliProcessor_init cfg) fs smali_files).
  assert (Hxml : forall content, rewrite (XmlProcessor_init cfg) content <> None).
  { intros content. apply xml_rewrite_never_raises. }
  destruct (process_all_files_spec (XmlProcessor_init cfg) Hxml
              (files_after smali) xml_files) as [Hx1 [Hx2 _]].
  destruct (process_all_files_account (SmaliProcessor_init cfg) fs smali_files)
    as [Hs1 _].
  split; [exact Hs1|]. split; [exact Hx1|]. split.
  - rewrite Hx2. f_equal. apply filter_ext. intros q.
    apply process_all_files_accessible.
  - intros Hjob.
    assert (Hsm : forall content, rewrite (SmaliProcessor_init cfg) content <> None).
    { intros content. now apply smali_rewrite_total. }
    now destruct (process_all_files_spec (SmaliProcessor_init cfg) Hsm fs smali_files)
      as [_ [Hok _]].
Qed.

Lemma run_accounts_for_both_lists_witness :
  exists smali xml,
    run (fun _ => true) primary_myapp three_fs three_files three_files =
      Completed smali xml /\
    total_files smali = 3 /\ total_files xml = 3 /\ success_count xml = 2 /\
    (is_business primary_myapp = true \/ has_custom primary_myapp = false \/
     In dot (custom_search_pattern primary_myapp) ->
     success_count smali = 2).
Proof.
  apply (@run_accounts_for_both_lists (fun _ => true) primary_myapp
           three_fs three_files three_files); reflexivity.
Defined.

End Disk.

(** ** Dots and slashes under the Primary label *)

Module Separators.
Import Regex RegexFacts Clone Reference CloneFacts Jobs CustomToken.

(** The dots and slashes of a text, in the order they occur. *)
Definition separators (s : text) : text := filter (accepts [dot; slash]) s.

Lemma separators_app (u v : text) :
  separators (u ++ v) = separators u ++ separators v.
Proof. apply filter_app. Qed.

Lemma separators_free (w : text) :
  free [dot; slash] w = true -> separators w = [].
Proof.
  unfold free, separators. induction w as [|c w IH]; [reflexivity|].
  cbn [forallb filter]. intros H. apply andb_prop in H as [Hc Hw].
  apply negb_true_iff in Hc. rewrite Hc. auto.
Qed.

(** A rule whose replacements have the separators of what they replace
    keeps the separators of the text. *)
Lemma scan_separators (r : regex) (t : template) (s : text) :
  (forall m rest g, rmatch r (m ++ rest) = Some (rest, g) ->
                    m <> [] /\ separators (expand t g) = separators m) ->
  separators (scan r t s 0) = separators s.
Proof.
  intros H.
  assert (Hc : consuming r).
  { intros s0 rest g E. destruct (rmatch_suffix _ _ E) as [m ->].
    apply H in E as [Hm _]. rewrite length_app.
    destruct m; [easy|simpl; lia]. }
  remember (length s) as n eqn:Hn. revert s Hn.
  induction n as [n IH] using lt_wf_ind. intros s Hn.
  destruct s as [|c s]; [simpl; now rewrite (consuming_nil Hc)|].
  pose proof (@scan_step r t (c :: s) Hc ltac:(easy)) as Hs.
  destruct (rmatch r (c :: s)) as [[rest g]|] eqn:E.
  - destruct Hs as [m [Hm [Es ->]]]. rewrite Es in E.
    apply H in E as [_ E]. rewrite Es, !separators_app, E. f_equal.
    apply (IH (length rest)); [|reflexivity].
    rewrite Hn, Es, length_app. destruct m; [easy|simpl; lia].
  - destruct Hs as [c' [s' [Es ->]]]. inversion Es; subst.
    change (c' :: scan r t s' 0) with ([c'] ++ scan r t s' 0).
    change (c' :: s') with ([c'] ++ s').
    rewrite !separators_app. f_equal.
    apply (IH (length s')); [simpl; lia|reflexivity].
Qed.

Lemma default_rule_separators (d : ascii) (name s : text) :
  free [dot; slash] name = true ->
  exists out,
    sub (com_whatsapp d REps) (com_ref1 name) s = Some out /\
    separators out = separators s.
Proof.
  intros Hf. rewrite sub_some by (rewrite template_ok_com_ref1; reflexivity).
  eexists. split; [reflexivity|].
  apply scan_separators. intros m rest g H. unfold rmatch in H.
  rewrite run_com_whatsapp in H.
  destruct (starts_with (com_d_whatsapp d) (m ++ rest)) eqn:E; [|easy].
  apply starts_with_split in E. change (length (com_d_whatsapp d)) with 12 in E.
  remember (skipn 12 (m ++ rest)) as q eqn:Hq. clear Hq.
  cbn [run hd_error] in H. injection H as H1 H2. subst g q.
  apply app_inv_tail in E. subst m. split; [discriminate|].
  rewrite expand_com_ref1. cbn [group]. unfold com_d_whatsapp.
  change (txt "com" ++ d :: txt "whatsapp")
    with (txt "com" ++ [d] ++ txt "whatsapp").
  rewrite !separators_app, (separators_free _ Hf). reflexivity.
Qed.

Lemma official_rule_separators (D : regex) (ds : list ascii) (name s : text) :
  delim_rx D ds ->
  free [dot; slash] name = true ->
  exists out,
    sub (official_rx D name D) (restore (txt "whatsapp")) s = Some out /\
    separators out = separators s.
Proof.
  intros HD Hf. rewrite sub_some by apply template_ok_restore.
  eexists. split; [reflexivity|].
  apply scan_separators. intros m rest g H.
  apply (official_match_inv name (txt "whatsapp") HD) in H
    as [d1 [d2 [m' [_ [_ [_ [E Hexp]]]]]]].
  assert (EM : d1 :: name ++ d2 :: m' ++ rest = (d1 :: name ++ d2 :: m') ++ rest).
  { cbn [app]. now rewrite <- app_assoc. }
  rewrite EM in E. apply app_inv_tail in E. subst m.
  split; [discriminate|]. rewrite Hexp.
  change (d1 :: txt "whatsapp" ++ d2 :: m')
    with ([d1] ++ txt "whatsapp" ++ d2 :: m').
  change (d1 :: name ++ d2 :: m') with ([d1] ++ name ++ d2 :: m').
  rewrite !separators_app, (separators_free _ Hf). reflexivity.
Qed.

Lemma literal_rule_separators (p new s : text) :
  p <> [] -> separators new = separators p ->
  exists out,
    sub (lit p) (tlit new) s = Some out /\ separators out = separators s.
Proof.
  intros Hp Hs. rewrite sub_some by apply template_ok_tlit.
  eexists. split; [reflexivity|].
  apply scan_separators. intros m rest g H.
  assert (E : m ++ rest = p ++ rest) by (apply rmatch_lit; eauto).
  apply app_inv_tail in E. subst m. split; [assumption|].
  now rewrite expand_tlit.
Qed.

Lemma sticker_rule_separators (p new s : text) :
  separators new = separators p ->
  exists out,
    sub (RCat (lit android_name) (RCat (lit p) (lit sticker_read)))
        (tlit (android_name ++ new ++ sticker_read)) s = Some out /\
    separators out = separators s.
Proof.
  intros Hs. rewrite sub_some by apply template_ok_tlit.
  eexists. split; [reflexivity|].
  apply scan_separators. intros m rest g H.
  apply rmatch_in, in_run_cat in H as [s1 [g1 [H1 H2]]].
  apply in_run_lit in H1 as [E1 ->].
  apply in_run_cat in H2 as [s2 [g2 [H2 H3]]].
  apply in_run_lit in H2 as [E2 ->].
  apply in_run_lit in H3 as [E3 ->].
  rewrite E2, E3 in E1. rewrite !app_assoc in E1. apply app_inv_tail in E1.
  subst m. rewrite <- !app_assoc. split; [discriminate|].
  rewrite expand_tlit, !separators_app. now rewrite Hs.
Qed.

(** X10: under the Primary label with the default token, when the new
    package name, its path form and the two folder names hold no dot and
    no slash and [re] reads the new names literally, neither rewrite
    adds, drops or exchanges a dot or a slash:
    the separators of the text written are those of the text read, in the
    same order. *)
Theorem primary_rewrite_keeps_separators
        (cfg : WhatsAppCloneConfig) (content : text) :
  is_business cfg = false ->
  has_custom cfg = false ->
  plain_name (new_package_name cfg) = true ->
  plain_name (new_package_name_path cfg) = true ->
  free [dot; slash] (new_package_name cfg) = true ->
  free [dot; slash] (new_package_name_path cfg) = true ->
  (exists out,
      smali_rewrite (SmaliProcessor_init cfg) content = Some out /\
      separators out = separators content) /\
  (current_folder_name cfg <> [] ->
   plain_name (new_folder_name cfg) = true ->
   free [dot; slash] (current_folder_name cfg) = true ->
   free [dot; slash] (new_folder_name cfg) = true ->
   exists out,
     xml_rewrite (XmlProcessor_init cfg) content = Some out /\
     separators out = separators content).
Proof.
  intros Hb Hc _ _ Hpkg Hpath. split.
  - unfold smali_rewrite, smali_main, smali_official.
    cbn [smali_config SmaliProcessor_init package_pattern1 package_pattern2
         official_package_pattern official_packageP_pattern].
    rewrite Hb, Hc. cbn [fst snd].
    destruct (@default_rule_separators slash (new_package_name_path cfg) content Hpath)
      as [c1 [-> E1]].
    cbn [bind].
    destruct (@default_rule_separators dot (new_package_name cfg) c1 Hpkg)
      as [c2 [-> E2]].
    cbn [bind].
    destruct (@official_rule_separators _ _ (new_package_name cfg) c2 delim_rx_dot Hpkg)
      as [c3 [-> E3]].
    cbn [bind].
    destruct (@official_rule_separators _ _ (new_package_name_path cfg) c3
                delim_rx_dot_or_slash Hpath) as [c4 [-> E4]].
    eexists. split; [reflexivity|]. congruence.
  - intros Hne _ Hcur Hnew. unfold xml_rewrite, xml_official.
    cbn [xml_config XmlProcessor_init package_pattern sticker_pattern
         folder_pattern xml_official_package_pattern].
    rewrite Hb, Hc.
    assert (Hs : separators (txt "com." ++ new_package_name cfg) =
                 separators (txt "com.whatsapp")).
    { rewrite separators_app, (separators_free _ Hpkg). reflexivity. }
    destruct (@literal_rule_separators (txt "com.whatsapp")
                (txt "com." ++ new_package_name cfg) content
                ltac:(discriminate) Hs) as [c1 [-> E1]].
    cbn [bind].
    destruct (@sticker_rule_separators (txt "com.whatsapp")
                (txt "com." ++ new_package_name cfg) c1 Hs) as [c2 [E E2]].
    rewrite <- app_assoc in E. rewrite E. cbn [bind].
    assert (Hf : separators (new_folder_name cfg) =
                 separators (current_folder_name cfg)).
    { now rewrite (separators_free _ Hcur), (separators_free _ Hnew). }
    destruct (@literal_rule_separators (current_folder_name cfg)
                (new_folder_name cfg) c2 Hne Hf) as [c3 [-> E3]].
    cbn [bind].
    destruct (@official_rule_separators _ _ (new_package_name cfg) c3 delim_rx_dot Hpkg)
      as [c4 [-> E4]].
    eexists. split; [reflexivity|]. congruence.
Qed.

Lemma primary_rewrite_keeps_separators_witness :
  (exists out,
      smali_rewrite (SmaliProcessor_init primary_myapp)
        (txt "Lcom/whatsapp/util/Foo; com.whatsapp.Main") = Some out /\
      separators out = txt "///..") /\
  (exists out,
      xml_rewrite (XmlProcessor_init primary_myapp)
        (txt "<a b=com.whatsapp.Main>WhatsApp</a>") = Some out /\
      separators out = txt "../").
Proof.
  split.
  - destruct (@primary_rewrite_keeps_separators primary_myapp
                (txt "Lcom/whatsapp/util/Foo; com.whatsapp.Main"))
      as [[out [E Hs]] _]; try reflexivity.
    exists out. split; [exact E|]. rewrite Hs. reflexivity.
  - destruct (@primary_rewrite_keeps_separators primary_myapp
                (txt "<a b=com.whatsapp.Main>WhatsApp</a>"))
      as [_ Hx]; try reflexivity.
    destruct Hx as [out [E Hs]]; try reflexivity; [discriminate|].
    exists out. split; [exact E|]. rewrite Hs. reflexivity.
Defined.

End Separators.

(** ** Both passes of a run *)

Module WholeRun.
Import Regex RegexFacts Clone Reference CloneFacts Jobs Runner RunnerFacts Disk.

Lemma existsb_eqb_in (q : string) (files : list string) :
  existsb (String.eqb q) files = true <-> In q files.
Proof.
  rewrite existsb_exists. split.
  - intros [x [Hx E]]. apply String.eqb_eq in E. now subst x.
  - intros Hq. exists q. split; [assumption|apply String.eqb_refl].
Qed.

(** X11: when the job passes validation, no path is listed twice and no
    path is in both lists, a run leaves every smali file with the smali
    rewrite of what it held, every xml file with the xml rewrite of what
    it held (each only if the file could be read and written back and the
    rewrite did not raise, otherwise as it was), and every other file
    untouched. *)
Theorem run_rewrites_each_file_once
        (isdir : string -> bool) (cfg : WhatsAppCloneConfig) (fs : filesystem)
        (smali_files xml_files : list string) (q : string) :
  validate_config isdir cfg = None ->
  NoDup smali_files -> NoDup xml_files ->
  (forall path, In path smali_files -> ~ In path xml_files) ->
  exists smali xml,
    run isdir cfg fs smali_files xml_files = Completed smali xml /\
    files_after xml q =
      if existsb (String.eqb q) smali_files
      then processed (SmaliProcessor_init cfg) (fs q)
      else if existsb (String.eqb q) xml_files
           then processed (XmlProcessor_init cfg) (fs q)
           else fs q.
Proof.
  intros Hv Hs Hx Hdis. unfold run. rewrite Hv.
  do 2 eexists. split; [reflexivity|].
  rewrite (@process_all_files_after _ _ (XmlProcessor_init cfg) _ xml_files q Hx).
  rewrite (@process_all_files_after _ _ (SmaliProcessor_init cfg) fs smali_files q Hs).
  destruct (existsb (String.eqb q) smali_files) eqn:Es; [|reflexivity].
  destruct (existsb (String.eqb q) xml_files) eqn:Ex; [|reflexivity].
  apply existsb_eqb_in in Es. apply existsb_eqb_in in Ex.
  now apply Hdis in Es.
Qed.

Definition res_files : list string := [ "res/values/strings.xml" ]%string.

(** The three smali files of [three_fs] and one xml file. *)
Definition four_fs : filesystem :=
  fun path =>
    if String.eqb path "res/values/strings.xml"
    then Some (mkFile true true (txt "<string>com.whatsapp WhatsApp</string>"))
    else three_fs path.

Lemma run_rewrites_each_file_once_witness :
  exists smali xml,
    run (fun _ => true) primary_myapp four_fs three_files res_files =
      Completed smali xml /\
    option_map data (files_after xml "res/values/strings.xml"%string) =
      Some (txt "<string>com.myapp MyApp</string>").
Proof.
  destruct (@run_rewrites_each_file_once (fun _ => true) primary_myapp four_fs
              three_files res_files "res/values/strings.xml"%string)
    as [smali [xml [E Hq]]].
  - reflexivity.
  - repeat constructor; simpl; intuition discriminate.
  - repeat constructor; simpl; intuition discriminate.
  - intros path Hp [Hq|[]]. subst path. simpl in Hp. intuition discriminate.
  - exists smali, xml. split; [exact E|]. rewrite Hq. reflexivity.
Defined.

End WholeRun.

(** ** The second application of a rule set *)

Module FixedPoint.
Import Regex RegexFacts Clone Reference CloneFacts Jobs ProtectedModules
       CustomToken StickerRule Idempotence.

(** *** Texts that differ in protected references only *)

(** [related ds x y l r]: the text [l] is the text [r] with some of its
    pieces [<d1>y<d2><module>] read [<d1>x<d2><module>] instead, the
    delimiters taken from [ds]; everything else is the same. *)
Inductive related (ds : list ascii) (x y : text) : text -> text -> Prop :=
| related_nil : related ds x y [] []
| related_copy (c : ascii) (l r : text) :
    related ds x y l r -> related ds x y (c :: l) (c :: r)
| related_piece (d1 d2 : ascii) (m l r : text) :
    accepts ds d1 = true -> accepts ds d2 = true -> In m OFFICIAL_MODULES ->
    related ds x y l r ->
    related ds x y (d1 :: x ++ d2 :: m ++ l) (d1 :: y ++ d2 :: m ++ r).

Lemma related_refl (ds : list ascii) (x y s : text) : related ds x y s s.
Proof. induction s; now constructor. Qed.

Lemma related_sym (ds : list ascii) (x y l r : text) :
  related ds x y l r -> related ds y x r l.
Proof. induction 1; now constructor. Qed.

Lemma related_app (ds : list ascii) (x y w l r : text) :
  related ds x y l r -> related ds x y (w ++ l) (w ++ r).
Proof. intros H. induction w; [exact H|now constructor]. Qed.

Lemma safe_facts (ds : list ascii) (name ns : text) :
  safe ds name ns = true <->
  free ds name = true /\ free ds ns = true /\
  (forall m, In m OFFICIAL_MODULES -> free ds m = true) /\
  starts_with name ns = false /\ starts_with ns name = false /\
  (forall m, In m OFFICIAL_MODULES ->
             starts_with m ns = false /\ starts_with m name = false).
Proof.
  unfold safe. rewrite !andb_true_iff, !negb_true_iff, !forallb_forall.
  split.
  - intros [[[[[H1 H2] H3] H4] H5] H6]. repeat split; auto.
    + specialize (H6 m H). apply andb_prop in H6 as [H6 _].
      now apply negb_true_iff in H6.
    + specialize (H6 m H). apply andb_prop in H6 as [_ H6].
      now apply negb_true_iff in H6.
  - intros [H1 [H2 [H3 [H4 [H5 H6]]]]]. repeat split; auto.
    intros m Hm. destruct (H6 m Hm) as [Ha Hb]. now rewrite Ha, Hb.
Qed.

Lemma safe_sym (ds : list ascii) (name ns : text) :
  safe ds name ns = true -> safe ds ns name = true.
Proof.
  rewrite !safe_facts. intros [H1 [H2 [H3 [H4 [H5 H6]]]]].
  repeat split; auto; now apply H6.
Qed.

Lemma free_sub (ds ds' : list ascii) (w : text) :
  (forall c, accepts ds c = true -> accepts ds' c = true) ->
  free ds' w = true -> free ds w = true.
Proof.
  intros Hsub. unfold free. rewrite !forallb_forall. intros H c Hc.
  specialize (H c Hc). apply negb_true_iff in H. apply negb_true_iff.
  destruct (accepts ds c) eqn:E; [|reflexivity].
  apply Hsub in E. congruence.
Qed.

Lemma safe_sub (ds ds' : list ascii) (name ns : text) :
  (forall c, accepts ds c = true -> accepts ds' c = true) ->
  safe ds' name ns = true -> safe ds name ns = true.
Proof.
  intros Hsub. rewrite !safe_facts. intros [H1 [H2 [H3 [H4 [H5 H6]]]]].
  repeat split; eauto using free_sub; now apply H6.
Qed.

(** A stretch without delimiters is the same on both sides. *)
Lemma related_free_right (ds : list ascii) (x y w : text) :
  free ds w = true ->
  forall l r, related ds x y l (w ++ r) ->
              exists l', l = w ++ l' /\ related ds x y l' r.
Proof.
  induction w as [|c w IH]; intros Hw l r H.
  - now exists l.
  - cbn [free forallb] in Hw. apply andb_prop in Hw as [Hc Hw].
    apply negb_true_iff in Hc. cbn [app] in H.
    inversion H as [|c0 l0 r0 H0|d1 d2 m l0 r0 H1 H2 H3 H0]; subst.
    + destruct (IH Hw _ _ H0) as [l' [-> Hl']]. now exists l'.
    + congruence.
Qed.

Lemma related_free_left (ds : list ascii) (x y w : text) :
  free ds w = true ->
  forall l r, related ds x y (w ++ l) r ->
              exists r', r = w ++ r' /\ related ds x y l r'.
Proof.
  intros Hw l r H. apply related_sym in H.
  destruct (@related_free_right ds y x w Hw _ _ H) as [r' [-> H']].
  exists r'. split; [reflexivity|now apply related_sym].
Qed.

(** So is a delimiter followed by a module name, when no module name
    starts the name of the pieces on that side. *)
Lemma related_module_right (ds : list ascii) (x y : text) (d2 : ascii) (m : text) :
  (forall m', In m' OFFICIAL_MODULES -> free ds m' = true) ->
  (forall m', In m' OFFICIAL_MODULES -> starts_with m' y = false) ->
  In m OFFICIAL_MODULES ->
  forall l r, related ds x y l (d2 :: m ++ r) ->
              exists l', l = d2 :: m ++ l' /\ related ds x y l' r.
Proof.
  intros Hfree Hpre Hm l r H.
  inversion H as [|c0 l0 r0 H0|d1 e2 m' l0 r0 H1 H2 H3 H0]; subst.
  - destruct (@related_free_right ds x y m (Hfree _ Hm) _ _ H0) as [l' [-> Hl']].
    now exists l'.
  - match goal with
    | E : _ ++ _ :: _ ++ _ = m ++ r |- _ =>
        symmetry in E;
        apply (@free_prefix ds _ _ _ _ _ (Hfree _ Hm) H2) in E
    end.
    rewrite (Hpre _ Hm) in *. discriminate.
Qed.

Lemma related_module_left (ds : list ascii) (x y : text) (d2 : ascii) (m : text) :
  (forall m', In m' OFFICIAL_MODULES -> free ds m' = true) ->
  (forall m', In m' OFFICIAL_MODULES -> starts_with m' x = false) ->
  In m OFFICIAL_MODULES ->
  forall l r, related ds x y (d2 :: m ++ l) r ->
              exists r', r = d2 :: m ++ r' /\ related ds x y l r'.
Proof.
  intros Hfree Hpre Hm l r H. apply related_sym in H.
  destruct (@related_module_right ds y x d2 m Hfree Hpre Hm _ _ H) as [r' [-> H']].
  exists r'. split; [reflexivity|now apply related_sym].
Qed.

(** [n] holds no piece [<d1>name<d2><module>] with delimiters from [ds]. *)
Definition piece_free (ds : list ascii) (name n : text) : Prop :=
  forall a d1 d2 m b,
    accepts ds d1 = true -> accepts ds d2 = true -> In m OFFICIAL_MODULES ->
    n <> a ++ d1 :: name ++ d2 :: m ++ b.

Lemma piece_free_tail (ds : list ascii) (name a n : text) :
  piece_free ds name (a ++ n) -> piece_free ds name n.
Proof.
  intros H a' d1 d2 m b H1 H2 H3 E.
  apply (H (a ++ a') d1 d2 m b H1 H2 H3). rewrite E. now rewrite app_assoc.
Qed.

Lemma modules_prefix_free (m m' : text) :
  In m OFFICIAL_MODULES -> In m' OFFICIAL_MODULES ->
  starts_with m m' = true -> m = m'.
Proof.
  assert (H : forallb (fun a => forallb (fun b =>
                implb (starts_with a b) (text_eqb a b)) OFFICIAL_MODULES)
                OFFICIAL_MODULES = true) by (vm_compute; reflexivity).
  rewrite forallb_forall in H. intros Hm Hm' Hp.
  specialize (H m Hm). rewrite forallb_forall in H. specialize (H m' Hm').
  rewrite Hp in H. cbn [implb] in H. now apply text_eqb_eq.
Qed.

(** *** The protected-module rule on related texts *)

Section Restoring.
Variables (D : regex) (dp ds : list ascii) (name ns : text).
Hypothesis HD : delim_rx D dp.
Hypothesis Hdp : forall c, accepts dp c = true -> accepts ds c = true.
Hypothesis Hds : forall c, accepts ds c = true -> accepts [dot; slash] c = true.
Hypothesis Hsafe : safe [dot; slash] name ns = true.

Let R : regex := official_rx D name D.
Let t : template := restore ns.

Lemma rule_delimiter (c : ascii) : accepts dp c = true -> accepts [dot; slash] c = true.
Proof. intros H. now apply Hds, Hdp. Qed.

Lemma safe_here :
  free ds name = true /\ free ds ns = true /\
  (forall m, In m OFFICIAL_MODULES -> free ds m = true) /\
  starts_with name ns = false /\ starts_with ns name = false /\
  (forall m, In m OFFICIAL_MODULES ->
             starts_with m ns = false /\ starts_with m name = false).
Proof. apply safe_facts. exact (@safe_sub ds [dot; slash] name ns Hds Hsafe). Qed.

(** The rule restores pieces of the left text: the result is still
    related to the right text. *)
Lemma restore_left (a y : text) :
  related ds ns name a y -> related ds ns name (scan R t a 0) y.
Proof.
  destruct safe_here as [Hname [Hns [Hmods [Hp1 [Hp2 Hpre]]]]].
  remember (length a) as n eqn:Hn. revert a y Hn.
  induction n as [n IH] using lt_wf_ind. intros a y Hn H.
  destruct a as [|c a].
  { unfold R. cbn [scan]. now rewrite (consuming_nil (official_consuming name ns HD)). }
  pose proof (@scan_step R t (c :: a) (official_consuming name ns HD) ltac:(easy)) as Hs.
  destruct (rmatch R (c :: a)) as [[rest g]|] eqn:E.
  - destruct Hs as [m0 [_ [_ Hscan]]].
    apply (official_match_inv name ns HD) in E
      as [d1 [d2 [m [Hd1 [Hd2 [Hm [E Hexp]]]]]]].
    rewrite Hscan. unfold t at 1. rewrite Hexp. rewrite E in H.
    assert (Hlen : length rest < n).
    { rewrite Hn, E. cbn [length]. rewrite !length_app. cbn [length].
      rewrite length_app. lia. }
    inversion H as [|c0 l0 r0 H0|e1 e2 m' l0 r0 H1 H2 H3 H0 EL]; subst.
    + destruct (@related_free_left ds ns name name Hname _ _ H0) as [r1 [-> H4]].
      destruct (@related_module_left ds ns name d2 m Hmods
                  (fun m' Hm' => proj1 (Hpre m' Hm')) Hm _ _ H4) as [r2 [-> H5]].
      cbn [app]. rewrite <- ?app_assoc. cbn [app].
      apply related_piece; auto.
      apply (IH (length rest) Hlen); auto.
    + exfalso.
      match goal with
      | EL : _ ++ _ :: _ ++ _ = _ ++ _ :: _ ++ _ |- _ =>
          apply prefix_cases in EL as [EL|EL]; congruence
      end.
  - destruct Hs as [c' [a' [Es Hscan]]]. injection Es as <- <-. rewrite Hscan.
    inversion H as [|c0 l0 r0 H0|d1 d2 m l0 r0 H1 H2 H3 H0]; subst.
    + constructor. apply (IH (length a)); [simpl; lia|reflexivity|exact H0].
    + unfold R, t.
      rewrite (@copy_tail D dp name ns HD rule_delimiter Hsafe d2 m H3 ns l0).
      * apply related_piece; auto.
        apply (IH (length l0)); [|reflexivity|exact H0].
        cbn [length]. rewrite !length_app. cbn [length]. rewrite length_app. lia.
      * apply safe_facts in Hsafe. tauto.
Qed.

(** On the right text the rule restores the pieces it accepts and keeps
    the others, when the left text holds no piece to restore. *)
Lemma restore_right (z n : text) :
  related ds ns name n z -> piece_free ds name n ->
  related ds ns name n (scan R t z 0).
Proof.
  destruct safe_here as [Hname [Hns [Hmods [Hp1 [Hp2 Hpre]]]]].
  remember (length z) as k eqn:Hk. revert z n Hk.
  induction k as [k IH] using lt_wf_ind. intros z n Hk H Hfree.
  destruct z as [|c z].
  { unfold R. cbn [scan]. now rewrite (consuming_nil (official_consuming name ns HD)). }
  pose proof (@scan_step R t (c :: z) (official_consuming name ns HD) ltac:(easy)) as Hs.
  destruct (rmatch R (c :: z)) as [[rest g]|] eqn:E.
  - destruct Hs as [m0 [_ [_ Hscan]]].
    apply (official_match_inv name ns HD) in E
      as [d1 [d2 [m [Hd1 [Hd2 [Hm [E Hexp]]]]]]].
    rewrite Hscan. unfold t at 1. rewrite Hexp. rewrite E in H.
    assert (Hlen : length rest < k).
    { rewrite Hk, E. cbn [length]. rewrite !length_app. cbn [length].
      rewrite length_app. lia. }
    inversion H as [|c0 l0 r0 H0|e1 e2 m' l0 r0 H1 H2 H3 H0 EL ER]; subst.
    + exfalso.
      destruct (@related_free_right ds ns name name Hname _ _ H0) as [l1 [-> H4]].
      destruct (@related_module_right ds ns name d2 m Hmods
                  (fun m' Hm' => proj2 (Hpre m' Hm')) Hm _ _ H4) as [l2 [-> H5]].
      apply (Hfree [] d1 d2 m l2); auto.
    + match goal with
      | ER : name ++ _ :: _ ++ _ = name ++ _ :: _ ++ _ |- _ =>
          apply app_inv_head in ER; injection ER as He Hmr
      end.
      subst e2.
      assert (Em : m' = m).
      { destruct (prefix_cases _ _ _ _ Hmr) as [P|P].
        - now apply modules_prefix_free.
        - symmetry. now apply modules_prefix_free. }
      subst m'. apply app_inv_head in Hmr. subst r0.
      cbn [app]. rewrite <- ?app_assoc. cbn [app].
      constructor. apply related_app. constructor. apply related_app.
      apply (IH (length rest) Hlen); auto.
      apply (@piece_free_tail ds name (d1 :: ns ++ d2 :: m) l0).
      cbn [app]. rewrite <- ?app_assoc. cbn [app]. exact Hfree.
  - destruct Hs as [c' [z' [Es Hscan]]]. injection Es as <- <-. rewrite Hscan.
    inversion H as [|c0 l0 r0 H0|d1 d2 m l0 r0 H1 H2 H3 H0]; subst.
    + constructor. apply (IH (length z)); [simpl; lia|reflexivity|exact H0|].
      now apply (@piece_free_tail ds name [c] l0).
    + unfold R, t.
      rewrite (@copy_tail D dp name ns HD rule_delimiter Hsafe d2 m H3 name r0).
      * apply related_piece; auto.
        apply (IH (length r0)); [|reflexivity|exact H0|].
        -- cbn [length]. rewrite !length_app. cbn [length]. rewrite length_app. lia.
        -- apply (@piece_free_tail ds name (c :: ns ++ d2 :: m) l0).
           cbn [app]. rewrite <- ?app_assoc. cbn [app]. exact Hfree.
      * apply safe_facts in Hsafe. tauto.
Qed.

(** What the rule has left holds no piece with delimiters it accepts. *)
Lemma restored_piece_free (s : text) :
  safe dp name ns = true ->
  piece_free dp name (scan R t s 0).
Proof.
  intros Hs a d1 d2 m b H1 H2 H3 E.
  apply (@restore_clean D dp name ns HD Hs) in E. revert E.
  now apply (@official_match_intro D dp name HD d1 d2 m b).
Qed.

End Restoring.

(** Related texts of which the right one holds no piece are equal. *)
Lemma pieces_gone (ds : list ascii) (x y n z : text) :
  related ds x y n z -> piece_free ds y z -> n = z.
Proof.
  induction 1 as [|c l r H IH|d1 d2 m l r H1 H2 H3 H IH]; intros Hfree.
  - reflexivity.
  - f_equal. apply IH. now apply (@piece_free_tail ds y [c] r).
  - exfalso. now apply (Hfree [] d1 d2 m r).
Qed.

(** *** The package rule on related texts *)

(** [s] holds no occurrence of [c]. *)
Definition holds_no (c s : text) : Prop := forall a b, s <> a ++ c ++ b.

Lemma holds_no_tail (c a s : text) : holds_no c (a ++ s) -> holds_no c s.
Proof.
  intros H a' b E. apply (H (a ++ a') b). rewrite E. now rewrite app_assoc.
Qed.

Lemma scan_copy_prefix (r : regex) (t : template) (w s : text) :
  (forall w1 w2, w = w1 ++ w2 -> w2 <> [] -> rmatch r (w2 ++ s) = None) ->
  scan r t (w ++ s) 0 = w ++ scan r t s 0.
Proof.
  induction w as [|c w IH]; intros H; [reflexivity|].
  cbn [app]. rewrite scan_nomatch by (apply (H [] (c :: w)); easy).
  f_equal. apply IH. intros w1 w2 -> Hw2. now apply (H (c :: w1) w2).
Qed.

Lemma not_in_prefix (x : ascii) (pre s a s' : text) :
  ~ In x pre -> pre ++ s = a ++ x :: s' ->
  exists a2, a = pre ++ a2 /\ s = a2 ++ x :: s'.
Proof.
  revert a. induction pre as [|c pre IH]; intros a Hx E.
  - now exists a.
  - destruct a as [|c' a]; cbn [app] in E; injection E as -> E.
    + exfalso. apply Hx. now left.
    + destruct (IH a) as [a2 [-> ->]]; auto.
      * intros Hin. apply Hx. now right.
      * now exists a2.
Qed.

Lemma starts_both (a b : text) :
  starts_with a b = true -> starts_with b a = true -> a = b.
Proof.
  intros H1 H2. apply text_eqb_eq. unfold text_eqb. now rewrite H1, H2.
Qed.

Lemma free_app (ds : list ascii) (u v : text) :
  free ds (u ++ v) = true -> free ds u = true /\ free ds v = true.
Proof. unfold free. rewrite forallb_app. apply andb_prop. Qed.

Lemma delimiter_not_c (ds : list ascii) (c : ascii) :
  (forall c, accepts ds c = true -> accepts [dot; slash] c = true) ->
  accepts ds c = true -> c <> "c"%char.
Proof. intros Hds H ->. apply Hds in H. discriminate. Qed.

Lemma whatsapp_starts_no_module (m : text) :
  In m OFFICIAL_MODULES -> starts_with (txt "whatsapp") m = false.
Proof.
  assert (H : forallb (fun m => negb (starts_with (txt "whatsapp") m))
                OFFICIAL_MODULES = true) by (vm_compute; reflexivity).
  rewrite forallb_forall in H. intros Hm. apply negb_true_iff. now apply H.
Qed.

Section Renaming.
Variables (r : regex) (t : template) (d : ascii) (ds : list ascii) (name ns : text).
Hypothesis Hd : accepts ds d = true.
Hypothesis Hds : forall c, accepts ds c = true -> accepts [dot; slash] c = true.
Hypothesis Hsafe : safe [dot; slash] name ns = true.
Hypothesis Hns_module : forall m, In m OFFICIAL_MODULES -> starts_with ns m = false.
Hypothesis Hns_c : ~ In "c"%char ns.

Let T : text := txt "com" ++ d :: ns.
Let N : text := txt "com" ++ d :: name.

Hypothesis Hmatch :
  forall s rest g, rmatch r s = Some (rest, g) -> s = T ++ rest /\ expand t g = N.

Lemma rule_consuming : consuming r.
Proof.
  intros s rest g H. apply Hmatch in H as [-> _]. rewrite length_app.
  unfold T. rewrite length_app. cbn [length]. lia.
Qed.

Lemma safe_names :
  free ds name = true /\ free ds ns = true /\
  (forall m, In m OFFICIAL_MODULES -> free ds m = true) /\
  starts_with name ns = false /\ starts_with ns name = false /\
  (forall m, In m OFFICIAL_MODULES ->
             starts_with m ns = false /\ starts_with m name = false).
Proof. apply safe_facts. exact (@safe_sub ds [dot; slash] name ns Hds Hsafe). Qed.

Lemma com_free : free ds (txt "com") = true.
Proof. now apply (@free_sub ds [dot; slash] (txt "com") Hds). Qed.

(** Every occurrence of the old package is followed by a delimiter and a
    module name. *)
Definition guarded (n : text) : Prop :=
  forall a b, n = a ++ T ++ b ->
    exists d2 m b', accepts ds d2 = true /\ In m OFFICIAL_MODULES /\
                    b = d2 :: m ++ b'.

Lemma guarded_tail (a n : text) : guarded (a ++ n) -> guarded n.
Proof.
  intros H a' b E. apply (H (a ++ a') b). rewrite E. now rewrite app_assoc.
Qed.

(** The rule renames the old package in pieces only: what it makes of
    the right text is still related to the left one. *)
Lemma rename_right (z n : text) :
  related ds ns name n z -> guarded n -> related ds ns name n (scan r t z 0).
Proof.
  destruct safe_names as [Hname [Hns [Hmods [Hp1 [Hp2 Hpre]]]]].
  remember (length z) as k eqn:Hk. revert z n Hk.
  induction k as [k IH] using lt_wf_ind. intros z n Hk H Hg.
  destruct z as [|c z].
  { cbn [scan]. now rewrite (consuming_nil rule_consuming). }
  pose proof (@scan_step r t (c :: z) rule_consuming ltac:(easy)) as Hs.
  destruct (rmatch r (c :: z)) as [[rest g]|] eqn:E.
  - destruct Hs as [m0 [_ [_ Hscan]]].
    apply Hmatch in E as [E Hexp]. rewrite Hscan, Hexp. rewrite E in H.
    assert (Hlen : length rest < k).
    { rewrite Hk, E, length_app. unfold T. rewrite length_app. cbn [length]. lia. }
    unfold T in H. rewrite <- app_assoc in H. cbn [app] in H.
    destruct (@related_free_right ds ns name (txt "com") com_free _ _ H)
      as [n1 [-> H1]].
    inversion H1 as [|c0 l0 r0 H0|e1 e2 m' l0 r0 H2 H3 H4 H0]; subst.
    + destruct (@related_free_right ds ns name ns Hns _ _ H0) as [n3 [-> H5]].
      destruct (Hg [] n3) as [d2 [m [n5 [Hd2 [Hm ->]]]]].
      { unfold T. cbn [app]. now rewrite <- app_assoc. }
      assert (H6 : related ds ns name (d2 :: m ++ n5) (scan r t rest 0)).
      { apply (IH (length rest) Hlen); auto.
        apply (@guarded_tail (txt "com" ++ d :: ns)).
        rewrite <- app_assoc. exact Hg. }
      destruct (@related_module_left ds ns name d2 m Hmods
                  (fun m' Hm' => proj1 (Hpre m' Hm')) Hm _ _ H6) as [z5 [-> H7]].
      unfold N. rewrite <- !app_assoc. cbn [app].
      apply related_app. now apply related_piece.
    + exfalso.
      match goal with
      | EL : _ ++ _ :: _ ++ _ = _ ++ _ |- _ =>
          apply prefix_cases in EL as [EL|EL]; congruence
      end.
  - destruct Hs as [c' [z' [Es Hscan]]]. injection Es as <- <-. rewrite Hscan.
    inversion H as [|c0 l0 r0 H0|d1 d2 m l0 r0 H1 H2 H3 H0]; subst.
    + constructor. apply (IH (length z)); [simpl; lia|reflexivity|exact H0|].
      now apply (@guarded_tail [c] l0).
    + assert (Hcopy : scan r t (name ++ d2 :: m ++ r0) 0 =
                      name ++ d2 :: scan r t (m ++ r0) 0).
      { change (name ++ d2 :: m ++ r0) with (name ++ [d2] ++ m ++ r0).
        rewrite app_assoc, scan_copy_prefix.
        - now rewrite <- app_assoc.
        - intros w1 w2 Hw Hw2.
          destruct (rmatch r (w2 ++ m ++ r0)) as [[rest g]|] eqn:Ew; [exfalso|reflexivity].
          apply Hmatch in Ew as [Ew _].
          destruct (exists_last Hw2) as [name2 [e ->]].
          rewrite app_assoc in Hw. apply app_inj_tail in Hw as [Hw <-].
          rewrite Hw in Hname. apply free_app in Hname as [_ Hname2].
          unfold T in Ew. rewrite <- !app_assoc in Ew. cbn [app] in Ew.
          assert (En : name2 = txt "com").
          { apply starts_both.
            - exact (@free_prefix ds _ _ _ _ _ Hname2 Hd Ew).
            - symmetry in Ew. exact (@free_prefix ds _ _ _ _ _ com_free H2 Ew). }
          subst name2. apply app_inv_head in Ew. injection Ew as _ Ew.
          apply prefix_cases in Ew as [Ew|Ew].
          + destruct (Hpre _ H3). congruence.
          + rewrite Hns_module in Ew by assumption. discriminate. }
      rewrite Hcopy.
      assert (H6 : related ds ns name (m ++ l0) (scan r t (m ++ r0) 0)).
      { apply (IH (length (m ++ r0))).
        - cbn [length]. rewrite !length_app. cbn [length]. rewrite length_app. lia.
        - reflexivity.
        - now apply related_app.
        - apply (@guarded_tail (c :: ns ++ [d2])).
          cbn [app]. rewrite <- app_assoc. exact Hg. }
      destruct (@related_free_left ds ns name m (Hmods _ H3) _ _ H6) as [z5 [-> H7]].
      now apply related_piece.
Qed.

(** At the head of the left text the old package either stands in the
    right text as well or is part of a piece. *)
Lemma related_token_head (k b y : text) :
  free ds k = true ->
  related ds ns name (k ++ d :: ns ++ b) y ->
  (exists y3, y = k ++ d :: ns ++ y3) \/
  (exists d2 m b', accepts ds d2 = true /\ In m OFFICIAL_MODULES /\
                   b = d2 :: m ++ b').
Proof.
  destruct safe_names as [Hname [Hns [Hmods [Hp1 [Hp2 Hpre]]]]].
  intros Hk H.
  destruct (@related_free_left ds ns name k Hk _ _ H) as [y1 [-> H1]].
  inversion H1 as [|c0 l0 r0 H0|e1 e2 m' l0 r0 H2 H3 H4 H0]; subst.
  - destruct (@related_free_left ds ns name ns Hns _ _ H0) as [y3 [-> _]].
    left. now exists y3.
  - right.
    match goal with
    | EL : ns ++ _ = ns ++ _ |- _ => apply app_inv_head in EL; subst b
    end.
    now exists e2, m', l0.
Qed.

(** The left text is guarded when the right one holds no old package. *)
Lemma related_guarded (n y : text) :
  related ds ns name n y -> holds_no T y -> guarded n.
Proof.
  destruct safe_names as [Hname [Hns [Hmods [Hp1 [Hp2 Hpre]]]]].
  induction 1 as [|c l r0 H IH|d1 d2 m l r0 H1 H2 H3 H IH]; intros Hfree a b E.
  - destruct a; discriminate.
  - destruct a as [|x a].
    + assert (Hr : related ds ns name (c :: l) (c :: r0)) by now constructor.
      cbn [app] in E. rewrite E in Hr. unfold T in Hr.
      rewrite <- app_assoc in Hr. cbn [app] in Hr.
      destruct (@related_token_head (txt "com") b _ com_free Hr) as [[y3 Hy]|Hb];
        [exfalso|exact Hb].
      apply (Hfree [] y3). rewrite Hy. unfold T. cbn [app].
      now rewrite <- app_assoc.
    + cbn [app] in E. injection E as <- E. apply (IH (@holds_no_tail T [c] r0 Hfree) a b E).
  - assert (Hpre0 : ~ In "c"%char (d1 :: ns ++ [d2])).
    { cbn [In]. intros [Hc|Hc].
      - now apply (@delimiter_not_c ds d1 Hds H1).
      - apply in_app_or in Hc as [Hc|[Hc|[]]]; [now apply Hns_c|].
        now apply (@delimiter_not_c ds d2 Hds H2). }
    assert (E' : (d1 :: ns ++ [d2]) ++ m ++ l =
                 a ++ "c"%char :: (txt "om" ++ d :: ns ++ b)).
    { cbn [app]. rewrite <- app_assoc. cbn [app]. rewrite E. unfold T.
      now rewrite <- app_assoc. }
    destruct (@not_in_prefix "c"%char (d1 :: ns ++ [d2]) (m ++ l) a _ Hpre0 E')
      as [a2 [-> E2]].
    change ("c"%char :: (txt "om" ++ d :: ns ++ b)) with (txt "com" ++ d :: ns ++ b) in E2.
    assert (Hfree0 : holds_no T r0).
    { apply (@holds_no_tail T (d1 :: name ++ d2 :: m)).
      cbn [app]. rewrite <- ?app_assoc. cbn [app]. exact Hfree. }
    apply app_eq_app in E2 as [l1 [[Em El]|[Ea El]]].
    + destruct l1 as [|c1 l1].
      * apply (IH Hfree0 [] b). cbn [app] in El. rewrite <- El. unfold T.
        now rewrite <- app_assoc.
      * pose proof (Hmods _ H3) as Hm. rewrite Em in Hm.
        apply free_app in Hm as [_ Hl1].
        pose proof (@free_prefix ds _ _ _ _ _ Hl1 Hd (eq_sym El)) as Hp.
        apply starts_with_split in Hp.
        remember (skipn (length (c1 :: l1)) (txt "com")) as k2 eqn:Hk2. clear Hk2.
        pose proof com_free as Hcom. rewrite Hp in Hcom.
        apply free_app in Hcom as [_ Hk2].
        rewrite Hp in El. rewrite <- app_assoc in El. apply app_inv_head in El.
        rewrite <- El in H.
        destruct (@related_token_head k2 b _ Hk2 H) as [[y3 Hy]|Hb];
          [exfalso|exact Hb].
        apply (Hfree (d1 :: name ++ d2 :: a2) y3). rewrite Hy, Em. unfold T.
        rewrite Hp. repeat (rewrite <- app_assoc || (progress cbn [app])).
        reflexivity.
    + apply (IH Hfree0 l1 b). rewrite El. unfold T. now rewrite <- app_assoc.
Qed.

End Renaming.

(** *** Occurrences that a rule cannot make *)

Lemma no_overlap_facts (old new : text) :
  no_overlap old new = true ->
  occurs old new = false /\ occurs new old = false /\
  suffix_prefix new old = false /\ suffix_prefix old new = false.
Proof.
  unfold no_overlap. rewrite !andb_true_iff, !negb_true_iff. tauto.
Qed.

Section Keeping.
Variables (r : regex) (t : template) (new c : text).
Hypothesis Hexp : forall s rest g, rmatch r s = Some (rest, g) -> expand t g = new.
Hypothesis Hcons : consuming r.
Hypothesis Hno : no_overlap c new = true.

(** A rule whose replacement cannot be told from [c] across a boundary
    puts no [c] into a text that holds none. *)
Lemma replaced_keeps (s : text) : holds_no c s -> holds_no c (scan r t s 0).
Proof.
  destruct (no_overlap_facts _ _ Hno) as [C1 [C2 [C3 C4]]].
  remember (length s) as n eqn:Hn. revert s Hn.
  induction n as [n IH] using lt_wf_ind. intros s Hn Hs a b E.
  destruct (@scan_copied r t Hcons s) as [u [s3 [Es [Hscan [_ Hs3]]]]].
  rewrite Hscan in E.
  destruct Hs3 as [->|Hs3].
  { cbn [scan] in E. rewrite (consuming_nil Hcons), app_nil_r in E.
    rewrite app_nil_r in Es. apply (Hs a b). congruence. }
  destruct (rmatch r s3) as [[rest g]|] eqn:E3; [clear Hs3|easy].
  assert (Hne : s3 <> []).
  { intros ->. now rewrite (consuming_nil Hcons) in E3. }
  pose proof (@scan_step r t s3 Hcons Hne) as Hstep. rewrite E3 in Hstep.
  destruct Hstep as [m [Hm [Em Hsc]]]. rewrite Hsc, (Hexp _ E3) in E.
  assert (Hrest : holds_no c (scan r t rest 0)).
  { apply (IH (length rest)); [|reflexivity|].
    - rewrite Hn, Es, Em, !length_app. destruct m; [easy|simpl; lia].
    - apply (@holds_no_tail c (u ++ m)). rewrite <- app_assoc. congruence. }
  apply app_eq_app in E as [l [[Eu E]|[Ea E]]].
  - apply app_eq_app in E as [l' [[Ec E]|[El E]]].
    + destruct l' as [|x l'].
      * rewrite app_nil_r in Ec. subst l.
        apply (Hs a s3). now rewrite Es, Eu, <- app_assoc.
      * apply app_eq_app in E as [l'' [[En E]|[El E]]].
        -- destruct l as [|y l].
           ++ cbn [app] in Ec. subst c.
              rewrite En in C1. rewrite <- (app_nil_l ((x :: l') ++ l'')) in C1.
              now rewrite occurs_intro in C1.
           ++ rewrite Ec in C4.
              rewrite (@suffix_prefix_intro (y :: l) (x :: l') new) in C4; try easy.
              rewrite En. apply starts_with_app.
        -- rewrite El in Ec. rewrite Ec in C2. now rewrite occurs_intro in C2.
    + apply (Hs a (l' ++ s3)). now rewrite Es, Eu, El, <- !app_assoc.
  - apply app_eq_app in E as [l' [[En E]|[El E]]].
    + destruct l' as [|x l'].
      * cbn [app] in E. apply (Hrest [] b). now rewrite <- E.
      * apply app_eq_app in E as [l'' [[Ec E]|[El E]]].
        -- destruct l as [|y l].
           ++ cbn [app] in En. rewrite <- En in Ec. rewrite Ec in C2.
              rewrite <- (app_nil_l (new ++ l'')) in C2.
              now rewrite occurs_intro in C2.
           ++ rewrite En in C3.
              rewrite (@suffix_prefix_intro (y :: l) (x :: l') c) in C3; try easy.
              rewrite Ec. apply starts_with_app.
        -- rewrite El in En. rewrite En in C1. now rewrite occurs_intro in C1.
    + apply (Hrest l' b). exact E.
Qed.

End Keeping.

(** What a rule has replaced everywhere is gone. *)
Lemma clean_holds_no (r : regex) (old s : text) :
  (forall s, rmatch r s <> None <-> starts_with old s = true) ->
  (forall a b, s = a ++ b -> rmatch r b = None) ->
  holds_no old s.
Proof.
  intros Hmatch Hclean a b E. apply Hclean in E. revert E.
  apply Hmatch, starts_with_app.
Qed.

(** A word without delimiters that occurs on one side of related texts
    occurs on the other side or inside the name of that side's pieces. *)
Lemma related_holds_no (ds : list ascii) (x y c l r : text) :
  free ds c = true -> c <> [] -> occurs c y = false ->
  related ds x y l r -> holds_no c l -> holds_no c r.
Proof.
  intros Hc Hne Hy.
  assert (Hhead : forall d s, accepts ds d = true -> c <> d :: s).
  { intros d s Hd E. rewrite E in Hc. cbn [free forallb] in Hc.
    now rewrite Hd in Hc. }
  induction 1 as [|x0 l r H IH|d1 d2 m l r H1 H2 H3 H IH]; intros Hl a b E.
  - destruct a; [destruct c; [easy|discriminate]|discriminate].
  - destruct a as [|x1 a].
    + assert (Hr : related ds x y (x0 :: l) (x0 :: r)) by now constructor.
      cbn [app] in E. rewrite E in Hr.
      destruct (@related_free_right ds x y c Hc _ _ Hr) as [l' El].
      destruct El as [El _]. now apply (Hl [] l').
    + cbn [app] in E. injection E as <- E.
      apply (IH (@holds_no_tail c [x0] l Hl) a b E).
  - destruct a as [|x1 a].
    + cbn [app] in E. destruct c as [|c0 c]; [easy|].
      cbn [app] in E. injection E as <- _. now apply (Hhead d1 c).
    + cbn [app] in E. injection E as <- E.
      apply app_eq_app in E as [l1 [[Ey E]|[Ea E]]].
      * apply app_eq_app in E as [l2 [[Ec E]|[El E]]].
        -- destruct l2 as [|e l2].
           ++ rewrite app_nil_r in Ec. subst l1.
              pose proof (occurs_intro c a []) as Ho.
              rewrite app_nil_r, <- Ey in Ho. congruence.
           ++ cbn [app] in E. injection E as <- _.
              rewrite Ec in Hc. now rewrite (@free_no_delim ds l1 l2 d2 H2) in Hc.
        -- rewrite El in Ey. rewrite Ey in Hy. now rewrite occurs_intro in Hy.
      * destruct l1 as [|e l1].
        -- cbn [app] in E. destruct c as [|c0 c]; [easy|].
           injection E as <- _. now apply (Hhead d2 c).
        -- cbn [app] in E. injection E as <- E.
           apply app_eq_app in E as [l3 [[Em E]|[Ea2 E]]].
           ++ apply app_eq_app in E as [l4 [[Ec E]|[El3 E]]].
              ** rewrite Ec in Hc. apply free_app in Hc as [_ Hc2].
                 rewrite E in H.
                 destruct (@related_free_right ds x y l4 Hc2 _ _ H) as [l' [El' _]].
                 apply (Hl (d1 :: x ++ d2 :: l1) l').
                 rewrite Em, El', Ec.
                 repeat (rewrite <- app_assoc || (progress cbn [app])). reflexivity.
              ** apply (Hl (d1 :: x ++ d2 :: l1) (l4 ++ l)).
                 rewrite Em, El3.
                 repeat (rewrite <- app_assoc || (progress cbn [app])). reflexivity.
           ++ apply (IH (@holds_no_tail c (d1 :: x ++ d2 :: m) l
                           ltac:(cbn [app]; rewrite <- ?app_assoc; cbn [app]; exact Hl))
                        l3 b E).
Qed.

(** *** The rules of the program *)

Definition whatsapp : text := txt "whatsapp".

Lemma whatsapp_no_c : ~ In "c"%char whatsapp.
Proof. cbn. intuition discriminate. Qed.

Lemma main_match (d : ascii) (name s rest : text) (g : captures) :
  rmatch (com_whatsapp d REps) s = Some (rest, g) ->
  s = (txt "com" ++ d :: whatsapp) ++ rest /\
  expand (com_ref1 name) g = txt "com" ++ d :: name.
Proof.
  intros H. unfold rmatch in H. rewrite run_com_whatsapp in H.
  destruct (starts_with (com_d_whatsapp d) s) eqn:E; [|easy].
  apply starts_with_split in E. change (length (com_d_whatsapp d)) with 12 in E.
  remember (skipn 12 s) as q eqn:Hq. clear Hq.
  cbn [run hd_error] in H. injection H as H1 H2. subst g q.
  split; [exact E|]. rewrite expand_com_ref1. reflexivity.
Qed.

Lemma main_matches (d : ascii) (s : text) :
  rmatch (com_whatsapp d REps) s <> None <->
  starts_with (com_d_whatsapp d) s = true.
Proof.
  unfold rmatch. rewrite run_com_whatsapp.
  destruct (starts_with (com_d_whatsapp d) s); cbn [run hd_error]; easy.
Qed.

Lemma main_consuming (d : ascii) : consuming (com_whatsapp d REps).
Proof.
  intros s rest g H. apply (main_match d []) in H as [-> _].
  rewrite !length_app. cbn [length]. lia.
Qed.

Lemma lit_match (p new s rest : text) (g : captures) :
  rmatch (lit p) s = Some (rest, g) -> s = p ++ rest /\ expand (tlit new) g = new.
Proof.
  intros H. split; [|apply expand_tlit]. apply rmatch_lit. now exists g.
Qed.

Lemma lit_matches (p s : text) :
  rmatch (lit p) s <> None <-> starts_with p s = true.
Proof.
  unfold rmatch. rewrite run_lit. destruct (starts_with p s); cbn [hd_error]; easy.
Qed.

Lemma seps_self (c : ascii) :
  accepts [dot; slash] c = true -> accepts [dot; slash] c = true.
Proof. auto. Qed.

(** The four substitutions of the smali rewrite under the Primary label
    with the default token. *)
Definition smali_scans (pkg path s : text) : text :=
  scan (official_rx dot_or_slash path dot_or_slash) (restore whatsapp)
    (scan (official_rx (RChr dot) pkg (RChr dot)) (restore whatsapp)
       (scan (com_whatsapp dot REps) (com_ref1 pkg)
          (scan (com_whatsapp slash REps) (com_ref1 path) s 0) 0) 0) 0.

Lemma smali_rewrite_scans (cfg : WhatsAppCloneConfig) (content : text) :
  is_business cfg = false -> has_custom cfg = false ->
  smali_rewrite (SmaliProcessor_init cfg) content =
  Some (smali_scans (new_package_name cfg) (new_package_name_path cfg) content).
Proof.
  intros Hb Hc. unfold smali_rewrite, smali_main, smali_official.
  cbn [smali_config SmaliProcessor_init package_pattern1 package_pattern2
       official_package_pattern official_packageP_pattern].
  rewrite Hb, Hc. cbn [fst snd].
  rewrite sub_some by (rewrite template_ok_com_ref1; reflexivity). cbn [bind].
  rewrite sub_some by (rewrite template_ok_com_ref1; reflexivity). cbn [bind].
  rewrite sub_some by apply template_ok_restore. cbn [bind].
  rewrite sub_some by apply template_ok_restore. reflexivity.
Qed.

(** The names of a job can be told from the old ones: the new package
    name holds no delimiter, neither it nor [whatsapp] starts the other,
    no module name starts it, and the old and the new package do not
    overlap, whichever delimiter follows [com]. *)
Definition distinct_package (pkg : text) : bool :=
  safe [dot; slash] pkg whatsapp &&
  no_overlap (com_d_whatsapp slash) (txt "com/" ++ pkg) &&
  no_overlap (com_d_whatsapp dot) (txt "com." ++ pkg) &&
  no_overlap (com_d_whatsapp slash) (txt "com." ++ pkg).

Section SmaliTwice.
Variable pkg : text.
Hypothesis Hpkg : distinct_package pkg = true.

Lemma distinct_package_facts :
  safe [dot; slash] pkg whatsapp = true /\
  no_overlap (com_d_whatsapp slash) (txt "com/" ++ pkg) = true /\
  no_overlap (com_d_whatsapp dot) (txt "com." ++ pkg) = true /\
  no_overlap (com_d_whatsapp slash) (txt "com." ++ pkg) = true.
Proof.
  pose proof Hpkg as H. unfold distinct_package in H.
  rewrite !andb_true_iff in H. tauto.
Qed.

Let r1 : regex := com_whatsapp slash REps.
Let r2 : regex := com_whatsapp dot REps.
Let t1 : template := com_ref1 pkg.
Let o1 : regex := official_rx (RChr dot) pkg (RChr dot).
Let o2 : regex := official_rx dot_or_slash pkg dot_or_slash.
Let t : template := restore whatsapp.

(** After the two package rules no old package is left. *)
Lemma main_leaves_none (s : text) :
  holds_no (com_d_whatsapp slash) (scan r2 t1 (scan r1 t1 s 0) 0) /\
  holds_no (com_d_whatsapp dot) (scan r2 t1 (scan r1 t1 s 0) 0).
Proof.
  destruct distinct_package_facts as [_ [N1 [N2 N3]]]. split.
  - apply (@replaced_keeps r2 t1 (txt "com." ++ pkg) (com_d_whatsapp slash)).
    + intros s0 rest g H. now apply (main_match dot pkg) in H.
    + apply main_consuming.
    + exact N3.
    + apply (@clean_holds_no r1 (com_d_whatsapp slash)); [apply main_matches|].
      apply (@replaced_clean r1 t1 (com_d_whatsapp slash) (txt "com/" ++ pkg)
               (main_matches slash)); auto.
      * intros s0 rest g H. now apply (main_match slash pkg) in H.
      * apply main_consuming.
  - apply (@clean_holds_no r2 (com_d_whatsapp dot)); [apply main_matches|].
    apply (@replaced_clean r2 t1 (com_d_whatsapp dot) (txt "com." ++ pkg)
             (main_matches dot)); auto.
    + intros s0 rest g H. now apply (main_match dot pkg) in H.
    + apply main_consuming.
Qed.

(** The smali rewrite returns its own output unchanged. *)
Lemma smali_scans_twice (s : text) :
  smali_scans pkg pkg (smali_scans pkg pkg s) = smali_scans pkg pkg s.
Proof.
  destruct distinct_package_facts as [Hsafe _].
  destruct (main_leaves_none s) as [F1 F2].
  unfold smali_scans. fold r1 r2 t1 o1 o2 t.
  set (y := scan r2 t1 (scan r1 t1 s 0) 0) in *.
  set (n := scan o2 t (scan o1 t y 0) 0).
  assert (Hrel : related [dot; slash] whatsapp pkg n y).
  { apply (@restore_left dot_or_slash [dot; slash] [dot; slash] pkg whatsapp
             delim_rx_dot_or_slash seps_self seps_self Hsafe).
    apply (@restore_left (RChr dot) [dot] [dot; slash] pkg whatsapp
             delim_rx_dot accepts_dot_sub seps_self Hsafe).
    apply related_refl. }
  assert (Hfree : piece_free [dot; slash] pkg n).
  { apply (@restored_piece_free dot_or_slash [dot; slash] pkg whatsapp
             delim_rx_dot_or_slash). exact Hsafe. }
  assert (G1 : guarded slash [dot; slash] whatsapp n).
  { apply (@related_guarded slash [dot; slash] pkg whatsapp eq_refl seps_self
             Hsafe whatsapp_no_c n y Hrel). exact F1. }
  assert (G2 : guarded dot [dot; slash] whatsapp n).
  { apply (@related_guarded dot [dot; slash] pkg whatsapp eq_refl seps_self
             Hsafe whatsapp_no_c n y Hrel). exact F2. }
  assert (Z1 : related [dot; slash] whatsapp pkg n (scan r1 t1 n 0)).
  { apply (@rename_right r1 t1 slash [dot; slash] pkg whatsapp eq_refl seps_self
             Hsafe whatsapp_starts_no_module).
    - intros s0 rest g H. now apply (main_match slash pkg) in H.
    - apply related_refl.
    - exact G1. }
  assert (Z2 : related [dot; slash] whatsapp pkg n (scan r2 t1 (scan r1 t1 n 0) 0)).
  { apply (@rename_right r2 t1 dot [dot; slash] pkg whatsapp eq_refl seps_self
             Hsafe whatsapp_starts_no_module).
    - intros s0 rest g H. now apply (main_match dot pkg) in H.
    - exact Z1.
    - exact G2. }
  set (z := scan r2 t1 (scan r1 t1 n 0) 0) in *.
  assert (W1 : related [dot; slash] whatsapp pkg n (scan o1 t z 0)).
  { apply (@restore_right (RChr dot) [dot] [dot; slash] pkg whatsapp
             delim_rx_dot accepts_dot_sub seps_self Hsafe); assumption. }
  assert (W2 : related [dot; slash] whatsapp pkg n (scan o2 t (scan o1 t z 0) 0)).
  { apply (@restore_right dot_or_slash [dot; slash] [dot; slash] pkg whatsapp
             delim_rx_dot_or_slash seps_self seps_self Hsafe); assumption. }
  symmetry. apply (pieces_gone W2).
  apply (@restored_piece_free dot_or_slash [dot; slash] pkg whatsapp
           delim_rx_dot_or_slash). exact Hsafe.
Qed.

End SmaliTwice.

(** The four substitutions of the xml rewrite under the Primary label
    with the default token. *)
Definition xml_scans (pkg cur newf s : text) : text :=
  scan (official_rx (RChr dot) pkg (RChr dot)) (restore whatsapp)
    (scan (lit cur) (tlit newf)
       (scan (RCat (lit android_name)
                (RCat (lit (txt "com.whatsapp")) (lit sticker_read)))
             (tlit (android_name ++ txt "com." ++ pkg ++ sticker_read))
          (scan (lit (txt "com.whatsapp")) (tlit (txt "com." ++ pkg)) s 0) 0) 0) 0.

Lemma xml_rewrite_scans (cfg : WhatsAppCloneConfig) (content : text) :
  is_business cfg = false -> has_custom cfg = false ->
  xml_rewrite (XmlProcessor_init cfg) content =
  Some (xml_scans (new_package_name cfg) (current_folder_name cfg)
          (new_folder_name cfg) content).
Proof.
  intros Hb Hc. unfold xml_rewrite, xml_official.
  cbn [xml_config XmlProcessor_init package_pattern sticker_pattern
       folder_pattern xml_official_package_pattern].
  rewrite Hb, Hc.
  repeat (rewrite sub_some by apply template_ok_tlit; cbn [bind]).
  rewrite sub_some by apply template_ok_restore. reflexivity.
Qed.

(** The folder names can be told from each other and from the package
    names: the old folder name holds no delimiter and occurs neither in
    the new package name nor in [whatsapp], the two folder names do not
    overlap, and the new one does not overlap [com.whatsapp]. *)
Definition distinct_folder (pkg cur newf : text) : bool :=
  free [dot; slash] cur &&
  no_overlap cur newf &&
  no_overlap (txt "com.whatsapp") newf &&
  negb (occurs cur pkg) && negb (occurs cur whatsapp).

(** The sticker rule finds nothing where no old package is left. *)
Lemma sticker_quiet (tt : template) (s : text) :
  holds_no (txt "com.whatsapp") s ->
  scan (RCat (lit android_name)
          (RCat (lit (txt "com.whatsapp")) (lit sticker_read))) tt s 0 = s.
Proof.
  intros Hs. apply scan_no_match, no_match_intro. intros a b Hab.
  match goal with
  | |- ?x = None => destruct x eqn:E; [exfalso|reflexivity]
  end.
  assert (Hne : rmatch (RCat (lit android_name)
                  (RCat (lit (txt "com.whatsapp")) (lit sticker_read))) b <> None)
    by now rewrite E.
  apply sticker_needs_package in Hne as [rest [-> Hrest]].
  apply lit_matches, starts_with_split in Hrest.
  apply (Hs (a ++ android_name) (skipn (length (txt "com.whatsapp")) rest)).
  rewrite Hab, <- Hrest. now rewrite app_assoc.
Qed.

Lemma literal_quiet (p : text) (tt : template) (s : text) :
  holds_no p s -> scan (lit p) tt s 0 = s.
Proof.
  intros Hs. apply scan_no_match, no_match_intro. intros a b Hab.
  destruct (rmatch (lit p) b) eqn:E; [exfalso|reflexivity].
  assert (Hne : rmatch (lit p) b <> None) by now rewrite E.
  apply lit_matches, starts_with_split in Hne.
  apply (Hs a (skipn (length p) b)). now rewrite Hab, <- Hne.
Qed.

Section XmlTwice.
Variables pkg cur newf : text.
Hypothesis Hpkg : distinct_package pkg = true.
Hypothesis Hfolder : distinct_folder pkg cur newf = true.

Let T : text := txt "com.whatsapp".
Let pk : regex := lit T.
Let tpk : template := tlit (txt "com." ++ pkg).
Let o1 : regex := official_rx (RChr dot) pkg (RChr dot).
Let t : template := restore whatsapp.

Lemma dot_self (c : ascii) : accepts [dot] c = true -> accepts [dot] c = true.
Proof. auto. Qed.

Lemma distinct_folder_facts :
  free [dot] cur = true /\ cur <> [] /\
  no_overlap cur newf = true /\ no_overlap T newf = true /\
  occurs cur pkg = false /\ occurs cur whatsapp = false.
Proof.
  pose proof Hfolder as H. unfold distinct_folder in H.
  rewrite !andb_true_iff, !negb_true_iff in H.
  destruct H as [[[[H1 H2] H3] H4] H5]. repeat split; auto.
  - now apply (@free_sub [dot] [dot; slash] cur accepts_dot_sub).
  - intros ->. discriminate.
Qed.

Lemma package_leaves_none (s : text) : holds_no T (scan pk tpk s 0).
Proof.
  destruct (@distinct_package_facts _ Hpkg) as [_ [_ [N2 _]]].
  apply (@clean_holds_no pk T); [apply lit_matches|].
  apply (@replaced_clean pk tpk T (txt "com." ++ pkg) (lit_matches T)); auto.
  - intros s0 rest g _. apply expand_tlit.
  - now apply consuming_lit.
Qed.

(** The xml rewrite returns its own output unchanged. *)
Lemma xml_scans_twice (s : text) :
  xml_scans pkg cur newf (xml_scans pkg cur newf s) = xml_scans pkg cur newf s.
Proof.
  destruct (@distinct_package_facts _ Hpkg) as [Hsafe _].
  destruct distinct_folder_facts as [Hcur [Hne [N1 [N2 [O1 O2]]]]].
  assert (Hsafe1 : safe [dot] pkg whatsapp = true).
  { exact (@safe_sub [dot] [dot; slash] pkg whatsapp accepts_dot_sub Hsafe). }
  unfold xml_scans. fold T pk tpk o1 t.
  rewrite (sticker_quiet _ (package_leaves_none s)).
  set (y3 := scan (lit cur) (tlit newf) (scan pk tpk s 0) 0).
  set (n := scan o1 t y3 0).
  assert (F1 : holds_no T y3).
  { apply (@replaced_keeps (lit cur) (tlit newf) newf T); auto.
    - intros s0 rest g _. apply expand_tlit.
    - now apply consuming_lit.
    - apply package_leaves_none. }
  assert (F2 : holds_no cur y3).
  { apply (@clean_holds_no (lit cur) cur); [apply lit_matches|].
    apply (@replaced_clean (lit cur) (tlit newf) cur newf (lit_matches cur)); auto.
    - intros s0 rest g _. apply expand_tlit.
    - now apply consuming_lit. }
  assert (Hrel : related [dot] whatsapp pkg n y3).
  { apply (@restore_left (RChr dot) [dot] [dot] pkg whatsapp
             delim_rx_dot dot_self accepts_dot_sub Hsafe).
    apply related_refl. }
  assert (Hfree : piece_free [dot] pkg n).
  { apply (@restored_piece_free (RChr dot) [dot] pkg whatsapp delim_rx_dot).
    exact Hsafe1. }
  assert (G : guarded dot [dot] whatsapp n).
  { apply (@related_guarded dot [dot] pkg whatsapp eq_refl accepts_dot_sub
             Hsafe whatsapp_no_c n y3 Hrel). exact F1. }
  assert (C : holds_no cur n).
  { apply (@related_holds_no [dot] pkg whatsapp cur y3 n Hcur Hne O2); auto.
    now apply related_sym. }
  assert (Z : related [dot] whatsapp pkg n (scan pk tpk n 0)).
  { apply (@rename_right pk tpk dot [dot] pkg whatsapp eq_refl accepts_dot_sub
             Hsafe whatsapp_starts_no_module).
    - intros s0 rest g H. exact (@lit_match T (txt "com." ++ pkg) s0 rest g H).
    - apply related_refl.
    - exact G. }
  rewrite (sticker_quiet _ (package_leaves_none n)).
  assert (C2 : holds_no cur (scan pk tpk n 0)).
  { apply (@related_holds_no [dot] whatsapp pkg cur n _ Hcur Hne O1 Z C). }
  rewrite (literal_quiet _ C2).
  symmetry. apply (@pieces_gone [dot] whatsapp pkg n (scan o1 t (scan pk tpk n 0) 0)).
  - apply (@restore_right (RChr dot) [dot] [dot] pkg whatsapp
             delim_rx_dot dot_self accepts_dot_sub Hsafe); assumption.
  - apply (@restored_piece_free (RChr dot) [dot] pkg whatsapp delim_rx_dot).
    exact Hsafe1.
Qed.

End XmlTwice.

Lemma replace_char_free (s : text) :
  free [dot; slash] s = true -> replace_char dot slash s = s.
Proof.
  induction s as [|c s IH]; [reflexivity|].
  cbn [free forallb replace_char map]. intros H.
  apply andb_prop in H as [Hc Hs]. apply negb_true_iff in Hc.
  fold (replace_char dot slash s). fold (free [dot; slash] s) in Hs.
  rewrite (IH Hs). f_equal.
  destruct (Ascii.eqb c dot) eqn:E; [|reflexivity].
  apply Ascii.eqb_eq in E. subst c. discriminate.
Qed.



End FixedPoint.
